(** * sFTP Loader: a shallow embedding of [sFTP_loader.py] and its properties

    The program is an interactive shell around four SFTP operations
    (upload, create directory, delete, list) and a tree printer.  The
    embedding follows the Python source function by function:

    - a Python [str] is held as its UTF-8 encoding, a byte string
      ([string]): [strip] removes the white space of [str.isspace], also
      beyond ASCII, [len] counts characters, [lower] lowers ASCII text itself
      and takes the case mapping of other text from the Unicode tables of the
      interpreter (class [Unicode]), and names are compared bytewise, which
      on UTF-8 text is the code-point order Python's [sorted] uses;
    - [pathlib.PurePosixPath] is a record of a root and a list of components;
    - the paramiko client, the local file system and [time.ctime] are
      external: they are the methods of the class [Platform], over an
      abstract server state;
    - effects (standard input, printed and logged lines, requests sent to the
      server, open transports and channels, exceptions and [sys.exit]) are
      threaded by the monad [M] over the record [World]. *)

From Stdlib Require Import ZArith Ascii.
From stdpp Require Import base strings list gmap sorting pretty.

(** ** Strings *)

(** The case mapping of Python for text with characters beyond ASCII: the
    tables of the Unicode database that the interpreter carries.  They are
    not part of the program; [unicode_lower s] is [s.lower()] for such a
    string [s]. *)
Class Unicode := { unicode_lower : string → string }.

Module Str.

Definition is_upper (c : ascii) : bool :=
  let n := nat_of_ascii c in (65 <=? n)%nat && (n <=? 90)%nat.

Definition lower_char (c : ascii) : ascii :=
  if is_upper c then ascii_of_nat (nat_of_ascii c + 32) else c.

(** [str.isascii()] *)
Fixpoint is_ascii (s : string) : bool :=
  match s with
  | EmptyString => true
  | String c s' => (N_of_ascii c <? 128)%N && is_ascii s'
  end.

(** [str.lower()] of ASCII text: the letters [A] to [Z] are lowered. *)
Fixpoint lower_ascii (s : string) : string :=
  match s with
  | EmptyString => EmptyString
  | String c s' => String (lower_char c) (lower_ascii s')
  end.

(** [str.lower()] *)
Definition lower `{Unicode} (s : string) : string :=
  if is_ascii s then lower_ascii s else unicode_lower s.

(** [str.isspace()] on one ASCII character: tab, line feed, vertical tab,
    form feed, carriage return, the four separators 0x1c..0x1f and the
    space. *)
Definition isspace (c : ascii) : bool :=
  let n := nat_of_ascii c in
  ((9 <=? n)%nat && (n <=? 13)%nat) || ((28 <=? n)%nat && (n <=? 32)%nat).

(** [str.isspace()] on a character of two bytes: U+0085 (C2 85) and
    U+00A0 (C2 A0). *)
Definition isspace2 (a b : ascii) : bool :=
  let m := N_of_ascii a in
  let n := N_of_ascii b in
  ((m =? 194) && ((n =? 133) || (n =? 160)))%N.

(** [str.isspace()] on a character of three bytes: U+1680 (E1 9A 80),
    U+2000..U+200A (E2 80 80..8A), U+2028, U+2029, U+202F (E2 80 A8, A9,
    AF), U+205F (E2 81 9F) and U+3000 (E3 80 80). *)
Definition isspace3 (a b c : ascii) : bool :=
  let l := N_of_ascii a in
  let m := N_of_ascii b in
  let n := N_of_ascii c in
  (((l =? 225) && (m =? 154) && (n =? 128)) ||
   ((l =? 226) && (m =? 128) &&
      (((128 <=? n) && (n <=? 138)) || (n =? 168) || (n =? 169) || (n =? 175))) ||
   ((l =? 226) && (m =? 129) && (n =? 159)) ||
   ((l =? 227) && (m =? 128) && (n =? 128)))%N.

(** The string is one white space character. *)
Definition is_space (s : string) : bool :=
  match s with
  | String a EmptyString => isspace a
  | String a (String b EmptyString) => isspace2 a b
  | String a (String b (String c EmptyString)) => isspace3 a b c
  | _ => false
  end.

(** The string begins with a white space character. *)
Definition leads_space (s : string) : bool :=
  match s with
  | EmptyString => false
  | String a s1 =>
      isspace a ||
      match s1 with
      | EmptyString => false
      | String b s2 =>
          isspace2 a b ||
          match s2 with
          | EmptyString => false
          | String c _ => isspace3 a b c
          end
      end
  end.

Definition is_slash (c : ascii) : bool := bool_decide (c = "/"%char).

(** [str.lstrip()] *)
Fixpoint lstrip (s : string) : string :=
  match s with
  | EmptyString => EmptyString
  | String a s1 =>
      if isspace a then lstrip s1
      else match s1 with
           | EmptyString => s
           | String b s2 =>
               if isspace2 a b then lstrip s2
               else match s2 with
                    | EmptyString => s
                    | String c s3 => if isspace3 a b c then lstrip s3 else s
                    end
           end
  end.

(** [str.rstrip()]: what is left of the rest, with the character before it,
    is dropped when that is one white space character. *)
Fixpoint rstrip (s : string) : string :=
  match s with
  | EmptyString => EmptyString
  | String a s' =>
      let r := rstrip s' in
      if is_space (String a r) then EmptyString else String a r
  end.

Fixpoint rstrip_by (p : ascii → bool) (s : string) : string :=
  match s with
  | EmptyString => EmptyString
  | String c s' =>
      match rstrip_by p s' with
      | EmptyString => if p c then EmptyString else String c EmptyString
      | r => String c r
      end
  end.

(** [str.strip()] *)
Definition strip (s : string) : string := rstrip (lstrip s).

(** [str.rstrip('/')] *)
Definition rstrip_slash (s : string) : string := rstrip_by is_slash s.

(** [str.split('/')] *)
Fixpoint split_slash (s : string) : list string :=
  match s with
  | EmptyString => [EmptyString]
  | String c s' =>
      if is_slash c then EmptyString :: split_slash s'
      else match split_slash s' with
           | h :: t => String c h :: t
           | [] => [String c EmptyString]
           end
  end.

(** ['/'.join(l)] *)
Fixpoint join_slash (l : list string) : string :=
  match l with
  | [] => ""
  | [x] => x
  | x :: l' => x +:+ "/" +:+ join_slash l'
  end.

(** [len(s)]: the number of characters, which in UTF-8 is the number of
    bytes that are not continuation bytes (0x80..0xBF). *)
Fixpoint len (s : string) : nat :=
  match s with
  | EmptyString => 0
  | String c s' =>
      let n := N_of_ascii c in
      if ((128 <=? n) && (n <? 192))%N then len s' else S (len s')
  end.

(** [str.ljust(n)] *)
Fixpoint spaces (n : nat) : string :=
  match n with O => "" | S n' => String " "%char (spaces n') end.

Definition ljust (n : nat) (s : string) : string :=
  s +:+ spaces (n - len s).

(** ["-" * n] *)
Definition dashes (n : nat) : string := String.concat "" (replicate n "-").

Fixpoint has_slash (s : string) : bool :=
  match s with
  | EmptyString => false
  | String c s' => is_slash c || has_slash s'
  end.

End Str.

(** ** [pathlib.PurePosixPath] *)

Record PurePosixPath := PosixPath { root : string; parts : list string }.

#[global] Instance PurePosixPath_eq_dec : EqDecision PurePosixPath.
Proof. solve_decision. Defined.

(** [posixpath.splitroot]: one leading slash, or three and more, give the root
    ["/"]; exactly two give the root ["//"]. *)
Definition splitroot (p : string) : string * string :=
  match p with
  | String "/"%char (String "/"%char (String "/"%char r)) =>
      ("/", String "/"%char (String "/"%char r))
  | String "/"%char (String "/"%char r) => ("//", r)
  | String "/"%char r => ("/", r)
  | _ => ("", p)
  end.

(** A component that the parser keeps: not empty and not ["."]. *)
Definition kept (x : string) : bool :=
  negb (bool_decide (x = "")) && negb (bool_decide (x = ".")).

(** [posix_path(s)], i.e. [PurePosixPath(s)] *)
Definition posix_path (s : string) : PurePosixPath :=
  let '(r, rel) := splitroot s in
  PosixPath r (List.filter kept (Str.split_slash rel)).

(** [str(p)] and [p.as_posix()] *)
Definition as_posix (p : PurePosixPath) : string :=
  match root p +:+ Str.join_slash (parts p) with
  | EmptyString => "."
  | s => s
  end.

(** [p / key], for a key given as a string *)
Definition truediv (p : PurePosixPath) (key : string) : PurePosixPath :=
  match key with
  | String "/"%char _ => posix_path key
  | _ => PosixPath (root p) (parts p ++ List.filter kept (Str.split_slash key))
  end.

(** [p.name]: the last component, or the empty string *)
Definition name (p : PurePosixPath) : string := List.last (parts p) "".

(** [p.parent] *)
Definition parent (p : PurePosixPath) : PurePosixPath :=
  PosixPath (root p) (List.removelast (parts p)).

(** ** Sorting names: Python's [sorted] on a list of [str] *)

Definition sorted (l : list string) : list string := merge_sort String.le l.

(** ** [stat] *)

(** The two attributes the program reads.  [st_mode] is the mode the reply
    carries.  [st_mtime] is [None] when the reply carries no times: the
    protocol leaves them optional and paramiko then leaves the attribute
    [None]. *)
Record SFTPAttributes := Attrs { st_mode : Z; st_mtime : option Z }.

(** [stat.S_ISDIR(mode)]: [(mode & 0o170000) == 0o040000] *)
Definition S_ISDIR (mode : Z) : bool := (Z.land mode 61440 =? 16384)%Z.

(** ** Exceptions *)

(** The exception classes the program raises, catches or can receive from the
    client library.  All of them are subclasses of [Exception]; [sys.exit]
    raises [SystemExit], which is not, and is kept apart in [outcome]. *)
Inductive error :=
| IOError (msg : string)
| FileNotFoundError (msg : string)
| IsADirectoryError (msg : string)
| SSHException (msg : string)
| AuthenticationException (msg : string)
| PasswordRequiredException (msg : string)
| BadHostKeyException (msg : string)
| ChannelException (msg : string)
| UnboundLocalError (msg : string)
| RecursionError
| EOFError.

#[global] Instance error_eq_dec : EqDecision error.
Proof. solve_decision. Defined.

(** [str(e)] *)
Definition str_error (e : error) : string :=
  match e with
  | IOError m | FileNotFoundError m | IsADirectoryError m | SSHException m
  | AuthenticationException m | PasswordRequiredException m
  | BadHostKeyException m | ChannelException m | UnboundLocalError m => m
  | RecursionError => "maximum recursion depth exceeded"
  | EOFError => "EOF when reading a line"
  end.

(** [isinstance(e, IOError)]: [IOError] is [OSError], the base of
    [FileNotFoundError] and [IsADirectoryError]. *)
Definition is_IOError (e : error) : bool :=
  match e with
  | IOError _ | FileNotFoundError _ | IsADirectoryError _ => true
  | _ => false
  end.

(** [isinstance(e, pm.SSHException)]: the base of paramiko's exceptions. *)
Definition is_SSHException (e : error) : bool :=
  match e with
  | SSHException _ | AuthenticationException _ | PasswordRequiredException _
  | BadHostKeyException _ | ChannelException _ => true
  | _ => false
  end.

(** The classes listed by the [except] clause of [upload_file]. *)
Definition upload_caught (e : error) : bool :=
  match e with
  | PasswordRequiredException _ | AuthenticationException _
  | BadHostKeyException _ | ChannelException _ => true
  | _ => false
  end.

(** [except Exception] *)
Definition is_Exception (e : error) : bool := true.

Inductive outcome (A : Type) :=
| Ok (a : A)
| Raise (e : error)
| SysExit (code : Z).
Arguments Ok {A} a.
Arguments Raise {A} e.
Arguments SysExit {A} code.

(** Exit status of the process when [main] ends with this outcome: an
    uncaught exception prints a traceback and gives status 1. *)
Definition exit_status {A} (o : outcome A) : Z :=
  match o with
  | Ok _ => 0
  | Raise _ => 1
  | SysExit c => c
  end.

(** ** Observable events *)

Inductive level := INFO | ERROR.

(** What the process does that can be seen from outside, in order: prompts
    written by [input], lines printed, log records (the format string of the
    source with the values of its fields), requests sent on an SFTP channel
    and the CSV file written. *)
Inductive event :=
| EvPrompt (prompt : string)
| EvPrint (line : string)
| EvLog (lvl : level) (fmt : string) (args : list string)
| EvStat (path : string)
| EvListdir (path : string)
| EvPut (localpath remotepath : string) (confirm : bool)
| EvMkdir (path : string)
| EvRemove (path : string)
| EvRmdir (path : string)
| EvCsv (path : string) (rows : list (list string)).

#[global] Instance level_eq_dec : EqDecision level.
Proof. solve_decision. Defined.
#[global] Instance event_eq_dec : EqDecision event.
Proof. solve_decision. Defined.

(** Requests that change the remote store. *)
Definition is_mutation (e : event) : bool :=
  match e with
  | EvPut _ _ _ | EvMkdir _ | EvRemove _ | EvRmdir _ => true
  | _ => false
  end.

Definition is_removal (e : event) : bool :=
  match e with
  | EvRemove _ | EvRmdir _ => true
  | _ => false
  end.

Definition is_error_log (e : event) : bool :=
  match e with
  | EvLog ERROR _ _ => true
  | _ => false
  end.

Definition is_prompt (e : event) : bool :=
  match e with
  | EvPrompt _ => true
  | _ => false
  end.

(** ** Sessions *)

(** [pm.Transport]: the object made by [pm.Transport((host, port))]. *)
Record Transport := MkTransport { t_id : nat; t_host : string; t_port : Z }.

(** [pm.SFTPClient]: the object made by [SFTPClient.from_transport]; it
    remembers the user its transport was authenticated for. *)
Record SFTPClient := MkSFTPClient {
  c_id : nat; c_transport : Transport; c_username : string }.

(** What the server knows of the client that sends a request. *)
Record Login := MkLogin { l_host : string; l_port : Z; l_username : string }.

Definition login (c : SFTPClient) : Login :=
  MkLogin (t_host (c_transport c)) (t_port (c_transport c)) (c_username c).

(** Resources the process holds open. *)
Inductive handle :=
| HTransport (id : nat)
| HChannel (id : nat) (transport : nat).

#[global] Instance handle_eq_dec : EqDecision handle.
Proof. solve_decision. Defined.

(** ** The platform: paramiko, the local file system, the clock *)

Class Platform (Srv : Type) := {
  (** the Unicode tables of the interpreter *)
  unicode :: Unicode;
  (** [time.ctime(secs)] for a time [secs] in seconds *)
  ctime : Z → string;
  (** frames left for [_walk] before Python raises [RecursionError] *)
  recursion_limit : nat;
  (** [Path.expanduser().resolve()], as the string of the resolved path;
      [Path.exists()], [Path.is_file()] *)
  expanduser_resolve : PurePosixPath → string;
  path_exists : PurePosixPath → bool;
  path_is_file : PurePosixPath → bool;
  (** creating the parent folders and writing the rows of a CSV file *)
  write_csv : PurePosixPath → list (list string) → option error;
  (** [pm.Transport((host, port))]: opening the socket *)
  tcp_connect : Srv → string → Z → option error;
  (** [transport.connect(username, password)]: negotiation, authentication *)
  ssh_connect : Srv → string → Z → string → string → option error;
  (** [SFTPClient.from_transport(transport)] *)
  open_sftp : Srv → Login → option error;
  (** the requests of an SFTP channel; [stat] and [listdir] only read *)
  srv_stat : Srv → Login → string → error + SFTPAttributes;
  srv_listdir : Srv → Login → string → error + list string;
  srv_put : Srv → Login → string → string → bool → option error * Srv;
  srv_mkdir : Srv → Login → string → option error * Srv;
  srv_remove : Srv → Login → string → option error * Srv;
  srv_rmdir : Srv → Login → string → option error * Srv;
}.

(** ** The world and the monad of the program *)

Record World (Srv : Type) := MkWorld {
  stdin : list string;      (** the lines the operator will type *)
  remote : Srv;             (** the state of the remote store *)
  trace : list event;       (** the events so far, oldest first *)
  handles : list handle;    (** transports and channels now open *)
  next_id : nat;            (** fresh identifier for the next object *)
  clock : nat → Z;          (** the readings of the clock to come, in seconds *)
}.
Arguments MkWorld {Srv} _ _ _ _ _ _.
Arguments stdin {Srv} _.
Arguments remote {Srv} _.
Arguments trace {Srv} _.
Arguments handles {Srv} _.
Arguments next_id {Srv} _.
Arguments clock {Srv} _.

Definition M (Srv A : Type) : Type := World Srv → outcome A * World Srv.

Definition ret {Srv A} (a : A) : M Srv A := λ w, (Ok a, w).

Definition bind {Srv A B} (m : M Srv A) (k : A → M Srv B) : M Srv B :=
  λ w, match m w with
       | (Ok a, w') => k a w'
       | (Raise e, w') => (Raise e, w')
       | (SysExit c, w') => (SysExit c, w')
       end.

Notation "x <- c ;; k" := (bind c (λ x, k))
  (at level 20, c at level 99, k at level 200, only parsing).
Notation "c ;; k" := (bind c (λ _, k))
  (at level 100, k at level 200, right associativity, only parsing).

(** [raise e] *)
Definition raise {Srv A} (e : error) : M Srv A := λ w, (Raise e, w).

(** [sys.exit(code)] *)
Definition sys_exit {Srv A} (code : Z) : M Srv A := λ w, (SysExit code, w).

(** [try: m except <classes> as e: handler e] *)
Definition try_except {Srv A} (m : M Srv A) (classes : error → bool)
    (handler : error → M Srv A) : M Srv A :=
  λ w, match m w with
       | (Raise e, w') => if classes e then handler e w' else (Raise e, w')
       | r => r
       end.

(** [try: m finally: fin]; what [fin] raises replaces the outcome of [m]. *)
Definition try_finally {Srv A} (m : M Srv A) (fin : M Srv unit) : M Srv A :=
  λ w, match m w with
       | (r, w') =>
           match fin w' with
           | (Ok _, w'') => (r, w'')
           | (Raise e, w'') => (Raise e, w'')
           | (SysExit c, w'') => (SysExit c, w'')
           end
       end.

(** [for x in l: body x] *)
Fixpoint for_each {Srv A} (l : list A) (body : A → M Srv unit) : M Srv unit :=
  match l with
  | [] => ret tt
  | x :: l' => body x ;; for_each l' body
  end.

(** [enumerate(l)] *)
Definition enumerate {A} (l : list A) : list (nat * A) :=
  zip (seq 0 (length l)) l.

Definition emit {Srv} (e : event) : M Srv unit :=
  λ w, (Ok tt, MkWorld (stdin w) (remote w) (trace w ++ [e]) (handles w) (next_id w) (clock w)).

Definition print {Srv} (line : string) : M Srv unit := emit (EvPrint line).

Definition log {Srv} (lvl : level) (fmt : string) (args : list string) : M Srv unit :=
  emit (EvLog lvl fmt args).

(** [input(prompt)]: one line of standard input without its newline;
    [EOFError] when standard input is exhausted. *)
Definition input {Srv} (prompt : string) : M Srv string :=
  λ w, let w' := MkWorld (List.tl (stdin w)) (remote w)
                   (trace w ++ [EvPrompt prompt]) (handles w) (next_id w) (clock w) in
       match stdin w with
       | [] => (Raise EOFError, w')
       | line :: _ => (Ok line, w')
       end.

(** [time.time()]: the next reading of the clock. *)
Definition time_time {Srv} : M Srv Z :=
  λ w, (Ok (clock w 0%nat),
        MkWorld (stdin w) (remote w) (trace w) (handles w) (next_id w)
          (λ k, clock w (S k))).

Notation "a == b" := (bool_decide (a = b)) (at level 70, no associativity).

(** ** The program *)

Section Program.
Context {Srv : Type} `{!Platform Srv}.

#[local] Abbreviation M := (M Srv).

Definition set_handles (f : list handle → list handle) : M unit :=
  λ w, (Ok tt, MkWorld (stdin w) (remote w) (trace w) (f (handles w)) (next_id w) (clock w)).

(** *** The client library *)

(** [pm.Transport((host, port))]: connects the socket. *)
Definition new_transport (host : string) (port : Z) : M Transport :=
  λ w, match tcp_connect (remote w) host port with
       | Some e => (Raise e, w)
       | None =>
           (Ok (MkTransport (next_id w) host port),
            MkWorld (stdin w) (remote w) (trace w)
              (HTransport (next_id w) :: handles w) (S (next_id w)) (clock w))
       end.

(** [transport.connect(username=username, password=password)] *)
Definition transport_connect (t : Transport) (username password : string) : M unit :=
  λ w, match ssh_connect (remote w) (t_host t) (t_port t) username password with
       | Some e => (Raise e, w)
       | None => (Ok tt, w)
       end.

(** [pm.SFTPClient.from_transport(transport)]; [username] is the user the
    transport was connected for, which the Python object carries itself. *)
Definition from_transport (t : Transport) (username : string) : M SFTPClient :=
  λ w, match open_sftp (remote w) (MkLogin (t_host t) (t_port t) username) with
       | Some e => (Raise e, w)
       | None =>
           (Ok (MkSFTPClient (next_id w) t username),
            MkWorld (stdin w) (remote w) (trace w)
              (HChannel (next_id w) (t_id t) :: handles w) (S (next_id w)) (clock w))
       end.

(** [sftp.close()]: closes the channel; closing twice does nothing. *)
Definition sftp_close (c : SFTPClient) : M unit :=
  set_handles (List.filter (λ h, negb (h == HChannel (c_id c) (t_id (c_transport c))))).

(** [transport.close()]: closes the transport and the channels on it. *)
Definition transport_close (t : Transport) : M unit :=
  set_handles (List.filter (λ h,
    match h with
    | HTransport i => negb (i == t_id t)
    | HChannel _ i => negb (i == t_id t)
    end)).

Definition reading {A} (e : event) (f : Srv → error + A) : M A :=
  emit e ;;
  λ w, match f (remote w) with
       | inl err => (Raise err, w)
       | inr a => (Ok a, w)
       end.

Definition writing (e : event) (f : Srv → option error * Srv) : M unit :=
  emit e ;;
  λ w, let '(r, s) := f (remote w) in
       (match r with Some err => Raise err | None => Ok tt end,
        MkWorld (stdin w) s (trace w) (handles w) (next_id w) (clock w)).

Definition sftp_stat (c : SFTPClient) (path : string) : M SFTPAttributes :=
  reading (EvStat path) (λ s, srv_stat s (login c) path).

Definition sftp_listdir (c : SFTPClient) (path : string) : M (list string) :=
  reading (EvListdir path) (λ s, srv_listdir s (login c) path).

Definition sftp_put (c : SFTPClient) (localpath remotepath : string)
    (confirm : bool) : M unit :=
  writing (EvPut localpath remotepath confirm)
    (λ s, srv_put s (login c) localpath remotepath confirm).

Definition sftp_mkdir (c : SFTPClient) (path : string) : M unit :=
  writing (EvMkdir path) (λ s, srv_mkdir s (login c) path).

Definition sftp_remove (c : SFTPClient) (path : string) : M unit :=
  writing (EvRemove path) (λ s, srv_remove s (login c) path).

Definition sftp_rmdir (c : SFTPClient) (path : string) : M unit :=
  writing (EvRmdir path) (λ s, srv_rmdir s (login c) path).

(** [time.ctime(secs)]: the text of the time [secs], and of the current
    time when [secs] is [None]. *)
Definition time_ctime (secs : option Z) : M string :=
  match secs with
  | Some t => ret (ctime t)
  | None => t <- time_time ;; ret (ctime t)
  end.

(** *** [ask] *)

Definition ask (prompt : string) : M string :=
  line <- input prompt ;;
  let response := Str.strip line in
  if Str.lower response == "exit" then
    log INFO "Goodbye!" [] ;; sys_exit 0
  else ret response.

(** *** [sftp_connection]

    The context manager: the statements before [yield] run on entry, the
    body of the [with] statement runs at [yield], inside [try], and the
    [finally] clause runs however the body ends. *)
Definition sftp_connection {A} (host : string) (port : Z)
    (username password : string) (body : SFTPClient → M A) : M A :=
  transport <- new_transport host port ;;
  transport_connect transport username password ;;
  sftp <- from_transport transport username ;;
  try_finally (body sftp)
    (sftp_close sftp ;; transport_close transport).

(** *** [upload_file] *)

(** The body of the [with] statement of [upload_file]. *)
Definition upload_body (sftp : SFTPClient) (local_path remote_dir : PurePosixPath)
    (remote_str : string) : M unit :=
  log INFO "Uploading {local_path} → {remote_dir}"
    [as_posix local_path; as_posix remote_dir] ;;
  sftp_put sftp (as_posix local_path) remote_str true ;;
  log INFO "Upload completed successfully." [].

Definition upload_file (local_path remote_dir : PurePosixPath)
    (hostname : string) (port : Z) (username password : string) : M unit :=
  let local_path := posix_path (expanduser_resolve local_path) in
  (if negb (path_exists local_path) || negb (path_is_file local_path) then
     log ERROR "File path is not valid or isn’t a file: {local_path}"
       [as_posix local_path] ;;
     raise (FileNotFoundError (as_posix local_path +:+ " not found or not a file"))
   else
     log INFO "Paths found and valid, starting upload." []) ;;
  let remote_file := truediv remote_dir (name local_path) in
  let remote_str := as_posix remote_file in
  try_except
    (sftp_connection hostname port username password (λ sftp,
       upload_body sftp local_path remote_dir remote_str))
    upload_caught
    (λ e, log ERROR "An exception has occured! Error {e}" [str_error e] ;;
          raise e).

(** *** [create_dir] *)

(** The body of the [with] statement of [create_dir]. *)
Definition create_dir_body (sftp : SFTPClient) (remote_dir : PurePosixPath)
    (remote_str hostname : string) : M unit :=
  try_except
    (sftp_mkdir sftp (as_posix remote_dir) ;;
     sftp_close sftp ;;
     print ("Folder '" +:+ remote_str +:+ "' created successfully on " +:+ hostname))
    is_Exception
    (λ e, print ("Error creating folder: " +:+ str_error e)).

Definition create_dir (remote_dir : PurePosixPath)
    (hostname : string) (port : Z) (username password : string) : M unit :=
  let remote_str := as_posix remote_dir in
  sftp_connection hostname port username password (λ sftp,
    create_dir_body sftp remote_dir remote_str hostname).

(** *** [delete] *)

(** The body of the [with] statement of [delete]. *)
Definition delete_body (sftp : SFTPClient) (remote_str deletion_type : string) : M unit :=
  try_except
    (if deletion_type == "file" then
       attrs <- try_except (sftp_stat sftp remote_str) is_IOError
                  (λ _, if deletion_type == "file" then
                          log ERROR "Remote file not found: {remote_str}" [remote_str] ;;
                          raise (FileNotFoundError (remote_str +:+ " not found!"))
                        else raise (UnboundLocalError "attrs")) ;;
       (if S_ISDIR (st_mode attrs) then
          log ERROR "Remote path is a directory: {remote_str}" [remote_str] ;;
          raise (IsADirectoryError (remote_str +:+ " is a directory!"))
        else ret tt) ;;
       sftp_remove sftp remote_str ;;
       log INFO "File '{remote_str}' deleted successfully." [remote_str]
     else if deletion_type == "folder" then
       sftp_rmdir sftp remote_str ;;
       log INFO "Folder '{remote_str}' deleted successfully." [remote_str]
     else ret tt)
    is_SSHException
    (λ e, log ERROR "sFTP error: {e}" [str_error e] ;; raise e).

Definition delete (remote_dir : PurePosixPath)
    (hostname : string) (port : Z) (username password : string)
    (deletion_type : string) : M unit :=
  let remote_str := as_posix remote_dir in
  sftp_connection hostname port username password (λ sftp,
    delete_body sftp remote_str deletion_type).

(** *** [view_contents] *)

(** The loop of [view_contents]: one [stat] per name, appending to [out]. *)
Fixpoint view_loop (sftp : SFTPClient) (remote_str : string)
    (names : list string) (out : list (string * string)) : M (list (string * string)) :=
  match names with
  | [] => ret out
  | name :: names' =>
      let full_path := remote_str +:+ "/" +:+ name in
      attrs <- sftp_stat sftp full_path ;;
      mtime <- time_ctime (st_mtime attrs) ;;
      view_loop sftp remote_str names' (out ++ [(name, mtime)])
  end.

(** The body of the [with] statement of [view_contents]. *)
Definition view_body (sftp : SFTPClient) (remote_str : string)
    : M (list (string * string)) :=
  names <- sftp_listdir sftp remote_str ;;
  view_loop sftp remote_str (sorted names) [].

Definition view_contents (remote_dir : PurePosixPath)
    (hostname : string) (port : Z) (username password : string)
    : M (list (string * string)) :=
  let remote_str := as_posix remote_dir in
  sftp_connection hostname port username password (λ sftp,
    view_body sftp remote_str).

(** *** [output_csv] *)

Definition output_csv (rows : list (string * string)) (output_path : PurePosixPath)
    : M unit :=
  let content := ["File"; "Last Modified"] :: List.map (λ r, [r.1; r.2]) rows in
  match write_csv output_path content with
  | Some e => raise e
  | None =>
      emit (EvCsv (as_posix output_path) content) ;;
      log INFO "Wrote {len(rows)} entries to {output_path}"
        [pretty (length rows); as_posix output_path]
  end.

(** *** [stfp_formatter] *)

(** The body of the loop of [_walk] for entry [idx] of [len] entries. *)
Definition walk_entry (walk : string → string → M unit) (sftp : SFTPClient)
    (path prefix : string) (len : nat) (idx : nat) (name : string) : M unit :=
  let full := Str.rstrip_slash path +:+ "/" +:+ name in
  attrs <- sftp_stat sftp full ;;
  let is_dir := S_ISDIR (st_mode attrs) in
  let branch := if idx == (len - 1)%nat then "└── " else "├── " in
  let suffix := if is_dir then "/" else "" in
  print (prefix +:+ branch +:+ name +:+ suffix) ;;
  if is_dir then
    let extension := if idx == (len - 1)%nat then "    " else "│   " in
    walk full (prefix +:+ extension)
  else ret tt.

(** [_walk]; [depth] bounds the nesting of calls, as Python's recursion
    limit does. *)
Fixpoint _walk (depth : nat) (sftp : SFTPClient) (path prefix : string) : M unit :=
  match depth with
  | O => raise RecursionError
  | S depth' =>
      names <- sftp_listdir sftp path ;;
      let entries := sorted names in
      for_each (enumerate entries) (λ ie,
        walk_entry (_walk depth' sftp) sftp path prefix (length entries) ie.1 ie.2)
  end.

(** The body of the [with] statement of [stfp_formatter]. *)
Definition formatter_body (sftp : SFTPClient) (root : string) : M unit :=
  try_finally
    (print (root +:+ "/") ;;
     _walk recursion_limit sftp root "")
    (sftp_close sftp).

Definition stfp_formatter (hostname : string) (port : Z) (username password : string)
    (remote_dir : PurePosixPath) : M unit :=
  let root := Str.rstrip_slash (as_posix remote_dir) in
  sftp_connection hostname port username password (λ sftp,
    formatter_body sftp root).

(** *** [main] *)

Definition banner : string := "
******************************************************************************************
 
                                ┏┓┏┓┏┳┓┏┓  ┓      ┓    
                                ┗┓┣  ┃ ┃┃  ┃ ┏┓┏┓┏┫┏┓┏┓
                                ┗┛┻  ┻ ┣┛  ┗┛┗┛┗┻┗┻┗ ┛ 
                
                                        v.5
                                sFTP File Manipulator
                                Author: Bruce A. Lee 
                    Type exit at any point to terminate this program.
          
******************************************************************************************
".

Definition choice_prompt : string :=
  "Type 'upload' to send a file, 'folder' to make a new folder, 'delete' to remove either or 'view'  to list all files within the server: ".

Definition view_prompt : string :=
  "Type 'list' for flat listing, 'csv' for the lists' contents as a .csv, or 'tree' for full directory tree: ".

(** The table printed by the [list] view. *)
Definition print_listing (files : list (string * string)) : M unit :=
  let max_name :=
    foldr Nat.max 0%nat (List.map (λ r, Str.len r.1) (files ++ [("File", "")])) in
  let header := Str.ljust max_name "File" +:+ "   Last Modified" in
  let sep := Str.dashes (Str.len header) in
  print header ;;
  print sep ;;
  for_each files (λ r, print (Str.ljust max_name r.1 +:+ "   " +:+ r.2)).

(** The [view] branch, after the remote directory has been read. *)
Definition view (view_mode : string) (remote_dir : PurePosixPath)
    (host : string) (port : Z) (username password : string) : M unit :=
  if view_mode == "list" then
    try_except
      (files <- view_contents remote_dir host port username password ;;
       print_listing files)
      is_Exception
      (λ e, log ERROR "Failed to list directory: {e}" [str_error e] ;; sys_exit 1)
  else if view_mode == "tree" then
    try_except
      (stfp_formatter host port username password remote_dir)
      is_Exception
      (λ e, log ERROR "Failed to print tree: {e}" [str_error e] ;; sys_exit 1)
  else if view_mode == "csv" then
    files <- view_contents remote_dir host port username password ;;
    o <- ask "Output csv file path: " ;;
    let out_file := posix_path o in
    try_except
      (output_csv files out_file)
      is_Exception
      (λ e, log ERROR "Failed to write csv: {e}" [str_error e] ;; sys_exit 1)
  else
    log ERROR "Invalid view mode—please enter 'list', 'tree', or 'csv'." [] ;;
    sys_exit 1.

(** The branches of the loop of [main] on [choice]. *)
Definition command (choice : string)
    (host : string) (port : Z) (username password : string) : M unit :=
  if choice == "upload" then
    s <- ask "Local file to upload: " ;;
    let src := posix_path s in
    d <- ask "Remote directory: " ;;
    let dst_dir := posix_path (Str.strip d) in
    try_except
      (upload_file src dst_dir host port username password)
      is_Exception
      (λ e, log ERROR "Upload failed: {e}" [str_error e] ;; sys_exit 1)
  else if choice == "folder" then
    d <- ask "New remote directory: " ;;
    let new_dir := posix_path (Str.strip d) in
    try_except
      (create_dir new_dir host port username password)
      is_Exception
      (λ e, log ERROR "Folder creation failed: {e}" [str_error e] ;; sys_exit 1)
  else if choice == "delete" then
    deletion_type <- input "File or Folder? " ;;
    d <- ask "Remote directory: " ;;
    let dst_dir := posix_path (Str.strip d) in
    try_except
      (delete dst_dir host port username password deletion_type)
      is_Exception
      (λ e, log ERROR "Deletion failed: {e}" [str_error e] ;; sys_exit 1)
  else if choice == "view" then
    d <- ask "Remote directory to list: " ;;
    let remote_dir := posix_path (Str.strip d) in
    m <- ask view_prompt ;;
    let view_mode := Str.lower (Str.strip m) in
    view view_mode remote_dir host port username password
  else
    log ERROR "Invalid choice {choice!r}; please enter 'upload', 'delete', 'folder' or 'view'."
      [choice] ;;
    sys_exit 1.

(** How an iteration of [while True] ends: [continue] with the credentials
    of the next iteration, or [break]. *)
Inductive flow :=
| Continue (host username password : string)
| Break.

(** The restart logic at the end of the loop body. *)
Definition restart_logic (host username password : string) : M flow :=
  r <- ask "Continue? (yes/no): " ;;
  let restart := Str.lower (Str.strip r) in
  if restart == "no" then
    log INFO "Goodbye!" [] ;;
    ret Break
  else
    s <- ask "Proceed with the same sFTP credentials? (yes/no): " ;;
    let same_creds := Str.lower (Str.strip s) in
    if same_creds == "yes" then
      ret (Continue host username password)
    else if same_creds == "no" then
      log INFO "Please reenter sFTP credentials:" [] ;;
      h <- ask "Host: " ;;
      let host := Str.strip h in
      username <- ask "Username: " ;;
      p <- ask "Password: " ;;
      let password := Str.strip p in
      ret (Continue host username password)
    else
      log ERROR "Invalid answer-please enter 'yes', or 'no'." [] ;;
      ret (Continue host username password).

(** The body of [while True]. *)
Definition iteration (host : string) (port : Z) (username password : string) : M flow :=
  c <- ask choice_prompt ;;
  let choice := Str.lower (Str.strip c) in
  command choice host port username password ;;
  restart_logic host username password.

(** [while True]: at most [fuel] iterations; [None] when they are used up. *)
Fixpoint main_loop (fuel : nat) (host : string) (port : Z) (username password : string)
    : M (option unit) :=
  match fuel with
  | O => ret None
  | S fuel' =>
      f <- iteration host port username password ;;
      match f with
      | Break => ret (Some tt)
      | Continue host' username' password' =>
          main_loop fuel' host' port username' password'
      end
  end.

(** [main].  Every iteration reads a line, so one more iteration than there
    are lines on standard input is never reached. *)
Definition main : M (option unit) :=
  print banner ;;
  h <- ask "Host: " ;;
  let host := Str.strip h in
  username <- ask "Username: " ;;
  p <- ask "Password: " ;;
  let password := Str.strip p in
  let port := 22%Z in
  λ w, main_loop (S (length (stdin w))) host port username password w.

End Program.

(** ** An in-memory server

    A small instance of [Platform] on which the program runs by computation:
    one host with one account and a finite map from normalised absolute
    paths to attributes.  The local file system is the list [local_files];
    local paths are taken as already resolved. *)

Module Mem.

Record Server := MkServer {
  host : string;
  username : string;
  password : string;
  nodes : gmap string SFTPAttributes;
}.

Definition dir_mode : Z := 16877.   (* 0o040755 *)
Definition file_mode : Z := 33188.  (* 0o100644 *)

Definition norm (p : string) : string := as_posix (posix_path p).

Fixpoint strip_prefix (pre s : string) : option string :=
  match pre, s with
  | EmptyString, _ => Some s
  | String a pre', String b s' => if a == b then strip_prefix pre' s' else None
  | _, _ => None
  end.

(** The names directly under the directory [p]. *)
Definition children (m : gmap string SFTPAttributes) (p : string) : list string :=
  omap (λ kv, match strip_prefix (Str.rstrip_slash p +:+ "/") kv.1 with
              | Some n => if negb (n == "") && negb (Str.has_slash n) then Some n else None
              | None => None
              end) (map_to_list m).

Definition is_dir (m : gmap string SFTPAttributes) (p : string) : bool :=
  match m !! p with
  | Some a => S_ISDIR (st_mode a)
  | None => false
  end.

(** A stand-in for the Unicode tables: letters beyond ASCII have no other
    case. *)
Definition ascii_only : Unicode := {| unicode_lower := Str.lower_ascii |}.

(** Two white space characters beyond ASCII, for the lines typed in the
    runs: the no-break space U+00A0 and the em space U+2003. *)
Definition nbsp : string := String "194"%char (String "160"%char "").
Definition em_space : string :=
  String "226"%char (String "128"%char (String "131"%char "")).

Definition no_such_file : error := IOError "[Errno 2] No such file".
Definition failure : error := IOError "Failure".

Definition with_nodes (s : Server) (m : gmap string SFTPAttributes) : Server :=
  MkServer (host s) (username s) (password s) m.

Definition stat (s : Server) (p : string) : error + SFTPAttributes :=
  match nodes s !! norm p with
  | Some a => inr a
  | None => inl no_such_file
  end.

Definition listdir (s : Server) (p : string) : error + list string :=
  if is_dir (nodes s) (norm p) then inr (children (nodes s) (norm p))
  else inl no_such_file.

Definition put (s : Server) (r : string) : option error * Server :=
  if is_dir (nodes s) (as_posix (parent (posix_path r))) && negb (is_dir (nodes s) (norm r))
  then (None, with_nodes s (<[norm r := Attrs file_mode (Some 0%Z)]> (nodes s)))
  else (Some failure, s).

Definition mkdir (s : Server) (p : string) : option error * Server :=
  match nodes s !! norm p with
  | Some _ => (Some failure, s)
  | None =>
      if is_dir (nodes s) (as_posix (parent (posix_path p)))
      then (None, with_nodes s (<[norm p := Attrs dir_mode (Some 0%Z)]> (nodes s)))
      else (Some no_such_file, s)
  end.

Definition remove (s : Server) (p : string) : option error * Server :=
  match nodes s !! norm p with
  | Some a =>
      if S_ISDIR (st_mode a) then (Some failure, s)
      else (None, with_nodes s (base.delete (norm p) (nodes s)))
  | None => (Some no_such_file, s)
  end.

Definition rmdir (s : Server) (p : string) : option error * Server :=
  match nodes s !! norm p with
  | Some a =>
      if S_ISDIR (st_mode a) && bool_decide (children (nodes s) (norm p) = [])
      then (None, with_nodes s (base.delete (norm p) (nodes s)))
      else (Some failure, s)
  | None => (Some no_such_file, s)
  end.

Definition platform (local_files : list string) : Platform Server := {|
  unicode := ascii_only;
  ctime t := "mtime " +:+ pretty t;
  recursion_limit := 1000;
  expanduser_resolve p := as_posix p;
  path_exists p := bool_decide (as_posix p ∈ local_files);
  path_is_file p := bool_decide (as_posix p ∈ local_files);
  write_csv _ _ := None;
  tcp_connect s h _ :=
    if h == host s then None else Some (IOError "[Errno -2] Name or service not known");
  ssh_connect s _ _ u p :=
    if (u == username s) && (p == password s) then None
    else Some (AuthenticationException "Authentication failed.");
  open_sftp _ _ := None;
  srv_stat s _ p := stat s p;
  srv_listdir s _ p := listdir s p;
  srv_put s _ _ r _ := put s r;
  srv_mkdir s _ p := mkdir s p;
  srv_remove s _ p := remove s p;
  srv_rmdir s _ p := rmdir s p;
|}.

(** A district bucket: [/home] holds two files and the folder [reports],
    which holds one file. *)
Definition bucket : Server :=
  MkServer "sftp.example.org" "district" "secret"
    (list_to_map
       [("/", Attrs dir_mode (Some 0%Z));
        ("/home", Attrs dir_mode (Some 10%Z));
        ("/home/b.txt", Attrs file_mode (Some 20%Z));
        ("/home/a.csv", Attrs file_mode (Some 30%Z));
        ("/home/reports", Attrs dir_mode (Some 40%Z));
        ("/home/reports/q1.pdf", Attrs file_mode (Some 50%Z))]).

(** The clock of the machine that runs the program: each reading is one
    second after the one before. *)
Definition wall_clock : nat → Z := λ k, (1000 + Z.of_nat k)%Z.

(** The world in which the operator will type [lines]. *)
Definition world (lines : list string) : World Server :=
  MkWorld lines bucket [] [] 0 wall_clock.

Definition local_files : list string := ["/tmp/roster.csv"].

Definition here : Platform Server := platform local_files.

Definition run {A} (m : M Server A) (lines : list string) : outcome A * World Server :=
  m (world lines).

(** The lines that open a session of the shell on [bucket]. *)
Definition sign_in : list string := ["sftp.example.org"; "district"; "secret"].

Definition connection_dropped : error := SSHException "Server connection dropped: ".

(** The same machine when the connection is lost once the channel is open:
    signing in works as in [platform], every request on the channel
    raises [SSHException]. *)
Definition dropped : Platform Server := {|
  unicode := ascii_only;
  ctime t := "mtime " +:+ pretty t;
  recursion_limit := 1000;
  expanduser_resolve p := as_posix p;
  path_exists p := bool_decide (as_posix p ∈ local_files);
  path_is_file p := bool_decide (as_posix p ∈ local_files);
  write_csv _ _ := None;
  tcp_connect s h _ :=
    if h == host s then None else Some (IOError "[Errno -2] Name or service not known");
  ssh_connect s _ _ u p :=
    if (u == username s) && (p == password s) then None
    else Some (AuthenticationException "Authentication failed.");
  open_sftp _ _ := None;
  srv_stat _ _ _ := inl connection_dropped;
  srv_listdir _ _ _ := inl connection_dropped;
  srv_put s _ _ _ _ := (Some connection_dropped, s);
  srv_mkdir s _ _ := (Some connection_dropped, s);
  srv_remove s _ _ := (Some connection_dropped, s);
  srv_rmdir s _ _ := (Some connection_dropped, s);
|}.


(** [bucket] with the one folder [/new], which is empty. *)
Definition fresh_bucket : Server :=
  with_nodes bucket
    (list_to_map [("/", Attrs dir_mode (Some 0%Z)); ("/new", Attrs dir_mode (Some 0%Z))]).

End Mem.

(** ** Vocabulary of the statements *)

(** A remote directory tree: files and folders by name, the entries of a
    folder in the order in which they are listed. *)
Inductive rtree :=
| RFile (rname : string)
| RDir (rname : string) (entries : list rtree).

Definition rname (t : rtree) : string :=
  match t with RFile n | RDir n _ => n end.

(** The tree text, after the words of the specification: in the listing of a
    directory the last entry is drawn with the connector ["└── "] and every
    other entry with ["├── "]; the name of a directory is followed by ["/"];
    the entries of a directory are drawn with the prefix of the directory
    extended by four spaces when the directory was the last entry of its
    level, and by ["│   "] otherwise. *)
Definition render_entries (render : string → string → rtree → list string)
    : list rtree → list string :=
  fix go (ts : list rtree) : list string :=
    match ts with
    | [] => []
    | [t] => render "└── " "    " t
    | t :: ts' => render "├── " "│   " t ++ go ts'
    end.

Fixpoint render_tree (prefix branch extension : string) (t : rtree) : list string :=
  match t with
  | RFile n => [prefix +:+ branch +:+ n]
  | RDir n entries =>
      (prefix +:+ branch +:+ n +:+ "/")
      :: render_entries (render_tree (prefix +:+ extension)) entries
  end.

(** [f"{path.rstrip('/')}/{name}"] *)
Definition child (path name : string) : string :=
  Str.rstrip_slash path +:+ "/" +:+ name.

(** The paths of a tree under the directory [path], each directory before its
    entries, the entries in their order. *)
Fixpoint visits (path : string) (t : rtree) : list string :=
  let full := child path (rname t) in
  full :: match t with
          | RFile _ => []
          | RDir _ entries => List.flat_map (visits full) entries
          end.


Section Vocabulary.
Context {Srv : Type} `{!Platform Srv}.

(** The session can be established from [w]: the three statements of
    [sftp_connection] before [yield] succeed. *)
Definition connects (w : World Srv) (host : string) (port : Z)
    (username password : string) : Prop :=
  tcp_connect (remote w) host port = None ∧
  ssh_connect (remote w) host port username password = None ∧
  open_sftp (remote w) (MkLogin host port username) = None.

(** The client that [sftp_connection] yields when it is entered in [w]. *)
Definition yielded (w : World Srv) (host : string) (port : Z) (username : string)
    : SFTPClient :=
  MkSFTPClient (S (next_id w)) (MkTransport (next_id w) host port) username.

(** The world at [yield]: the transport and the channel are open. *)
Definition entered (w : World Srv) : World Srv :=
  MkWorld (stdin w) (remote w) (trace w)
    (HChannel (S (next_id w)) (next_id w) :: HTransport (next_id w) :: handles w)
    (S (S (next_id w))) (clock w).

(** The handles of a world were all made before [next_id]. *)
Definition fresh (w : World Srv) : Prop :=
  Forall (λ h, match h with
               | HTransport i => (i < next_id w)%nat
               | HChannel i t => (i < next_id w)%nat ∧ (t < next_id w)%nat
               end) (handles w).

(** The lines printed in a trace. *)
Definition prints (tr : list event) : list string :=
  omap (λ e, match e with EvPrint l => Some l | _ => None end) tr.

(** The paths of the [stat] requests in a trace. *)
Definition stats (tr : list event) : list string :=
  omap (λ e, match e with EvStat p => Some p | _ => None end) tr.

(** The remote directory [path] as the tree printer reads it, down to
    [depth] levels: every directory is listed, its names are taken in the
    order of [sorted], and every name is looked up with [stat].  [None]
    when a request fails or the directories nest deeper than [depth]. *)
Fixpoint snapshot (depth : nat) (s : Srv) (who : Login) (path : string)
    : option (list rtree) :=
  match depth with
  | O => None
  | S depth' =>
      match srv_listdir s who path with
      | inl _ => None
      | inr names =>
          mapM (λ n,
                  match srv_stat s who (child path n) with
                  | inl _ => None
                  | inr attrs =>
                      if S_ISDIR (st_mode attrs)
                      then RDir n <$> snapshot depth' s who (child path n)
                      else Some (RFile n)
                  end) (sorted names)
      end
  end.

(** What one entry of a snapshot says about the remote store. *)
Definition reads_as (depth : nat) (s : Srv) (who : Login) (path : string)
    (n : string) (t : rtree) : Prop :=
  match srv_stat s who (child path n) with
  | inl _ => False
  | inr attrs =>
      if S_ISDIR (st_mode attrs)
      then ∃ entries, snapshot depth s who (child path n) = Some entries ∧
                      t = RDir n entries
      else t = RFile n
  end.

(** The (name, time) pairs that [view_contents] makes of names with the
    modification times [l], at a moment when the readings of the clock to
    come are [clock]: the text of the modification time, and for an entry
    that has none the text of the next reading of the clock. *)
Fixpoint stamped (clock : nat → Z) (l : list (string * option Z))
    : list (string * string) :=
  match l with
  | [] => []
  | (n, Some t) :: l' => (n, ctime t) :: stamped clock l'
  | (n, None) :: l' => (n, ctime (clock 0%nat)) :: stamped (λ k, clock (S k)) l'
  end.

(** A computation only adds to the trace and only consumes standard input. *)
Definition steady {A} (m : M Srv A) : Prop :=
  ∀ w, (∃ added, trace (m w).2 = trace w ++ added) ∧
       (∃ used, stdin w = used ++ stdin (m w).2).

End Vocabulary.

(** The account of [Mem.bucket] and the tree under its [/home]. *)
Definition district : Login := MkLogin "sftp.example.org" 22 "district".

Definition home_tree : list rtree :=
  [RFile "a.csv"; RFile "b.txt"; RDir "reports" [RFile "q1.pdf"]].

(** ** Vocabulary of the further properties *)

Section FurtherVocabulary.
Context {Srv : Type} `{!Platform Srv}.

(** The world [w] with other lines waiting on standard input. *)
Definition with_stdin (w : World Srv) (lines : list string) : World Srv :=
  MkWorld lines (remote w) (trace w) (handles w) (next_id w) (clock w).

(** A computation that leaves by [sys.exit] does so with status 0 or 1. *)
Definition exits01 {A} (m : M Srv A) : Prop :=
  ∀ w c, (m w).1 = SysExit c → c = 0%Z ∨ c = 1%Z.

(** The requests of a trace that change the remote store. *)
Definition mutations (tr : list event) : list event := List.filter is_mutation tr.

(** A computation sends at most [n] requests that change the remote store,
    and leaves the store as it is when it sends none. *)
Definition budget {A} (n : nat) (m : M Srv A) : Prop :=
  ∀ w, ∃ added,
    trace (m w).2 = trace w ++ added ∧
    (length (mutations added) ≤ n)%nat ∧
    (mutations added = [] → remote (m w).2 = remote w).

(** How [main] can end: [break], an uncaught exception, or [sys.exit] with
    status 0 or 1. *)
Definition ends_well (o : outcome (option unit)) : Prop :=
  o = Ok (Some tt) ∨ (∃ e, o = Raise e) ∨ o = SysExit 0 ∨ o = SysExit 1.

End FurtherVocabulary.

(** * Properties *)

Section Session.
Context {Srv : Type} `{!Platform Srv}.

Lemma sftp_connection_yields {A} (body : SFTPClient → M Srv A) w host port username password :
  connects w host port username password →
  sftp_connection host port username password body w =
    try_finally (body (yielded w host port username))
      (sftp_close (yielded w host port username) ;;
       transport_close (c_transport (yielded w host port username))) (entered w).
Proof.
  intros (Htcp & Hssh & Hsftp).
  unfold sftp_connection, bind, new_transport, transport_connect, from_transport.
  rewrite Htcp. cbn. rewrite Hssh. cbn. rewrite Hsftp. reflexivity.
Qed.

(** Closing the channel and the transport of the session entered in a
    fresh world leaves the handles that were open before. *)
Lemma close_restores (w : World Srv) (hs : list handle) :
  fresh w →
  List.filter (λ h, match h with
                    | HTransport i => negb (i == next_id w)
                    | HChannel _ i => negb (i == next_id w)
                    end)
    (List.filter (λ h, negb (h == HChannel (S (next_id w)) (next_id w)))
       (hs ++ handles w)) =
  List.filter (λ h, match h with
                    | HTransport i => negb (i == next_id w)
                    | HChannel _ i => negb (i == next_id w)
                    end)
    (List.filter (λ h, negb (h == HChannel (S (next_id w)) (next_id w))) hs)
  ++ handles w.
Proof.
  intros Hf. rewrite !List.filter_app. f_equal.
  unfold fresh in Hf. induction Hf as [|h l Hh _ IH]; [done|].
  cbn. destruct h as [i|i t]; cbn.
  - rewrite bool_decide_eq_false_2 by discriminate. cbn.
    rewrite bool_decide_eq_false_2 by lia. cbn. by rewrite IH.
  - rewrite bool_decide_eq_false_2 by (intros [= ? ?]; lia). cbn.
    rewrite bool_decide_eq_false_2 by lia. cbn. by rewrite IH.
Qed.

(** Once the session has been yielded, the channel and the transport it
    opened are closed when the scope is left, however the body ends. *)
Lemma sftp_connection_releases_after_yield {A} (body : SFTPClient → M Srv A)
    w host port username password :
  connects w host port username password →
  let r := sftp_connection host port username password body w in
  (HTransport (next_id w) ∉ handles (r.2)) ∧
  (HChannel (S (next_id w)) (next_id w) ∉ handles (r.2)).
Proof.
  intros Hc r. subst r. rewrite sftp_connection_yields by done.
  cbn. unfold try_finally.
  destruct (body _ _) as [o w2]. cbn.
  split; intros Hin%list_elem_of_In%filter_In; destruct Hin as [_ Hin];
    by rewrite bool_decide_eq_true_2 in Hin.
Qed.

(** A body that leaves the handles as it found them, run in a fresh world:
    the scope ends with the handles it started with. *)
Lemma sftp_connection_restores_handles {A} (body : SFTPClient → M Srv A)
    w host port username password :
  connects w host port username password →
  fresh w →
  handles (body (yielded w host port username) (entered w)).2 = handles (entered w) →
  handles (sftp_connection host port username password body w).2 = handles w.
Proof.
  intros Hc Hf Hb. rewrite sftp_connection_yields by done.
  cbv zeta. unfold try_finally.
  destruct (body _ _) as [o w2].
  unfold bind, sftp_close, transport_close, set_handles, yielded.
  cbn [fst snd handles c_id c_transport t_id] in *. rewrite Hb.
  change (handles (entered w)) with
    ([HChannel (S (next_id w)) (next_id w); HTransport (next_id w)] ++ handles w).
  rewrite (close_restores w _ Hf). cbn.
  rewrite bool_decide_eq_true_2 by done.
  rewrite bool_decide_eq_false_2 by done. cbn.
  by rewrite bool_decide_eq_true_2.
Qed.

(** When authentication fails the exception leaves [sftp_connection] before
    its [try] statement is reached: the transport stays open. *)
Lemma sftp_connection_connect_failure {A} (body : SFTPClient → M Srv A)
    w host port username password e :
  tcp_connect (remote w) host port = None →
  ssh_connect (remote w) host port username password = Some e →
  let r := sftp_connection host port username password body w in
  r.1 = Raise e ∧ handles r.2 = HTransport (next_id w) :: handles w.
Proof.
  intros Htcp Hssh.
  unfold sftp_connection, bind, new_transport, transport_connect.
  rewrite Htcp. cbn. by rewrite Hssh.
Qed.

(** The two ways [sftp_connection] can go: the session is established and
    the body runs at [yield], or one of the statements before [yield]
    raises, and then nothing was sent, printed or read. *)
Lemma sftp_connection_cases {A} (body : SFTPClient → M Srv A)
    w host port username password :
  (connects w host port username password ∧
   sftp_connection host port username password body w =
     try_finally (body (yielded w host port username))
       (sftp_close (yielded w host port username) ;;
        transport_close (c_transport (yielded w host port username))) (entered w))
  ∨ (∃ e w', sftp_connection host port username password body w = (Raise e, w') ∧
             trace w' = trace w ∧ remote w' = remote w ∧ stdin w' = stdin w).
Proof.
  destruct (tcp_connect (remote w) host port) as [e|] eqn:Htcp;
    [right|destruct (ssh_connect (remote w) host port username password) as [e|] eqn:Hssh;
      [right|destruct (open_sftp (remote w) (MkLogin host port username)) as [e|] eqn:Hsftp;
        [right|left]]].
  4: { split; [done|]. by apply sftp_connection_yields. }
  all: unfold sftp_connection, bind, new_transport, transport_connect, from_transport.
  all: rewrite Htcp; cbn; try rewrite Hssh; cbn; try rewrite Hsftp; cbn.
  all: by eexists _, _.
Qed.

(** Leaving the scope changes the handles only. *)
Lemma try_finally_close {A} (m : M Srv A) (c : SFTPClient) w :
  let r := try_finally m (sftp_close c ;; transport_close (c_transport c)) w in
  r.1 = (m w).1 ∧ trace r.2 = trace (m w).2 ∧ remote r.2 = remote (m w).2 ∧
  stdin r.2 = stdin (m w).2.
Proof. cbn. unfold try_finally. by destruct (m w) as [o w']. Qed.

End Session.

(** ** Deletion *)

Section Delete.
Context {Srv : Type} `{!Platform Srv}.

Lemma delete_unknown_type_body (sftp : SFTPClient) remote_str deletion_type w :
  deletion_type ≠ "file" → deletion_type ≠ "folder" →
  delete_body sftp remote_str deletion_type w = (Ok tt, w).
Proof.
  intros H1 H2. unfold delete_body, try_except.
  by rewrite !bool_decide_eq_false_2.
Qed.

(** C10.  With a [deletion_type] other than exactly ["file"] or ["folder"]
    (["File"] and ["Folder"] among them), [delete] sends no request at all,
    so no [remove] and no [rmdir], and leaves the remote store as it was;
    when the session can be established it raises nothing and returns. *)
Theorem delete_unknown_type_does_nothing
    (w : World Srv) remote_dir hostname port username password deletion_type :
  deletion_type ≠ "file" →
  deletion_type ≠ "folder" →
  let r := delete remote_dir hostname port username password deletion_type w in
  trace r.2 = trace w ∧
  remote r.2 = remote w ∧
  (connects w hostname port username password → r.1 = Ok tt).
Proof.
  intros H1 H2 r. subst r. unfold delete.
  pose proof (try_finally_close
    (delete_body (yielded w hostname port username) (as_posix remote_dir) deletion_type)
    (yielded w hostname port username) (entered w)) as (Ho & Ht & Hr & _).
  rewrite delete_unknown_type_body in Ho, Ht, Hr by done.
  destruct (sftp_connection_cases
              (λ sftp, delete_body sftp (as_posix remote_dir) deletion_type)
              w hostname port username password) as [[Hc Heq]|(e & w' & Heq & Ht' & Hr' & _)].
  - by rewrite Heq, Ho, Ht, Hr.
  - split_and!; [by rewrite Heq|by rewrite Heq|].
    intros Hc. by rewrite sftp_connection_yields, Ho.
Qed.

Lemma delete_body_absent (sftp : SFTPClient) remote_str (w : World Srv) e :
  srv_stat (remote w) (login sftp) remote_str = inl e →
  is_IOError e = true →
  let r := delete_body sftp remote_str "file" w in
  r.1 = Raise (FileNotFoundError (remote_str +:+ " not found!")) ∧
  remote r.2 = remote w ∧
  trace r.2 = trace w ++ [EvStat remote_str;
                          EvLog ERROR "Remote file not found: {remote_str}" [remote_str]].
Proof.
  intros Hs He.
  unfold delete_body. rewrite !(bool_decide_eq_true_2 ("file" = "file")) by done.
  unfold try_except, bind, sftp_stat, reading, bind, emit, log, emit, raise.
  cbn. rewrite Hs, He. cbn. by rewrite <- app_assoc.
Qed.

Lemma delete_body_directory (sftp : SFTPClient) remote_str (w : World Srv) attrs :
  srv_stat (remote w) (login sftp) remote_str = inr attrs →
  S_ISDIR (st_mode attrs) = true →
  let r := delete_body sftp remote_str "file" w in
  r.1 = Raise (IsADirectoryError (remote_str +:+ " is a directory!")) ∧
  remote r.2 = remote w ∧
  trace r.2 = trace w ++ [EvStat remote_str;
                          EvLog ERROR "Remote path is a directory: {remote_str}" [remote_str]].
Proof.
  intros Hs Hd.
  unfold delete_body. rewrite !(bool_decide_eq_true_2 ("file" = "file")) by done.
  unfold try_except, bind, sftp_stat, reading, bind, emit, log, emit, raise.
  cbn. rewrite Hs. cbn. rewrite Hd. cbn. by rewrite <- app_assoc.
Qed.

Lemma delete_body_file (sftp : SFTPClient) remote_str (w : World Srv) attrs :
  srv_stat (remote w) (login sftp) remote_str = inr attrs →
  S_ISDIR (st_mode attrs) = false →
  let r := delete_body sftp remote_str "file" w in
  let removal := srv_remove (remote w) (login sftp) remote_str in
  r.1 = match removal.1 with None => Ok tt | Some e => Raise e end ∧
  remote r.2 = removal.2 ∧
  trace r.2 = trace w ++ [EvStat remote_str; EvRemove remote_str] ++
    match removal.1 with
    | None => [EvLog INFO "File '{remote_str}' deleted successfully." [remote_str]]
    | Some e => if is_SSHException e
                then [EvLog ERROR "sFTP error: {e}" [str_error e]] else []
    end.
Proof.
  intros Hs Hd.
  unfold delete_body. rewrite !(bool_decide_eq_true_2 ("file" = "file")) by done.
  unfold try_except, bind, sftp_stat, sftp_remove, reading, writing,
    bind, emit, log, emit, raise, ret.
  cbn. rewrite Hs. cbn. rewrite Hd. cbn.
  destruct (srv_remove _ _ _) as [[e|] s']; cbn.
  - destruct (is_SSHException e); cbn; by rewrite <- ?app_assoc.
  - by rewrite <- !app_assoc.
Qed.

(** C4.  [delete] with [deletion_type = "file"], once the session is
    established, first sends [stat] for the target.  When [stat] fails with
    an [IOError] (the target is absent) it raises [FileNotFoundError], and
    when the target is a directory it raises [IsADirectoryError]; in both
    cases nothing else is sent and the remote store is unchanged.
    Otherwise it sends [remove] for the target, and the remote store is
    the one that request leaves. *)
Theorem delete_file_checks_target
    (w : World Srv) remote_dir hostname port username password :
  connects w hostname port username password →
  let remote_str := as_posix remote_dir in
  let sftp := yielded w hostname port username in
  let r := delete remote_dir hostname port username password "file" w in
  (∀ e, srv_stat (remote w) (login sftp) remote_str = inl e → is_IOError e = true →
     r.1 = Raise (FileNotFoundError (remote_str +:+ " not found!")) ∧
     remote r.2 = remote w ∧
     trace r.2 = trace w ++
       [EvStat remote_str;
        EvLog ERROR "Remote file not found: {remote_str}" [remote_str]]) ∧
  (∀ attrs, srv_stat (remote w) (login sftp) remote_str = inr attrs →
     S_ISDIR (st_mode attrs) = true →
     r.1 = Raise (IsADirectoryError (remote_str +:+ " is a directory!")) ∧
     remote r.2 = remote w ∧
     trace r.2 = trace w ++
       [EvStat remote_str;
        EvLog ERROR "Remote path is a directory: {remote_str}" [remote_str]]) ∧
  (∀ attrs, srv_stat (remote w) (login sftp) remote_str = inr attrs →
     S_ISDIR (st_mode attrs) = false →
     let removal := srv_remove (remote w) (login sftp) remote_str in
     r.1 = match removal.1 with None => Ok tt | Some e => Raise e end ∧
     remote r.2 = removal.2 ∧
     trace r.2 = trace w ++ [EvStat remote_str; EvRemove remote_str] ++
       match removal.1 with
       | None => [EvLog INFO "File '{remote_str}' deleted successfully." [remote_str]]
       | Some e => if is_SSHException e
                   then [EvLog ERROR "sFTP error: {e}" [str_error e]] else []
       end).
Proof.
  intros Hc remote_str sftp r. subst r. unfold delete.
  rewrite sftp_connection_yields by done.
  pose proof (try_finally_close (delete_body sftp remote_str "file") sftp (entered w))
    as (Ho & Ht & Hr & _).
  fold remote_str sftp. rewrite Ho, Ht, Hr.
  split_and!.
  - intros e Hs He. by apply (delete_body_absent sftp remote_str (entered w) e).
  - intros a Hs Hd. by apply (delete_body_directory sftp remote_str (entered w) a).
  - intros a Hs Hd. by apply (delete_body_file sftp remote_str (entered w) a).
Qed.

End Delete.

(** ** Paths *)

Section Paths.

Lemma split_slash_plain (s : string) :
  Str.has_slash s = false → Str.split_slash s = [s].
Proof.
  induction s as [|c s IH]; [done|]. cbn.
  destruct (Str.is_slash c); [done|]. cbn. intros Hs. by rewrite IH.
Qed.

Lemma split_slash_components (s : string) :
  Forall (λ x, Str.has_slash x = false) (Str.split_slash s).
Proof.
  induction s as [|c s IH]; cbn; [by repeat constructor|].
  destruct (Str.is_slash c) eqn:Hc; [by constructor|].
  destruct (Str.split_slash s) as [|h t]; [by repeat constructor; cbn; rewrite Hc|].
  inversion_clear IH. constructor; [|done]. cbn. by rewrite Hc.
Qed.

(** The components a parsed path keeps are plain names. *)
Lemma posix_path_parts (s : string) :
  Forall (λ x, kept x = true ∧ Str.has_slash x = false) (parts (posix_path s)).
Proof.
  unfold posix_path. destruct (splitroot s) as [r rel]. cbn.
  apply Forall_forall. intros x [Hin Hk]%list_elem_of_In%filter_In. split; [done|].
  pose proof (split_slash_components rel) as Hf.
  rewrite Forall_forall in Hf. by apply Hf, list_elem_of_In.
Qed.

Lemma last_Forall {A} (Q : A → Prop) (l : list A) (d : A) :
  Forall Q l → l ≠ [] → Q (List.last l d).
Proof.
  induction 1 as [|x l Hx Hl IH]; [done|]. intros _.
  destruct l as [|y l']; [done|]. by apply IH.
Qed.

Lemma name_plain (p : PurePosixPath) :
  Forall (λ x, kept x = true ∧ Str.has_slash x = false) (parts p) →
  name p ≠ "" →
  kept (name p) = true ∧ Str.has_slash (name p) = false.
Proof.
  unfold name. intros Hf Hn.
  apply (last_Forall (λ x, kept x = true ∧ Str.has_slash x = false)); [done|].
  intros Hp. by rewrite Hp in Hn.
Qed.

(** Joining a directory with a plain name appends the name: the result is
    named as the name and lies in the directory. *)
Lemma truediv_plain (d : PurePosixPath) (n : string) :
  kept n = true → Str.has_slash n = false →
  truediv d n = PosixPath (root d) (parts d ++ [n]).
Proof.
  intros Hk Hs. unfold truediv.
  destruct n as [|c n']; [done|].
  assert (Hc : c ≠ "/"%char).
  { intros ->. done. }
  rewrite split_slash_plain by done. cbn [List.filter]. rewrite Hk.
  destruct c as [[] [] [] [] [] [] [] []]; done.
Qed.

Lemma truediv_name_parent (d : PurePosixPath) (n : string) :
  kept n = true → Str.has_slash n = false →
  name (truediv d n) = n ∧ parent (truediv d n) = d.
Proof.
  intros Hk Hs. rewrite truediv_plain by done. unfold name, parent. cbn.
  rewrite List.last_last, List.removelast_last. by destruct d.
Qed.

End Paths.

(** ** Upload *)

Section Upload.
Context {Srv : Type} `{!Platform Srv}.

Lemma upload_body_run (sftp : SFTPClient) local_path remote_dir remote_str (w : World Srv) :
  let transfer := srv_put (remote w) (login sftp) (as_posix local_path) remote_str true in
  upload_body sftp local_path remote_dir remote_str w =
    (match transfer.1 with None => Ok tt | Some e => Raise e end,
     MkWorld (stdin w) transfer.2
       (trace w ++
          [EvLog INFO "Uploading {local_path} → {remote_dir}"
             [as_posix local_path; as_posix remote_dir];
           EvPut (as_posix local_path) remote_str true] ++
          match transfer.1 with
          | None => [EvLog INFO "Upload completed successfully." []]
          | Some _ => []
          end)
       (handles w) (next_id w) (clock w)).
Proof.
  unfold upload_body, bind, sftp_put, writing, bind, log, emit. cbn.
  destruct (srv_put _ _ _ _ _) as [[e|] s']; cbn; by rewrite <- ?app_assoc.
Qed.

(** What [upload_file] does for a valid local file once the session is
    established: the whole run. *)
Lemma upload_file_run (w : World Srv) local_path remote_dir hostname port username password :
  let lp := posix_path (expanduser_resolve local_path) in
  path_exists lp = true →
  path_is_file lp = true →
  connects w hostname port username password →
  let remote_str := as_posix (truediv remote_dir (name lp)) in
  let transfer :=
    srv_put (remote w) (MkLogin hostname port username) (as_posix lp) remote_str true in
  let r := upload_file local_path remote_dir hostname port username password w in
  r.1 = match transfer.1 with None => Ok tt | Some e => Raise e end ∧
  remote r.2 = transfer.2 ∧
  trace r.2 = trace w ++
    [EvLog INFO "Paths found and valid, starting upload." [];
     EvLog INFO "Uploading {local_path} → {remote_dir}" [as_posix lp; as_posix remote_dir];
     EvPut (as_posix lp) remote_str true] ++
    match transfer.1 with
    | None => [EvLog INFO "Upload completed successfully." []]
    | Some e => if upload_caught e
                then [EvLog ERROR "An exception has occured! Error {e}" [str_error e]]
                else []
    end.
Proof.
  intros lp He Hf Hc remote_str transfer r.
  assert (Hrun : r =
    try_except
      (sftp_connection hostname port username password (λ sftp,
         upload_body sftp lp remote_dir remote_str))
      upload_caught
      (λ e, log ERROR "An exception has occured! Error {e}" [str_error e] ;; raise e)
      (MkWorld (stdin w) (remote w)
         (trace w ++ [EvLog INFO "Paths found and valid, starting upload." []])
         (handles w) (next_id w) (clock w))).
  { subst r. unfold upload_file. fold lp. by rewrite He, Hf. }
  clearbody r. subst r.
  set (w1 := MkWorld _ _ _ _ _ _).
  unfold try_except.
  rewrite (sftp_connection_yields _ w1) by exact Hc.
  pose proof (try_finally_close
    (upload_body (yielded w1 hostname port username) lp remote_dir remote_str)
    (yielded w1 hostname port username) (entered w1)) as (Ho & Ht & Hr & _).
  destruct (try_finally _ _ _) as [o w2]. cbn [fst snd] in *.
  rewrite upload_body_run in Ho, Ht, Hr. cbn [fst snd remote trace entered w1] in Ho, Ht, Hr.
  change (login (yielded w1 hostname port username)) with (MkLogin hostname port username)
    in *.
  fold transfer in Ho, Ht, Hr. subst o.
  destruct (transfer.1) as [e|] eqn:Htr; cbn.
  - destruct (upload_caught e); cbn; rewrite ?Ht, ?Hr; cbn;
      by rewrite <- ?app_assoc, ?app_nil_r.
  - rewrite Ht, Hr. by rewrite <- !app_assoc.
Qed.

(** C5.  For a local path that resolves to an existing regular file,
    [upload_file], once the session is established, changes the remote
    store by exactly one request: a [put] of the resolved local file to
    [remote_dir / local_path.name], with [confirm=True].  The target bears
    the name of the local file and lies directly in [remote_dir]. *)
Theorem upload_file_target
    (w : World Srv) local_path remote_dir hostname port username password :
  let lp := posix_path (expanduser_resolve local_path) in
  path_exists lp = true →
  path_is_file lp = true →
  connects w hostname port username password →
  let remote_file := truediv remote_dir (name lp) in
  let r := upload_file local_path remote_dir hostname port username password w in
  List.filter is_mutation (drop (length (trace w)) (trace r.2)) =
    [EvPut (as_posix lp) (as_posix remote_file) true] ∧
  remote r.2 =
    (srv_put (remote w) (MkLogin hostname port username)
       (as_posix lp) (as_posix remote_file) true).2 ∧
  (name lp ≠ "" → name remote_file = name lp ∧ parent remote_file = remote_dir).
Proof.
  intros lp He Hf Hc remote_file r.
  destruct (upload_file_run w local_path remote_dir hostname port username password
              He Hf Hc) as (Ho & Hr & Ht).
  fold lp remote_file r in Ho, Hr, Ht.
  split_and!.
  - rewrite Ht, drop_app_length.
    destruct (fst (srv_put _ _ _ _ _)) as [e|]; [destruct (upload_caught e)|]; done.
  - done.
  - intros Hn.
    destruct (name_plain lp (posix_path_parts _) Hn) as [Hk Hs].
    by apply truediv_name_parent.
Qed.

End Upload.

(** ** Folder creation, and which operations let failures through *)

Section Failures.
Context {Srv : Type} `{!Platform Srv}.

Lemma create_dir_body_failure (sftp : SFTPClient) remote_dir hostname (w : World Srv) e s' :
  srv_mkdir (remote w) (login sftp) (as_posix remote_dir) = (Some e, s') →
  create_dir_body sftp remote_dir (as_posix remote_dir) hostname w =
    (Ok tt, MkWorld (stdin w) s'
              (trace w ++ [EvMkdir (as_posix remote_dir);
                           EvPrint ("Error creating folder: " +:+ str_error e)])
              (handles w) (next_id w) (clock w)).
Proof.
  intros Hm.
  unfold create_dir_body, try_except, bind, sftp_mkdir, writing, bind, print, emit.
  cbn. rewrite Hm. cbn. by rewrite <- app_assoc.
Qed.

Lemma create_dir_failure (w : World Srv) remote_dir hostname port username password e s' :
  connects w hostname port username password →
  srv_mkdir (remote w) (MkLogin hostname port username) (as_posix remote_dir) = (Some e, s') →
  let r := create_dir remote_dir hostname port username password w in
  r.1 = Ok tt ∧ remote r.2 = s' ∧ stdin r.2 = stdin w ∧
  trace r.2 = trace w ++ [EvMkdir (as_posix remote_dir);
                          EvPrint ("Error creating folder: " +:+ str_error e)].
Proof.
  intros Hc Hm r. subst r. unfold create_dir.
  rewrite sftp_connection_yields by done.
  pose proof (try_finally_close
    (create_dir_body (yielded w hostname port username) remote_dir
       (as_posix remote_dir) hostname)
    (yielded w hostname port username) (entered w)) as (Ho & Ht & Hr & Hi).
  rewrite (create_dir_body_failure _ _ _ _ e s') in Ho, Ht, Hr, Hi by exact Hm.
  by rewrite Ho, Ht, Hr, Hi.
Qed.

Lemma delete_folder_failure (w : World Srv) remote_dir hostname port username password e s' :
  connects w hostname port username password →
  srv_rmdir (remote w) (MkLogin hostname port username) (as_posix remote_dir) = (Some e, s') →
  (delete remote_dir hostname port username password "folder" w).1 = Raise e.
Proof.
  intros Hc Hm. unfold delete.
  rewrite sftp_connection_yields by done.
  pose proof (try_finally_close
    (delete_body (yielded w hostname port username) (as_posix remote_dir) "folder")
    (yielded w hostname port username) (entered w)) as (Ho & _).
  rewrite Ho. unfold delete_body.
  rewrite (bool_decide_eq_false_2 ("folder" = "file")) by done.
  rewrite (bool_decide_eq_true_2 ("folder" = "folder")) by done.
  unfold try_except, bind, sftp_rmdir, writing, bind, log, emit, raise. cbn.
  change (login (yielded w hostname port username)) with (MkLogin hostname port username).
  rewrite Hm. cbn. by destruct (is_SSHException e).
Qed.

Lemma view_contents_listdir_failure
    (w : World Srv) remote_dir hostname port username password e :
  connects w hostname port username password →
  srv_listdir (remote w) (MkLogin hostname port username) (as_posix remote_dir) = inl e →
  (view_contents remote_dir hostname port username password w).1 = Raise e.
Proof.
  intros Hc Hl. unfold view_contents.
  rewrite sftp_connection_yields by done.
  pose proof (try_finally_close
    (view_body (yielded w hostname port username) (as_posix remote_dir))
    (yielded w hostname port username) (entered w)) as (Ho & _).
  rewrite Ho. unfold view_body, bind, sftp_listdir, reading, bind, emit. cbn.
  change (login (yielded w hostname port username)) with (MkLogin hostname port username).
  by rewrite Hl.
Qed.

End Failures.

(** ** Prompts *)

Section Strip.

Lemma rstrip_idemp (s : string) : Str.rstrip (Str.rstrip s) = Str.rstrip s.
Proof.
  induction s as [|a s IH]; [done|].
  cbn [Str.rstrip]. cbv zeta.
  destruct (Str.is_space (String a (Str.rstrip s))) eqn:Hsp; [done|].
  cbn [Str.rstrip]. cbv zeta. by rewrite IH, Hsp.
Qed.

(** What [rstrip] returns is the beginning of its argument. *)
Lemma rstrip_prefix (s : string) : ∃ u, s = Str.rstrip s +:+ u.
Proof.
  induction s as [|a s [u IH]]; [by exists ""|].
  cbn [Str.rstrip]. cbv zeta.
  destruct (Str.is_space _).
  - by eexists.
  - exists u. change (String a s = String a (Str.rstrip s +:+ u)). by f_equal.
Qed.

Lemma leads_space_app (s u : string) :
  Str.leads_space (s +:+ u) = false → s = "" ∨ Str.leads_space s = false.
Proof.
  destruct s as [|a [|b [|c s]]]; [by left|intros H; right..].
  - change (Str.leads_space (String a u) = false) in H. cbn in *.
    destruct (Str.isspace a); cbn in *; done.
  - change (Str.leads_space (String a (String b u)) = false) in H. cbn in *.
    destruct (Str.isspace a); cbn in *; [done|].
    destruct (Str.isspace2 a b); cbn in *; done.
  - exact H.
Qed.

Lemma lstrip_fixed (s : string) : Str.leads_space s = false → Str.lstrip s = s.
Proof.
  destruct s as [|a [|b [|c s]]]; [done|..]; cbn.
  - by destruct (Str.isspace a).
  - destruct (Str.isspace a); [done|]. cbn. by destruct (Str.isspace2 a b).
  - destruct (Str.isspace a); [done|]. cbn. destruct (Str.isspace2 a b); [done|].
    cbn. by destruct (Str.isspace3 a b c).
Qed.

Lemma lstrip_leads (n : nat) (s : string) :
  (String.length s ≤ n)%nat → Str.leads_space (Str.lstrip s) = false.
Proof.
  revert s. induction n as [|n IH]; intros s Hn.
  { destruct s; [done|]. cbn in Hn. lia. }
  destruct s as [|a [|b [|c s]]]; [done|..]; cbn in *.
  - by destruct (Str.isspace a) eqn:Ha; cbn; rewrite ?Ha.
  - destruct (Str.isspace a) eqn:Ha.
    + apply (IH (String b "")). cbn. lia.
    + destruct (Str.isspace2 a b) eqn:Hab; [done|]. cbn. by rewrite Ha, Hab.
  - destruct (Str.isspace a) eqn:Ha.
    + apply (IH (String b (String c s))). cbn. lia.
    + destruct (Str.isspace2 a b) eqn:Hab.
      * apply (IH (String c s)). cbn. lia.
      * destruct (Str.isspace3 a b c) eqn:Habc.
        -- apply IH. lia.
        -- cbn. by rewrite Ha, Hab, Habc.
Qed.

Lemma lstrip_rstrip_lstrip (s : string) :
  Str.lstrip (Str.rstrip (Str.lstrip s)) = Str.rstrip (Str.lstrip s).
Proof.
  pose proof (lstrip_leads (String.length s) s (le_n _)) as Hl.
  destruct (rstrip_prefix (Str.lstrip s)) as [u Hu].
  rewrite Hu in Hl. apply leads_space_app in Hl as [->|Hl]; [done|].
  by apply lstrip_fixed.
Qed.

(** [s.strip().strip() == s.strip()] *)
Lemma strip_idemp (s : string) : Str.strip (Str.strip s) = Str.strip s.
Proof.
  unfold Str.strip. by rewrite lstrip_rstrip_lstrip, rstrip_idemp.
Qed.

End Strip.

Section Ask.
Context {Srv : Type} `{!Platform Srv}.

(** A line whose stripped, lower-cased text is [exit] ends the process with
    status 0 at any prompt that goes through [ask]. *)
Lemma ask_exit (prompt line : string) (rest : list string) (w : World Srv) :
  stdin w = line :: rest →
  Str.lower (Str.strip line) = "exit" →
  ask prompt w =
    (SysExit 0, MkWorld rest (remote w)
                  (trace w ++ [EvPrompt prompt; EvLog INFO "Goodbye!" []])
                  (handles w) (next_id w) (clock w)).
Proof.
  intros Hi He. unfold ask, bind, input, log, emit, sys_exit.
  rewrite Hi. cbn. rewrite He. rewrite bool_decide_eq_true_2 by done.
  cbn. by rewrite <- app_assoc.
Qed.

Lemma ask_answer (prompt line : string) (rest : list string) (w : World Srv) :
  stdin w = line :: rest →
  Str.lower (Str.strip line) ≠ "exit" →
  ask prompt w =
    (Ok (Str.strip line),
     MkWorld rest (remote w) (trace w ++ [EvPrompt prompt]) (handles w) (next_id w) (clock w)).
Proof.
  intros Hi He. unfold ask, bind, input, ret.
  rewrite Hi. cbn. by rewrite bool_decide_eq_false_2.
Qed.

Lemma ask_eof (prompt : string) (w : World Srv) :
  stdin w = [] →
  ask prompt w =
    (Raise EOFError,
     MkWorld [] (remote w) (trace w ++ [EvPrompt prompt]) (handles w) (next_id w) (clock w)).
Proof. intros Hi. unfold ask, bind, input. by rewrite Hi. Qed.

End Ask.

(** ** Every part of the program only adds events and only consumes input *)

Section Steady.
Context {Srv : Type} `{!Platform Srv}.

Lemma steady_ret {A} (a : A) : steady (ret (Srv := Srv) a).
Proof. intros w. split; [by exists []; rewrite app_nil_r|by exists []]. Qed.

Lemma steady_raise {A} e : steady (raise (Srv := Srv) (A := A) e).
Proof. intros w. split; [by exists []; rewrite app_nil_r|by exists []]. Qed.

Lemma steady_sys_exit {A} c : steady (sys_exit (Srv := Srv) (A := A) c).
Proof. intros w. split; [by exists []; rewrite app_nil_r|by exists []]. Qed.

Lemma steady_emit e : steady (emit (Srv := Srv) e).
Proof. intros w. split; [by exists [e]|by exists []]. Qed.

Lemma steady_input prompt : steady (input (Srv := Srv) prompt).
Proof.
  intros w. unfold input. destruct (stdin w) as [|l ls] eqn:Hi; cbn.
  - split; [by eexists|by exists []].
  - split; [by eexists|by exists [l]].
Qed.

Lemma steady_bind {A B} (m : M Srv A) (k : A → M Srv B) :
  steady m → (∀ a, steady (k a)) → steady (bind m k).
Proof.
  intros Hm Hk w. unfold bind.
  destruct (Hm w) as [[a1 Ht1] [u1 Hi1]].
  destruct (m w) as [[a|e|c] w1]; cbn in *; [|by eauto..].
  destruct (Hk a w1) as [[a2 Ht2] [u2 Hi2]].
  split.
  - exists (a1 ++ a2). by rewrite Ht2, Ht1, app_assoc.
  - exists (u1 ++ u2). by rewrite Hi1, Hi2, app_assoc.
Qed.

Lemma steady_try_except {A} (m : M Srv A) classes handler :
  steady m → (∀ e, steady (handler e)) → steady (try_except m classes handler).
Proof.
  intros Hm Hh w. unfold try_except.
  destruct (Hm w) as [[a1 Ht1] [u1 Hi1]].
  destruct (m w) as [[a|e|c] w1]; cbn in *; [by eauto| |by eauto].
  destruct (classes e); [|by eauto].
  destruct (Hh e w1) as [[a2 Ht2] [u2 Hi2]].
  split.
  - exists (a1 ++ a2). by rewrite Ht2, Ht1, app_assoc.
  - exists (u1 ++ u2). by rewrite Hi1, Hi2, app_assoc.
Qed.

Lemma steady_try_finally {A} (m : M Srv A) fin :
  steady m → steady fin → steady (try_finally m fin).
Proof.
  intros Hm Hf w. unfold try_finally.
  destruct (Hm w) as [[a1 Ht1] [u1 Hi1]].
  destruct (m w) as [o w1]; cbn in *.
  destruct (Hf w1) as [[a2 Ht2] [u2 Hi2]].
  destruct (fin w1) as [[[]|e|c] w2]; cbn in *.
  all: split; [exists (a1 ++ a2); by rewrite Ht2, Ht1, app_assoc
              |exists (u1 ++ u2); by rewrite Hi1, Hi2, app_assoc].
Qed.

Lemma steady_for_each {A} (l : list A) (body : A → M Srv unit) :
  (∀ a, steady (body a)) → steady (for_each l body).
Proof.
  intros Hb. induction l as [|x l IH]; cbn; [apply steady_ret|].
  apply steady_bind; [done|]. by intros.
Qed.

Lemma steady_set_handles f : steady (set_handles (Srv := Srv) f).
Proof. intros w. split; [by exists []; rewrite app_nil_r|by exists []]. Qed.

Lemma steady_new_transport host port : steady (new_transport host port).
Proof.
  intros w. unfold new_transport. destruct (tcp_connect _ _ _); cbn.
  all: split; [by exists []; rewrite app_nil_r|by exists []].
Qed.

Lemma steady_transport_connect t u p : steady (transport_connect t u p).
Proof.
  intros w. unfold transport_connect. destruct (ssh_connect _ _ _ _ _); cbn.
  all: split; [by exists []; rewrite app_nil_r|by exists []].
Qed.

Lemma steady_from_transport t u : steady (from_transport t u).
Proof.
  intros w. unfold from_transport. destruct (open_sftp _ _); cbn.
  all: split; [by exists []; rewrite app_nil_r|by exists []].
Qed.

Lemma steady_reading {A} e (f : Srv → error + A) : steady (reading e f).
Proof.
  intros w. unfold reading, bind, emit. cbn. destruct (f _); cbn.
  all: split; [by eexists|by exists []].
Qed.

Lemma steady_writing e (f : Srv → option error * Srv) : steady (writing e f).
Proof.
  intros w. unfold writing, bind, emit. cbn. destruct (f _) as [[?|] ?]; cbn.
  all: split; [by eexists|by exists []].
Qed.

Lemma steady_time_ctime secs : @steady Srv _ (time_ctime secs).
Proof.
  intros w. destruct secs; cbn.
  all: split; [by exists []; rewrite app_nil_r|by exists []].
Qed.

End Steady.

Ltac steady_step :=
  cbv beta zeta;
  lazymatch goal with
  | |- forall _, _ => intro
  | |- steady (bind _ _) => apply steady_bind
  | |- steady (try_except _ _ _) => apply steady_try_except
  | |- steady (try_finally _ _) => apply steady_try_finally
  | |- steady (for_each _ _) => apply steady_for_each
  | |- steady (ret _) => apply steady_ret
  | |- steady (raise _) => apply steady_raise
  | |- steady (sys_exit _) => apply steady_sys_exit
  | |- steady (emit _) => apply steady_emit
  | |- steady (input _) => apply steady_input
  | |- steady (set_handles _) => apply steady_set_handles
  | |- steady (new_transport _ _) => apply steady_new_transport
  | |- steady (transport_connect _ _ _) => apply steady_transport_connect
  | |- steady (from_transport _ _) => apply steady_from_transport
  | |- steady (reading _ _) => apply steady_reading
  | |- steady (writing _ _) => apply steady_writing
  | |- steady (time_ctime _) => apply steady_time_ctime
  | |- steady (match ?x with _ => _ end) => destruct x
  end.

Ltac steady := repeat steady_step.

Section SteadyProgram.
Context {Srv : Type} `{!Platform Srv}.

Lemma steady_ask prompt : @steady Srv _ (ask prompt).
Proof. unfold ask, log. steady. Qed.

Lemma steady_sftp_connection {A} host port u p (body : SFTPClient → M Srv A) :
  (∀ c, steady (body c)) → steady (sftp_connection host port u p body).
Proof. intros Hb. unfold sftp_connection, sftp_close, transport_close. steady. apply Hb. Qed.

Lemma steady_upload_file lp rd h port u p : @steady Srv _ (upload_file lp rd h port u p).
Proof.
  unfold upload_file, log. steady. apply steady_sftp_connection.
  unfold upload_body, sftp_put, log. steady.
Qed.

Lemma steady_create_dir rd h port u p : @steady Srv _ (create_dir rd h port u p).
Proof.
  unfold create_dir. apply steady_sftp_connection.
  unfold create_dir_body, sftp_mkdir, sftp_close, print. steady.
Qed.

Lemma steady_delete rd h port u p dt : @steady Srv _ (delete rd h port u p dt).
Proof.
  unfold delete. apply steady_sftp_connection.
  unfold delete_body, sftp_stat, sftp_remove, sftp_rmdir, log. steady.
Qed.

Lemma steady_view_loop c rs names out : @steady Srv _ (view_loop c rs names out).
Proof.
  revert out. induction names as [|n names IH]; intros out; cbn [view_loop]; [steady|].
  unfold sftp_stat. steady. apply IH.
Qed.

Lemma steady_view_contents rd h port u p : @steady Srv _ (view_contents rd h port u p).
Proof.
  unfold view_contents. apply steady_sftp_connection.
  unfold view_body, sftp_listdir. steady. apply steady_view_loop.
Qed.

Lemma steady_walk depth c path prefix : @steady Srv _ (_walk depth c path prefix).
Proof.
  revert path prefix. induction depth as [|d IH]; intros path prefix; cbn [_walk];
    [steady|].
  unfold sftp_listdir, walk_entry, sftp_stat, print. steady. apply IH.
Qed.

Lemma steady_stfp_formatter h port u p rd : @steady Srv _ (stfp_formatter h port u p rd).
Proof.
  unfold stfp_formatter. apply steady_sftp_connection.
  unfold formatter_body, sftp_close, print. steady. apply steady_walk.
Qed.

Lemma steady_output_csv rows path : @steady Srv _ (output_csv rows path).
Proof. unfold output_csv, log. steady. Qed.

Lemma steady_print_listing files : @steady Srv _ (print_listing files).
Proof. unfold print_listing, print. steady. Qed.

Lemma steady_view mode rd h port u p : @steady Srv _ (view mode rd h port u p).
Proof.
  unfold view, log. steady;
    first [ apply steady_view_contents | apply steady_stfp_formatter
          | apply steady_print_listing | apply steady_ask
          | apply steady_output_csv ].
Qed.

Lemma steady_command choice h port u p : @steady Srv _ (command choice h port u p).
Proof.
  unfold command, log. steady;
    first [ apply steady_ask | apply steady_upload_file | apply steady_create_dir
          | apply steady_delete | apply steady_view ].
Qed.

Lemma steady_restart_logic h u p : @steady Srv _ (restart_logic h u p).
Proof. unfold restart_logic, log. steady; apply steady_ask. Qed.

(** An [ask] that returns has read one line. *)
Lemma ask_consumes prompt (w : World Srv) a w' :
  ask prompt w = (Ok a, w') → ∃ line, stdin w = line :: stdin w'.
Proof.
  unfold ask, bind, input, log, emit, sys_exit, ret.
  destruct (stdin w) as [|l ls]; cbn; [done|].
  destruct (bool_decide _); cbn; [done|]. intros [= _ <-]. by exists l.
Qed.

Lemma iteration_consumes h port u p (w : World Srv) f w' :
  iteration h port u p w = (Ok f, w') → (length (stdin w') < length (stdin w))%nat.
Proof.
  unfold iteration. unfold bind at 1.
  destruct (ask choice_prompt w) as [[a|e|c] w1] eqn:Ha; [|done..].
  apply ask_consumes in Ha as [l Hl]. intros Hk.
  assert (Hs : steady (command (Str.lower (Str.strip a)) h port u p ;;
                       restart_logic h u p)).
  { steady; [apply steady_command|apply steady_restart_logic]. }
  destruct (Hs w1) as [_ [used Hu]]. rewrite Hk in Hu. cbn in Hu.
  rewrite Hl, Hu, length_cons, length_app. lia.
Qed.

(** The iterations allowed to [main_loop] are never used up when there are
    more of them than lines on standard input. *)
Lemma main_loop_fuel fuel h port u p (w : World Srv) :
  (length (stdin w) < fuel)%nat →
  (main_loop fuel h port u p w).1 ≠ Ok None.
Proof.
  revert h u p w. induction fuel as [|fuel IH]; intros h u p w Hlen; [lia|].
  cbn [main_loop]. unfold bind.
  destruct (iteration h port u p w) as [[f|e|c] w1] eqn:Hi; [|done..].
  apply iteration_consumes in Hi.
  destruct f as [h' u' p'|]; [|done]. apply IH. lia.
Qed.

(** [main] ends for every input: with [break], an exception or [sys.exit]. *)
Lemma main_total (w : World Srv) : (main w).1 ≠ Ok None.
Proof.
  unfold main. unfold bind at 1. unfold print, emit. cbn.
  set (w0 := MkWorld _ _ _ _ _ _).
  assert (Hw0 : stdin w0 = stdin w) by done. clearbody w0.
  unfold bind.
  destruct (ask "Host: " w0) as [[a1|e|c] w1] eqn:H1; [|done..].
  destruct (ask "Username: " w1) as [[a2|e|c] w2] eqn:H2; [|done..].
  destruct (ask "Password: " w2) as [[a3|e|c] w3] eqn:H3; [|done..].
  apply (main_loop_fuel (S (length (stdin w3))) (Str.strip a1) 22 a2 (Str.strip a3) w3).
  lia.
Qed.

End SteadyProgram.

(** ** The shell *)

Section Shell.
Context {Srv : Type} `{!Platform Srv}.

(** A command that is none of the four is fatal: one error record, then
    [sys.exit(1)]. *)
Lemma command_invalid_choice choice h port u p (w : World Srv) :
  choice ≠ "upload" → choice ≠ "folder" → choice ≠ "delete" → choice ≠ "view" →
  command choice h port u p w =
    (SysExit 1,
     MkWorld (stdin w) (remote w)
       (trace w ++
          [EvLog ERROR
             "Invalid choice {choice!r}; please enter 'upload', 'delete', 'folder' or 'view'."
             [choice]])
       (handles w) (next_id w) (clock w)).
Proof.
  intros H1 H2 H3 H4. unfold command.
  by rewrite !bool_decide_eq_false_2.
Qed.

(** A view mode that is none of the three is fatal in the same way. *)
Lemma view_invalid_mode view_mode rd h port u p (w : World Srv) :
  view_mode ≠ "list" → view_mode ≠ "tree" → view_mode ≠ "csv" →
  view view_mode rd h port u p w =
    (SysExit 1,
     MkWorld (stdin w) (remote w)
       (trace w ++
          [EvLog ERROR "Invalid view mode—please enter 'list', 'tree', or 'csv'." []])
       (handles w) (next_id w) (clock w)).
Proof.
  intros H1 H2 H3. unfold view.
  by rewrite !bool_decide_eq_false_2.
Qed.

(** The loop body with an unrecognised command: the process exits with
    status 1 and the loop does not go on. *)
Lemma iteration_invalid_choice h port u p (w : World Srv) line rest :
  stdin w = line :: rest →
  let choice := Str.lower (Str.strip line) in
  choice ≠ "exit" →
  choice ≠ "upload" → choice ≠ "folder" → choice ≠ "delete" → choice ≠ "view" →
  iteration h port u p w =
    (SysExit 1,
     MkWorld rest (remote w)
       (trace w ++
          [EvPrompt choice_prompt;
           EvLog ERROR
             "Invalid choice {choice!r}; please enter 'upload', 'delete', 'folder' or 'view'."
             [choice]])
       (handles w) (next_id w) (clock w)).
Proof.
  intros Hi choice He H1 H2 H3 H4. unfold iteration.
  unfold bind at 1. rewrite (ask_answer _ line rest) by done.
  rewrite strip_idemp. fold choice. unfold bind.
  rewrite command_invalid_choice by done. cbn. by rewrite <- app_assoc.
Qed.

(** The loop body with the command [view] and an unrecognised view mode. *)
Lemma iteration_invalid_view_mode h port u p (w : World Srv) l1 l2 l3 rest :
  stdin w = l1 :: l2 :: l3 :: rest →
  Str.lower (Str.strip l1) = "view" →
  Str.lower (Str.strip l2) ≠ "exit" →
  let view_mode := Str.lower (Str.strip l3) in
  view_mode ≠ "exit" → view_mode ≠ "list" → view_mode ≠ "tree" → view_mode ≠ "csv" →
  iteration h port u p w =
    (SysExit 1,
     MkWorld rest (remote w)
       (trace w ++
          [EvPrompt choice_prompt; EvPrompt "Remote directory to list: ";
           EvPrompt view_prompt;
           EvLog ERROR "Invalid view mode—please enter 'list', 'tree', or 'csv'." []])
       (handles w) (next_id w) (clock w)).
Proof.
  intros Hi Hv He2 view_mode He3 H1 H2 H3. unfold iteration.
  unfold bind at 1. rewrite (ask_answer _ l1 (l2 :: l3 :: rest)) by (by rewrite ?Hv).
  rewrite strip_idemp, Hv. unfold bind at 1. unfold command.
  rewrite !bool_decide_eq_false_2 by done. rewrite bool_decide_eq_true_2 by done.
  unfold bind at 1. rewrite (ask_answer _ l2 (l3 :: rest)) by done.
  unfold bind at 1. rewrite (ask_answer _ l3 rest) by done.
  rewrite strip_idemp. fold view_mode.
  rewrite view_invalid_mode by done. cbn. by rewrite <- !app_assoc.
Qed.

(** Whatever is typed, a computation that starts with [ask] first shows
    its prompt. *)
Lemma ask_then_prompts {A} prompt (k : string → M Srv A) (w : World Srv) :
  (∀ a, steady (k a)) →
  ∃ later, trace (bind (ask prompt) k w).2 = trace w ++ EvPrompt prompt :: later.
Proof.
  intros Hk. unfold bind, ask, bind, input, log, emit, sys_exit, ret.
  destruct (stdin w) as [|l ls]; cbn; [by exists []|].
  destruct (bool_decide _); cbn.
  - eexists. by rewrite <- app_assoc.
  - set (w1 := MkWorld _ _ _ _ _ _).
    destruct (Hk (Str.strip l) w1) as [[added Ha] _]. exists added.
    rewrite Ha. subst w1. cbn. by rewrite <- app_assoc.
Qed.

Lemma restart_logic_prompts h u p (w : World Srv) :
  ∃ later, trace (restart_logic h u p w).2 =
             trace w ++ EvPrompt "Continue? (yes/no): " :: later.
Proof.
  unfold restart_logic. apply ask_then_prompts.
  intros a. unfold log. steady; apply steady_ask.
Qed.

(** The loop body with the command [folder] when [mkdir] fails: the error
    is printed and the shell asks whether to continue. *)
Lemma iteration_folder_failure h port u p (w : World Srv) l1 l2 rest e s' :
  stdin w = l1 :: l2 :: rest →
  Str.lower (Str.strip l1) = "folder" →
  Str.lower (Str.strip l2) ≠ "exit" →
  connects w h port u p →
  let remote_str := as_posix (posix_path (Str.strip l2)) in
  srv_mkdir (remote w) (MkLogin h port u) remote_str = (Some e, s') →
  ∃ later,
    trace (iteration h port u p w).2 =
      trace w ++
        [EvPrompt choice_prompt; EvPrompt "New remote directory: ";
         EvMkdir remote_str; EvPrint ("Error creating folder: " +:+ str_error e);
         EvPrompt "Continue? (yes/no): "] ++ later.
Proof.
  intros Hi Hf He Hc remote_str Hm. unfold iteration.
  unfold bind at 1. rewrite (ask_answer _ l1 (l2 :: rest)) by (by rewrite ?Hf).
  rewrite strip_idemp, Hf. unfold bind at 1. unfold command.
  rewrite !bool_decide_eq_false_2 by done. rewrite bool_decide_eq_true_2 by done.
  unfold bind at 1. rewrite (ask_answer _ l2 rest) by done.
  rewrite strip_idemp. unfold try_except.
  set (w2 := MkWorld rest _ _ _ _ _).
  destruct (create_dir_failure w2 (posix_path (Str.strip l2)) h port u p e s' Hc Hm)
    as (Ho & _ & _ & Ht).
  destruct (create_dir _ _ _ _ _ w2) as [o w3]. cbn [fst snd] in *. subst o.
  destruct (restart_logic_prompts h u p w3) as [later Hl].
  exists later. cbn. rewrite Hl, Ht. cbn. by rewrite <- !app_assoc.
Qed.

End Shell.

Section OnlyCreateDirSwallows.
Context {Srv : Type} `{!Platform Srv}.

Lemma delete_file_remove_failure
    (w : World Srv) remote_dir hostname port username password attrs e s' :
  connects w hostname port username password →
  srv_stat (remote w) (MkLogin hostname port username) (as_posix remote_dir) = inr attrs →
  S_ISDIR (st_mode attrs) = false →
  srv_remove (remote w) (MkLogin hostname port username) (as_posix remote_dir) = (Some e, s') →
  (delete remote_dir hostname port username password "file" w).1 = Raise e.
Proof.
  intros Hc Hs Hd Hm. unfold delete.
  rewrite sftp_connection_yields by done.
  pose proof (try_finally_close
    (delete_body (yielded w hostname port username) (as_posix remote_dir) "file")
    (yielded w hostname port username) (entered w)) as (Ho & _).
  rewrite Ho.
  destruct (delete_body_file (yielded w hostname port username) (as_posix remote_dir)
              (entered w) attrs Hs Hd) as (Hr & _).
  rewrite Hr. cbn.
  change (login (yielded w hostname port username)) with (MkLogin hostname port username).
  by rewrite Hm.
Qed.

(** C8.  When the [mkdir] request fails, with whatever exception,
    [create_dir] catches it, prints it for the operator and returns
    normally, and the shell goes on to ask whether to continue.  The other
    three operations let the failure of their request through: [upload_file]
    that of [put], [delete] that of [remove] and of [rmdir], and
    [view_contents] that of [listdir]. *)
Theorem create_dir_alone_swallows_failure
    (w : World Srv) remote_dir hostname port username password :
  connects w hostname port username password →
  let who := MkLogin hostname port username in
  let remote_str := as_posix remote_dir in
  (∀ e s', srv_mkdir (remote w) who remote_str = (Some e, s') →
     let r := create_dir remote_dir hostname port username password w in
     r.1 = Ok tt ∧
     trace r.2 = trace w ++
       [EvMkdir remote_str; EvPrint ("Error creating folder: " +:+ str_error e)]) ∧
  (∀ l1 l2 rest e s',
     stdin w = l1 :: l2 :: rest →
     Str.lower (Str.strip l1) = "folder" →
     Str.lower (Str.strip l2) ≠ "exit" →
     posix_path (Str.strip l2) = remote_dir →
     srv_mkdir (remote w) who remote_str = (Some e, s') →
     ∃ later,
       trace (iteration hostname port username password w).2 =
         trace w ++
           [EvPrompt choice_prompt; EvPrompt "New remote directory: ";
            EvMkdir remote_str; EvPrint ("Error creating folder: " +:+ str_error e);
            EvPrompt "Continue? (yes/no): "] ++ later) ∧
  (∀ local_path e s',
     let lp := posix_path (expanduser_resolve local_path) in
     path_exists lp = true → path_is_file lp = true →
     srv_put (remote w) who (as_posix lp) (as_posix (truediv remote_dir (name lp))) true
       = (Some e, s') →
     (upload_file local_path remote_dir hostname port username password w).1 = Raise e) ∧
  (∀ attrs e s',
     srv_stat (remote w) who remote_str = inr attrs →
     S_ISDIR (st_mode attrs) = false →
     srv_remove (remote w) who remote_str = (Some e, s') →
     (delete remote_dir hostname port username password "file" w).1 = Raise e) ∧
  (∀ e s', srv_rmdir (remote w) who remote_str = (Some e, s') →
     (delete remote_dir hostname port username password "folder" w).1 = Raise e) ∧
  (∀ e, srv_listdir (remote w) who remote_str = inl e →
     (view_contents remote_dir hostname port username password w).1 = Raise e).
Proof.
  intros Hc who remote_str. split_and!.
  - intros e s' Hm.
    by destruct (create_dir_failure w remote_dir hostname port username password e s'
                   Hc Hm) as (? & _ & _ & ?).
  - intros l1 l2 rest e s' Hi Hf He <- Hm.
    by apply (iteration_folder_failure _ _ _ _ w l1 l2 rest e s').
  - intros local_path e s' lp Hex Hf Hp.
    destruct (upload_file_run w local_path remote_dir hostname port username password
                Hex Hf Hc) as (Ho & _).
    fold lp who in Ho. by rewrite Hp in Ho.
  - intros attrs e s' Hs Hd Hm. by eapply delete_file_remove_failure.
  - intros e s' Hm. by eapply delete_folder_failure.
  - intros e Hl. by apply view_contents_listdir_failure.
Qed.

End OnlyCreateDirSwallows.

(** ** Listing *)

Section Listing.
Context {Srv : Type} `{!Platform Srv}.










End Listing.

(** ** The tree printer *)

Section Tree.
Context {Srv : Type} `{!Platform Srv}.

Lemma append_empty_r (s : string) : s +:+ "" = s.
Proof.
  induction s as [|a s IH]; [done|].
  change (String a s +:+ "") with (String a (s +:+ "")). by rewrite IH.
Qed.

Lemma prints_app (a b : list event) : prints (a ++ b) = prints a ++ prints b.
Proof. apply omap_app. Qed.

Lemma stats_app (a b : list event) : stats (a ++ b) = stats a ++ stats b.
Proof. apply omap_app. Qed.

Lemma snapshot_entries depth s who path ts :
  snapshot (S depth) s who path = Some ts →
  ∃ names, srv_listdir s who path = inr names ∧
           Forall2 (reads_as depth s who path) (sorted names) ts.
Proof.
  cbn [snapshot]. destruct (srv_listdir s who path) as [e|names]; [done|].
  intros Hm. exists names. split; [done|].
  apply mapM_Some in Hm. eapply Forall2_impl; [exact Hm|].
  intros n t. unfold reads_as. cbn.
  destruct (srv_stat _ _ _) as [e|a]; [done|].
  destruct (S_ISDIR _); [|by intros [= <-]].
  destruct (snapshot _ _ _ _) as [entries|]; [|done].
  intros [= <-]. by exists entries.
Qed.

(** What the walk of a directory does, stated for one level: the loop over
    the entries from index [k] on, given what the walk of a folder one level
    down does. *)
Lemma walk_entries_snapshot depth (c : SFTPClient) path prefix :
  (∀ path' prefix' (w : World Srv) ts,
     snapshot depth (remote w) (login c) path' = Some ts →
     ∃ w', _walk depth c path' prefix' w = (Ok tt, w') ∧
           remote w' = remote w ∧
           prints (trace w') =
             prints (trace w) ++ render_entries (render_tree prefix') ts ∧
           stats (trace w') = stats (trace w) ++ List.flat_map (visits path') ts) →
  ∀ (s : Srv) (l : list string) (ts : list rtree),
    Forall2 (reads_as depth s (login c) path) l ts →
    ∀ (k len : nat) (w : World Srv),
      remote w = s →
      len = (k + length l)%nat →
      ∃ w', for_each (zip (seq k (length l)) l)
              (λ ie, walk_entry (_walk depth c) c path prefix len ie.1 ie.2) w
            = (Ok tt, w') ∧
            remote w' = s ∧
            prints (trace w') =
              prints (trace w) ++ render_entries (render_tree prefix) ts ∧
            stats (trace w') = stats (trace w) ++ List.flat_map (visits path) ts.
Proof.
  intros IH s l ts Hf.
  induction Hf as [|n t l ts Hnt Hf IHl]; intros k len w Hw Hlen.
  { exists w. cbn. by rewrite !app_nil_r. }
  cbn [length seq zip zip_with for_each fst snd].
  unfold bind at 1. unfold walk_entry at 1.
  unfold bind at 1. unfold sftp_stat, reading. unfold bind at 1. unfold emit at 1.
  cbn [remote fst snd].
  unfold reads_as in Hnt. fold (child path n). subst s.
  destruct (srv_stat (remote w) (login c) (child path n)) as [e|a] eqn:Hs; [done|].
  set (w1 := MkWorld (stdin w) (remote w) (trace w ++ [EvStat (child path n)])
               (handles w) (next_id w) (clock w)).
  assert (Hlast : bool_decide (k = (len - 1)%nat) = bool_decide (l = [])).
  { destruct l; cbn in Hlen.
    - rewrite !bool_decide_eq_true_2; [done..|lia].
    - rewrite !bool_decide_eq_false_2; [done..|lia]. }
  rewrite Hlast.
  assert (Hone : ∃ w2,
    (print (prefix +:+ (if bool_decide (l = []) then "└── " else "├── ") +:+ n +:+
            (if S_ISDIR (st_mode a) then "/" else "")) ;;
     if S_ISDIR (st_mode a)
     then _walk depth c (child path n)
            (prefix +:+ (if bool_decide (l = []) then "    " else "│   "))
     else ret tt) w1 = (Ok tt, w2) ∧
    remote w2 = remote w ∧
    prints (trace w2) = prints (trace w) ++
      render_tree prefix (if bool_decide (l = []) then "└── " else "├── ")
        (if bool_decide (l = []) then "    " else "│   ") t ∧
    stats (trace w2) = stats (trace w) ++ visits path t).
  { unfold bind, print, emit. cbn [fst snd].
    set (w1' := MkWorld _ _ _ _ _ _).
    destruct (S_ISDIR (st_mode a)) eqn:Hd.
    - destruct Hnt as (entries & Hsnap & ->).
      destruct (IH (child path n)
                  (prefix +:+ (if bool_decide (l = []) then "    " else "│   "))
                  w1' entries) as (w2 & Hw2 & Hr & Hp & Hst).
      { done. }
      exists w2. rewrite Hw2. split_and!; [done|by rewrite Hr| |].
      + rewrite Hp. subst w1' w1. cbn [trace].
        rewrite !prints_app. cbn. by rewrite <- !app_assoc.
      + rewrite Hst. subst w1' w1. cbn [trace].
        rewrite !stats_app. cbn. by rewrite <- !app_assoc.
    - subst t. exists w1'. split_and!; [done|done| |].
      + subst w1' w1. cbn [trace]. rewrite !prints_app. cbn.
        by rewrite app_nil_r, append_empty_r.
      + subst w1' w1. cbn [trace]. rewrite !stats_app. cbn.
        by rewrite !app_nil_r. }
  destruct Hone as (w2 & Hone & Hr2 & Hp2 & Hs2).
  rewrite Hone.
  destruct (IHl (S k) len w2 Hr2) as (w' & Hrun & Hr' & Hp' & Hs'); [cbn in Hlen; lia|].
  exists w'. split_and!; [done|done| |].
  - rewrite Hp', Hp2, <- app_assoc. f_equal.
    destruct Hf as [|n' t' l' ts' _ _]; [by rewrite app_nil_r|].
    by rewrite bool_decide_eq_false_2.
  - rewrite Hs', Hs2, <- app_assoc. done.
Qed.

(** What the walk of a directory does when the directory reads as the tree
    [ts]: it ends normally, changes nothing on the remote store, prints the
    text of [ts] and sends its [stat] requests in the order of [ts]. *)
Lemma walk_snapshot depth (c : SFTPClient) path prefix (w : World Srv) ts :
  snapshot depth (remote w) (login c) path = Some ts →
  ∃ w', _walk depth c path prefix w = (Ok tt, w') ∧
        remote w' = remote w ∧
        prints (trace w') = prints (trace w) ++ render_entries (render_tree prefix) ts ∧
        stats (trace w') = stats (trace w) ++ List.flat_map (visits path) ts.
Proof.
  revert path prefix w ts.
  induction depth as [|depth IH]; intros path prefix w ts Hsnap; [done|].
  destruct (snapshot_entries _ _ _ _ _ Hsnap) as (names & Hl & Hf).
  cbn [_walk]. unfold bind at 1. unfold sftp_listdir, reading.
  unfold bind at 1. unfold emit at 1. cbn [remote fst snd]. rewrite Hl.
  set (w1 := MkWorld _ _ _ _ _ _).
  destruct (walk_entries_snapshot depth c path prefix IH (remote w) (sorted names) ts Hf
              0%nat (length (sorted names)) w1 eq_refl eq_refl)
    as (w' & Hrun & Hr & Hp & Hs).
  exists w'. unfold enumerate. rewrite Hrun. split_and!; [done..| |].
  - rewrite Hp. subst w1. cbn [trace]. by rewrite prints_app, app_nil_r.
  - rewrite Hs. subst w1. cbn [trace]. by rewrite stats_app, app_nil_r.
Qed.

Lemma snapshot_of_entries depth s who path names ts :
  srv_listdir s who path = inr names →
  Forall2 (reads_as depth s who path) (sorted names) ts →
  snapshot (S depth) s who path = Some ts.
Proof.
  intros Hl Hf. cbn [snapshot]. rewrite Hl. apply mapM_Some.
  eapply Forall2_impl; [exact Hf|].
  intros n t. unfold reads_as. cbn.
  destruct (srv_stat _ _ _) as [e|a]; [done|].
  destruct (S_ISDIR _); [|by intros ->].
  by intros (entries & -> & ->).
Qed.

Lemma walk_entries_ok depth (c : SFTPClient) path prefix :
  (∀ path' prefix' (w w' : World Srv),
     _walk depth c path' prefix' w = (Ok tt, w') →
     ∃ ts, snapshot depth (remote w) (login c) path' = Some ts) →
  ∀ (l : list string) (k len : nat) (w w' : World Srv),
    for_each (zip (seq k (length l)) l)
      (λ ie, walk_entry (_walk depth c) c path prefix len ie.1 ie.2) w = (Ok tt, w') →
    ∃ ts, Forall2 (reads_as depth (remote w) (login c) path) l ts.
Proof.
  intros IH l. induction l as [|n l IHl]; intros k len w w' Hrun.
  { exists []. constructor. }
  cbn [length seq zip zip_with for_each fst snd] in Hrun.
  unfold bind at 1 in Hrun. unfold walk_entry at 1 in Hrun.
  unfold bind at 1 in Hrun. unfold sftp_stat, reading in Hrun.
  unfold bind at 1 in Hrun. unfold emit at 1 in Hrun.
  cbn [remote fst snd] in Hrun. fold (child path n) in Hrun.
  destruct (srv_stat (remote w) (login c) (child path n)) as [e|a] eqn:Hs; [done|].
  unfold bind at 1 in Hrun. unfold print at 1, emit at 1 in Hrun.
  cbn [fst snd] in Hrun.
  assert (Hhead : ∃ t, reads_as depth (remote w) (login c) path n t ∧
            ∃ w2, remote w2 = remote w ∧
              for_each (zip (seq (S k) (length l)) l)
                (λ ie, walk_entry (_walk depth c) c path prefix len ie.1 ie.2) w2
              = (Ok tt, w')).
  { unfold reads_as. rewrite Hs.
    destruct (S_ISDIR (st_mode a)) eqn:Hd.
    - match type of Hrun with
      | context [_walk depth c ?p ?pre ?v] =>
          destruct (_walk depth c p pre v) as [[[]|e|x] w2] eqn:Hw; [|done..];
          destruct (IH p pre v w2 Hw) as [entries Hsnap];
          destruct (walk_snapshot depth c p pre v entries Hsnap)
            as (w2' & Hw' & Hr & _)
      end.
      rewrite Hw in Hw'. injection Hw' as <-.
      exists (RDir n entries). split; [by exists entries|]. by exists w2.
    - exists (RFile n). split; [done|].
      cbv beta iota delta [ret] in Hrun.
      eexists. split; [|exact Hrun]. done. }
  destruct Hhead as (t & Ht & w2 & Hr2 & Hrest).
  destruct (IHl _ _ _ _ Hrest) as [ts Hts]. rewrite Hr2 in Hts.
  exists (t :: ts). by constructor.
Qed.

(** A walk that ends normally has read a tree: the directory then has a
    snapshot, and [walk_snapshot] tells what was printed. *)
Lemma walk_ok_snapshot depth (c : SFTPClient) path prefix (w w' : World Srv) :
  _walk depth c path prefix w = (Ok tt, w') →
  ∃ ts, snapshot depth (remote w) (login c) path = Some ts.
Proof.
  revert path prefix w w'.
  induction depth as [|depth IH]; intros path prefix w w' Hrun; [done|].
  cbn [_walk] in Hrun. unfold bind at 1 in Hrun. unfold sftp_listdir, reading in Hrun.
  unfold bind at 1 in Hrun. unfold emit at 1 in Hrun. cbn [remote fst snd] in Hrun.
  destruct (srv_listdir (remote w) (login c) path) as [e|names] eqn:Hl; [done|].
  unfold enumerate in Hrun.
  destruct (walk_entries_ok depth c path prefix IH _ _ _ _ _ Hrun) as [ts Hts].
  exists ts. by apply (snapshot_of_entries _ _ _ _ names).
Qed.

(** [sorted] gives the one ascending arrangement of the names, whatever
    algorithm computes it. *)
Lemma sorted_unique (l l' : list string) :
  Sorted String.le l' → l' ≡ₚ l → l' = sorted l.
Proof.
  intros Hs Hp. apply (Sorted_unique String.le); [done| |].
  - apply (Sorted_merge_sort String.le).
  - unfold sorted. by rewrite Hp, (merge_sort_Permutation String.le l).
Qed.


(** The text of a listing whose last entry is [t]: the entries before it
    with ["├── "] and ["│   "], then [t] with ["└── "] and four spaces. *)
Lemma render_entries_last render (init : list rtree) (t : rtree) :
  render_entries render (init ++ [t]) =
    List.flat_map (render "├── " "│   ") init ++ render "└── " "    " t.
Proof.
  induction init as [|x init IH]; [done|].
  cbn [app List.flat_map]. rewrite <- app_assoc, <- IH.
  by destruct init.
Qed.

Lemma stamped_names clock (l : list (string * option Z)) :
  List.map fst (stamped clock l) = List.map fst l.
Proof.
  revert clock. induction l as [|[n [t|]] l IH]; intros clock; [done|..]; cbn;
    by rewrite IH.
Qed.



(** C7.  When the directory [path] reads as the tree [ts], the walk prints
    exactly the text of [ts]: in every directory the last entry of the
    sorted listing is drawn with ["└── "] and all the others with ["├── "],
    a directory's name is followed by ["/"], and the entries of a directory
    are drawn with the prefix extended by four spaces below a last entry
    and by ["│   "] below any other. *)
Theorem walk_draws_tree
    (w : World Srv) (depth : nat) (c : SFTPClient) (path prefix : string) (ts : list rtree) :
  snapshot depth (remote w) (login c) path = Some ts →
  let r := _walk depth c path prefix w in
  r.1 = Ok tt ∧
  prints (trace r.2) = prints (trace w) ++ render_entries (render_tree prefix) ts ∧
  (∀ init t, ts = init ++ [t] →
     render_entries (render_tree prefix) ts =
       List.flat_map (render_tree prefix "├── " "│   ") init ++
       render_tree prefix "└── " "    " t) ∧
  (∀ branch extension n entries,
     render_tree prefix branch extension (RDir n entries) =
       (prefix +:+ branch +:+ n +:+ "/")
       :: render_entries (render_tree (prefix +:+ extension)) entries) ∧
  (∀ branch extension n,
     render_tree prefix branch extension (RFile n) = [prefix +:+ branch +:+ n]).
Proof.
  intros Hsnap r.
  destruct (walk_snapshot _ c path prefix w ts Hsnap) as (w' & Hrun & _ & Hp & _).
  subst r. rewrite Hrun. split_and!; [done|done| |done|done].
  intros init t ->. apply render_entries_last.
Qed.

(** The whole operation: the root line, then the text of the tree. *)
Lemma stfp_formatter_draws
    (w : World Srv) hostname port username password remote_dir ts :
  connects w hostname port username password →
  let root := Str.rstrip_slash (as_posix remote_dir) in
  snapshot recursion_limit (remote w) (MkLogin hostname port username) root = Some ts →
  let r := stfp_formatter hostname port username password remote_dir w in
  r.1 = Ok tt ∧
  remote r.2 = remote w ∧
  prints (trace r.2) =
    prints (trace w) ++ (root +:+ "/") :: render_entries (render_tree "") ts.
Proof.
  intros Hc root Hsnap r. subst r. unfold stfp_formatter. fold root.
  rewrite sftp_connection_yields by done.
  pose proof (try_finally_close
    (formatter_body (yielded w hostname port username) root)
    (yielded w hostname port username) (entered w)) as (Ho & Ht & Hr & _).
  rewrite Ho, Ht, Hr. clear Ho Ht Hr.
  assert (Hb : ∃ w2 hs,
            formatter_body (yielded w hostname port username) root (entered w) =
              (Ok tt, MkWorld (stdin w2) (remote w2) (trace w2) hs (next_id w2) (clock w2)) ∧
            remote w2 = remote w ∧
            prints (trace w2) =
              prints (trace w) ++ (root +:+ "/") :: render_entries (render_tree "") ts).
  { unfold formatter_body, try_finally, bind, print, emit, sftp_close, set_handles.
    cbn [fst snd].
    match goal with
    | |- context [_walk _ _ _ _ ?v] =>
        destruct (walk_snapshot recursion_limit (yielded w hostname port username) root ""
                    v ts Hsnap) as (w2 & Hrun & Hr & Hp & _)
    end.
    rewrite Hrun. exists w2. eexists. split_and!; [done|done|].
    rewrite Hp. cbn [trace entered]. rewrite prints_app. cbn. by rewrite <- app_assoc. }
  destruct Hb as (w2 & hs & -> & Hr & Hp). by cbn [fst snd remote trace].
Qed.

End Tree.

(** ** Runs on the in-memory server *)

Section Runs.
#[local] Existing Instance Mem.here.

Lemma bucket_connects lines :
  connects (Mem.world lines) "sftp.example.org" 22 "district" "secret".
Proof. by repeat split. Qed.

(** C3.  With a wrong password [transport.connect] raises before the [try]
    statement of [sftp_connection] is entered, so its [finally] clause never
    runs: the scope is left by [AuthenticationException] and the transport
    that [pm.Transport((host, port))] opened is still open.  The same holds
    for an operation that uses the scope, here [view_contents]. *)
Theorem wrong_password_leaves_transport_open :
  let scope := Mem.run (sftp_connection "sftp.example.org" 22 "district" "wrong"
                          (λ _, ret tt)) [] in
  let listing := Mem.run (view_contents (posix_path "/home") "sftp.example.org" 22
                            "district" "wrong") [] in
  scope.1 = Raise (AuthenticationException "Authentication failed.") ∧
  handles scope.2 = [HTransport 0] ∧
  listing.1 = Raise (AuthenticationException "Authentication failed.") ∧
  handles listing.2 = [HTransport 0].
Proof. by vm_compute. Qed.

(** C1.  The answer ["Folder"] to [File or Folder?] is not a deletion type
    that [delete] knows, yet nothing is logged as an error and the process
    does not exit: the shell asks whether to continue and, on [yes], starts
    the next iteration with the command prompt.  The process ends with
    status 0 when the operator then types [exit]; the folder is still there. *)
Theorem unknown_deletion_type_is_not_fatal :
  let r := Mem.run main
             (Mem.sign_in ++ ["delete"; "Folder"; "/home/reports"; "yes"; "yes"; "exit"]) in
  r.1 = SysExit 0 ∧
  exit_status r.1 = 0%Z ∧
  List.filter is_error_log (trace r.2) = [] ∧
  List.filter is_prompt (trace r.2) =
    [EvPrompt "Host: "; EvPrompt "Username: "; EvPrompt "Password: ";
     EvPrompt choice_prompt; EvPrompt "File or Folder? ";
     EvPrompt "Remote directory: "; EvPrompt "Continue? (yes/no): ";
     EvPrompt "Proceed with the same sFTP credentials? (yes/no): ";
     EvPrompt choice_prompt] ∧
  remote r.2 = Mem.bucket.
Proof. by vm_compute. Qed.

(** C2.  The token [exit] typed at the prompt [File or Folder?] does not
    end the process: that prompt is read with [input], not with [ask].  The
    shell goes on to ask for the remote directory and runs [delete] with the
    deletion type ["exit"]; it then asks whether to continue.  With a wrong
    password the same input ends the process with status 1. *)
Theorem exit_at_deletion_prompt_is_not_honoured :
  let r := Mem.run main (Mem.sign_in ++ ["delete"; "exit"; "/home/b.txt"; "no"]) in
  let r' := Mem.run main ["sftp.example.org"; "district"; "wrong";
                          "delete"; "exit"; "/home/b.txt"] in
  r.1 = Ok (Some tt) ∧
  List.filter is_prompt (trace r.2) =
    [EvPrompt "Host: "; EvPrompt "Username: "; EvPrompt "Password: ";
     EvPrompt choice_prompt; EvPrompt "File or Folder? ";
     EvPrompt "Remote directory: "; EvPrompt "Continue? (yes/no): "] ∧
  stdin r.2 = [] ∧
  r'.1 = SysExit 1 ∧
  exit_status r'.1 = 1%Z ∧
  List.last (trace r'.2) (EvPrint "") =
    EvLog ERROR "Deletion failed: {e}" ["Authentication failed."].
Proof. by vm_compute. Qed.

(** [delete] with the answer ["Folder"] on the folder [/home/reports]. *)
Lemma delete_unknown_type_does_nothing_witness :
  let r := Mem.run (delete (posix_path "/home/reports") "sftp.example.org" 22
                      "district" "secret" "Folder") [] in
  trace r.2 = [] ∧ remote r.2 = Mem.bucket ∧ r.1 = Ok tt.
Proof.
  destruct (delete_unknown_type_does_nothing (Mem.world [])
              (posix_path "/home/reports") "sftp.example.org" 22 "district" "secret"
              "Folder") as (Ht & Hr & Ho); [discriminate..|].
  intros r. split_and!; [exact Ht|exact Hr|exact (Ho (bucket_connects []))].
Defined.

(** [delete] of a file on a path that is absent, on a folder, and on a file. *)
Lemma delete_file_checks_target_witness :
  let del path := Mem.run (delete (posix_path path) "sftp.example.org" 22
                             "district" "secret" "file") [] in
  ((del "/home/none").1 = Raise (FileNotFoundError "/home/none not found!") ∧
   remote (del "/home/none").2 = Mem.bucket ∧
   trace (del "/home/none").2 =
     [EvStat "/home/none";
      EvLog ERROR "Remote file not found: {remote_str}" ["/home/none"]]) ∧
  ((del "/home/reports").1 = Raise (IsADirectoryError "/home/reports is a directory!") ∧
   remote (del "/home/reports").2 = Mem.bucket ∧
   trace (del "/home/reports").2 =
     [EvStat "/home/reports";
      EvLog ERROR "Remote path is a directory: {remote_str}" ["/home/reports"]]) ∧
  ((del "/home/b.txt").1 = Ok tt ∧
   Mem.nodes (remote (del "/home/b.txt").2) !! "/home/b.txt" = None ∧
   trace (del "/home/b.txt").2 =
     [EvStat "/home/b.txt"; EvRemove "/home/b.txt";
      EvLog INFO "File '{remote_str}' deleted successfully." ["/home/b.txt"]]).
Proof.
  intros del. split; [|split].
  - destruct (delete_file_checks_target (Mem.world []) (posix_path "/home/none")
                "sftp.example.org" 22 "district" "secret" (bucket_connects []))
      as (H & _ & _).
    exact (H Mem.no_such_file eq_refl eq_refl).
  - destruct (delete_file_checks_target (Mem.world []) (posix_path "/home/reports")
                "sftp.example.org" 22 "district" "secret" (bucket_connects []))
      as (_ & H & _).
    exact (H (Attrs Mem.dir_mode (Some 40%Z)) eq_refl eq_refl).
  - destruct (delete_file_checks_target (Mem.world []) (posix_path "/home/b.txt")
                "sftp.example.org" 22 "district" "secret" (bucket_connects []))
      as (_ & _ & H).
    destruct (H (Attrs Mem.file_mode (Some 20%Z)) eq_refl eq_refl) as (Ho & Hr & Ht).
    split_and!; [exact Ho| |exact Ht].
    subst del. unfold Mem.run. rewrite Hr. by vm_compute.
Defined.

Lemma roster_exists :
  path_exists (posix_path (expanduser_resolve (posix_path "/tmp/roster.csv"))) = true.
Proof. by vm_compute. Qed.

Lemma roster_is_a_file :
  path_is_file (posix_path (expanduser_resolve (posix_path "/tmp/roster.csv"))) = true.
Proof. by vm_compute. Qed.

(** [upload_file] of the local file [/tmp/roster.csv] to [/home/reports/]. *)
Lemma upload_file_target_witness :
  let r := Mem.run (upload_file (posix_path "/tmp/roster.csv")
                      (posix_path "/home/reports/") "sftp.example.org" 22
                      "district" "secret") [] in
  List.filter is_mutation (trace r.2) =
    [EvPut "/tmp/roster.csv" "/home/reports/roster.csv" true] ∧
  Mem.nodes (remote r.2) !! "/home/reports/roster.csv" = Some (Attrs Mem.file_mode (Some 0%Z)) ∧
  name (truediv (posix_path "/home/reports/") "roster.csv") = "roster.csv" ∧
  parent (truediv (posix_path "/home/reports/") "roster.csv") = posix_path "/home/reports/".
Proof.
  intros r.
  destruct (upload_file_target (Mem.world []) (posix_path "/tmp/roster.csv")
              (posix_path "/home/reports/") "sftp.example.org" 22 "district" "secret"
              roster_exists roster_is_a_file (bucket_connects [])) as (Hm & Hr & Hn).
  destruct Hn as [Hn Hp]; [discriminate|].
  split_and!; [exact Hm| |exact Hn|exact Hp].
  subst r. unfold Mem.run. rewrite Hr. by vm_compute.
Defined.

Lemma home_listdir :
  srv_listdir Mem.bucket district "/home" = inr ["a.csv"; "reports"; "b.txt"].
Proof. by vm_compute. Qed.

Lemma home_stat n :
  n ∈ ["a.csv"; "reports"; "b.txt"] →
  srv_stat Mem.bucket district ("/home" +:+ "/" +:+ n) =
    inr (default (Attrs 0 None) (Mem.nodes Mem.bucket !! ("/home/" +:+ n))).
Proof.
  intros Hn. repeat (apply elem_of_cons in Hn as [->|Hn]); [by vm_compute..|].
  by apply elem_of_nil in Hn.
Qed.

Lemma home_snapshot : snapshot 3 Mem.bucket district "/home" = Some home_tree.
Proof. by vm_compute. Qed.


(** The tree of [/home]: two files, then the folder [reports], last. *)
Lemma walk_draws_tree_witness :
  let c := yielded (Mem.world []) "sftp.example.org" 22 "district" in
  (Mem.run (_walk 3 c "/home" "") []).1 = Ok tt ∧
  prints (trace (Mem.run (_walk 3 c "/home" "") []).2) =
    ["├── a.csv"; "├── b.txt"; "└── reports/"; "    └── q1.pdf"].
Proof.
  intros c.
  destruct (walk_draws_tree (Mem.world []) 3 c "/home" "" home_tree home_snapshot)
    as (Hr & Hp & _).
  split; [exact Hr|exact Hp].
Defined.

Lemma reports_mkdir_fails lines :
  srv_mkdir (remote (Mem.world lines)) district (as_posix (posix_path "/home/reports")) =
    (Some Mem.failure, Mem.bucket).
Proof. by vm_compute. Qed.

Lemma reports_rmdir_fails lines :
  srv_rmdir (remote (Mem.world lines)) district (as_posix (posix_path "/home/reports")) =
    (Some Mem.failure, Mem.bucket).
Proof. by vm_compute. Qed.

(** The command [folder] for [/home/reports], which exists: the error is
    printed and the shell asks whether to continue.  Removing that folder,
    which is not empty, raises. *)
Lemma create_dir_alone_swallows_failure_witness :
  let lines := ["folder"; "/home/reports"; "no"] in
  let r := Mem.run (create_dir (posix_path "/home/reports") "sftp.example.org" 22
                      "district" "secret") lines in
  (r.1 = Ok tt ∧
   trace r.2 = [EvMkdir "/home/reports"; EvPrint "Error creating folder: Failure"]) ∧
  (∃ later,
     trace (Mem.run (iteration "sftp.example.org" 22 "district" "secret") lines).2 =
       [EvPrompt choice_prompt; EvPrompt "New remote directory: ";
        EvMkdir "/home/reports"; EvPrint "Error creating folder: Failure";
        EvPrompt "Continue? (yes/no): "] ++ later) ∧
  (Mem.run (delete (posix_path "/home/reports") "sftp.example.org" 22
              "district" "secret" "folder") lines).1 = Raise Mem.failure.
Proof.
  intros lines r.
  destruct (create_dir_alone_swallows_failure (Mem.world lines)
              (posix_path "/home/reports") "sftp.example.org" 22 "district" "secret"
              (bucket_connects lines))
    as (Hmk & Hloop & _ & _ & Hrm & _).
  split; [|split].
  - exact (Hmk _ _ (reports_mkdir_fails lines)).
  - refine (Hloop "folder" "/home/reports" ["no"] _ _ eq_refl eq_refl _ eq_refl
              (reports_mkdir_fails lines)).
    vm_compute. discriminate.
  - exact (Hrm _ _ (reports_rmdir_fails lines)).
Defined.




End Runs.

(** * Further properties *)

(** ** Exit statuses *)

Section ExitStatus.
Context {Srv : Type} `{!Platform Srv}.

Lemma exits01_never {A} (m : M Srv A) :
  (∀ w c, (m w).1 ≠ SysExit c) → exits01 m.
Proof. intros Hm w c Hc. by destruct (Hm w c). Qed.

Lemma exits01_ret {A} (a : A) : exits01 (ret (Srv := Srv) a).
Proof. by apply exits01_never. Qed.

Lemma exits01_raise {A} e : exits01 (raise (Srv := Srv) (A := A) e).
Proof. by apply exits01_never. Qed.

Lemma exits01_sys_exit_0 {A} : exits01 (sys_exit (Srv := Srv) (A := A) 0).
Proof. intros w c [= <-]. by left. Qed.

Lemma exits01_sys_exit_1 {A} : exits01 (sys_exit (Srv := Srv) (A := A) 1).
Proof. intros w c [= <-]. by right. Qed.

Lemma exits01_emit e : exits01 (emit (Srv := Srv) e).
Proof. by apply exits01_never. Qed.

Lemma exits01_input prompt : exits01 (input (Srv := Srv) prompt).
Proof. apply exits01_never. intros w c. unfold input. by destruct (stdin w). Qed.

Lemma exits01_bind {A B} (m : M Srv A) (k : A → M Srv B) :
  exits01 m → (∀ a, exits01 (k a)) → exits01 (bind m k).
Proof.
  intros Hm Hk w c. unfold bind. specialize (Hm w).
  destruct (m w) as [[a|e|c'] w1]; cbn in *; [apply Hk|done|].
  intros [= <-]. by apply Hm.
Qed.

Lemma exits01_try_except {A} (m : M Srv A) classes handler :
  exits01 m → (∀ e, exits01 (handler e)) → exits01 (try_except m classes handler).
Proof.
  intros Hm Hh w c. unfold try_except. specialize (Hm w).
  destruct (m w) as [[a|e|c'] w1]; cbn in *; [done| |].
  - destruct (classes e); [apply Hh|done].
  - intros [= <-]. by apply Hm.
Qed.

Lemma exits01_try_finally {A} (m : M Srv A) fin :
  exits01 m → exits01 fin → exits01 (try_finally m fin).
Proof.
  intros Hm Hf w c. unfold try_finally. specialize (Hm w).
  destruct (m w) as [o w1]. specialize (Hf w1).
  destruct (fin w1) as [[[]|e|c'] w2]; cbn in *; [apply Hm|done|].
  intros [= <-]. by apply Hf.
Qed.

Lemma exits01_for_each {A} (l : list A) (body : A → M Srv unit) :
  (∀ a, exits01 (body a)) → exits01 (for_each l body).
Proof.
  intros Hb. induction l as [|x l IH]; cbn; [apply exits01_ret|].
  apply exits01_bind; [done|]. by intros.
Qed.

Lemma exits01_set_handles f : exits01 (set_handles (Srv := Srv) f).
Proof. by apply exits01_never. Qed.

Lemma exits01_new_transport host port : exits01 (new_transport host port).
Proof.
  apply exits01_never. intros w c. unfold new_transport. by destruct (tcp_connect _ _ _).
Qed.

Lemma exits01_transport_connect t u p : exits01 (transport_connect t u p).
Proof.
  apply exits01_never. intros w c. unfold transport_connect.
  by destruct (ssh_connect _ _ _ _ _).
Qed.

Lemma exits01_from_transport t u : exits01 (from_transport t u).
Proof.
  apply exits01_never. intros w c. unfold from_transport. by destruct (open_sftp _ _).
Qed.

Lemma exits01_reading {A} e (f : Srv → error + A) : exits01 (reading e f).
Proof.
  apply exits01_never. intros w c. unfold reading, bind, emit. cbn. by destruct (f _).
Qed.

Lemma exits01_writing e (f : Srv → option error * Srv) : exits01 (writing e f).
Proof.
  apply exits01_never. intros w c. unfold writing, bind, emit. cbn.
  by destruct (f _) as [[?|] ?].
Qed.

Lemma exits01_time_ctime secs : @exits01 Srv _ (time_ctime secs).
Proof. apply exits01_never. intros w c. by destruct secs. Qed.

End ExitStatus.

Ltac exits01_step :=
  cbv beta zeta;
  lazymatch goal with
  | |- forall _, _ => intro
  | |- exits01 (bind _ _) => apply exits01_bind
  | |- exits01 (try_except _ _ _) => apply exits01_try_except
  | |- exits01 (try_finally _ _) => apply exits01_try_finally
  | |- exits01 (for_each _ _) => apply exits01_for_each
  | |- exits01 (ret _) => apply exits01_ret
  | |- exits01 (raise _) => apply exits01_raise
  | |- exits01 (sys_exit 0) => apply exits01_sys_exit_0
  | |- exits01 (sys_exit 1) => apply exits01_sys_exit_1
  | |- exits01 (emit _) => apply exits01_emit
  | |- exits01 (input _) => apply exits01_input
  | |- exits01 (set_handles _) => apply exits01_set_handles
  | |- exits01 (new_transport _ _) => apply exits01_new_transport
  | |- exits01 (transport_connect _ _ _) => apply exits01_transport_connect
  | |- exits01 (from_transport _ _) => apply exits01_from_transport
  | |- exits01 (reading _ _) => apply exits01_reading
  | |- exits01 (writing _ _) => apply exits01_writing
  | |- exits01 (time_ctime _) => apply exits01_time_ctime
  | |- exits01 (match ?x with _ => _ end) => destruct x
  end.

Ltac exits01 := repeat exits01_step.

Section ExitStatusProgram.
Context {Srv : Type} `{!Platform Srv}.

Lemma exits01_ask prompt : @exits01 Srv _ (ask prompt).
Proof. unfold ask, log. exits01. Qed.

Lemma exits01_sftp_connection {A} host port u p (body : SFTPClient → M Srv A) :
  (∀ c, exits01 (body c)) → exits01 (sftp_connection host port u p body).
Proof.
  intros Hb. unfold sftp_connection, sftp_close, transport_close. exits01. apply Hb.
Qed.

Lemma exits01_view_loop c rs names out : @exits01 Srv _ (view_loop c rs names out).
Proof.
  revert out. induction names as [|n names IH]; intros out; cbn [view_loop]; [exits01|].
  unfold sftp_stat. exits01. apply IH.
Qed.

Lemma exits01_view_contents rd h port u p : @exits01 Srv _ (view_contents rd h port u p).
Proof.
  unfold view_contents. apply exits01_sftp_connection.
  unfold view_body, sftp_listdir. exits01. apply exits01_view_loop.
Qed.

Lemma exits01_walk depth c path prefix : @exits01 Srv _ (_walk depth c path prefix).
Proof.
  revert path prefix. induction depth as [|d IH]; intros path prefix; cbn [_walk];
    [exits01|].
  unfold sftp_listdir, walk_entry, sftp_stat, print. exits01. apply IH.
Qed.

Lemma exits01_upload_file lp rd h port u p : @exits01 Srv _ (upload_file lp rd h port u p).
Proof.
  unfold upload_file, log. exits01. apply exits01_sftp_connection.
  unfold upload_body, sftp_put, log. exits01.
Qed.

Lemma exits01_create_dir rd h port u p : @exits01 Srv _ (create_dir rd h port u p).
Proof.
  unfold create_dir. apply exits01_sftp_connection.
  unfold create_dir_body, sftp_mkdir, sftp_close, print. exits01.
Qed.

Lemma exits01_delete rd h port u p dt : @exits01 Srv _ (delete rd h port u p dt).
Proof.
  unfold delete. apply exits01_sftp_connection.
  unfold delete_body, sftp_stat, sftp_remove, sftp_rmdir, log. exits01.
Qed.

Lemma exits01_stfp_formatter h port u p rd : @exits01 Srv _ (stfp_formatter h port u p rd).
Proof.
  unfold stfp_formatter. apply exits01_sftp_connection.
  unfold formatter_body, sftp_close, print. exits01. apply exits01_walk.
Qed.

Lemma exits01_view mode rd h port u p : @exits01 Srv _ (view mode rd h port u p).
Proof.
  unfold view, log, output_csv, print_listing, print, log. exits01;
    first [ apply exits01_view_contents | apply exits01_stfp_formatter
          | apply exits01_ask ].
Qed.

Lemma exits01_command choice h port u p : @exits01 Srv _ (command choice h port u p).
Proof.
  unfold command, log. exits01;
    first [ apply exits01_ask | apply exits01_upload_file | apply exits01_create_dir
          | apply exits01_delete | apply exits01_view
          | apply exits01_input ].
Qed.

Lemma exits01_restart_logic h u p : @exits01 Srv _ (restart_logic h u p).
Proof. unfold restart_logic, log. exits01; apply exits01_ask. Qed.

Lemma exits01_iteration h port u p : @exits01 Srv _ (iteration h port u p).
Proof.
  unfold iteration. exits01;
    [apply exits01_ask|apply exits01_command|apply exits01_restart_logic].
Qed.

Lemma exits01_main_loop fuel h port u p : @exits01 Srv _ (main_loop fuel h port u p).
Proof.
  revert h u p. induction fuel as [|fuel IH]; intros h u p; cbn [main_loop]; [exits01|].
  exits01; [apply exits01_iteration|apply IH].
Qed.

(** X1.  However [main] is run (whatever is typed, whatever the server and
    the local file system answer) it ends, and in one of four ways: the
    operator answered [no] to [Continue?], an exception was left uncaught,
    or the process called [sys.exit] with status 0 or with status 1.  No
    other exit status is possible. *)
Theorem main_ends_with_status_0_or_1 (w : World Srv) :
  ends_well (main w).1 ∧
  (exit_status (main w).1 = 0%Z ∨ exit_status (main w).1 = 1%Z).
Proof.
  assert (He : ends_well (main w).1).
  { pose proof (main_total w) as Ht.
    assert (Hx : exits01 (main (Srv := Srv))).
    { unfold main, print. exits01; try apply exits01_ask.
      intros w' c. apply exits01_main_loop. }
    specialize (Hx w). unfold ends_well.
    destruct (main w).1 as [[[]|]|e|c]; [by left|done|right; left; by exists e|].
    destruct (Hx c eq_refl) as [->| ->]; [right; right; by left|by do 3 right]. }
  split; [done|].
  destruct He as [->|[[e ->]|[->| ->]]]; cbn; auto.
Qed.

End ExitStatusProgram.

(** ** How much a command changes the remote store *)

Section Budget.
Context {Srv : Type} `{!Platform Srv}.

Lemma mutations_app (a b : list event) : mutations (a ++ b) = mutations a ++ mutations b.
Proof. apply List.filter_app. Qed.

Lemma budget_mono {A} (n n' : nat) (m : M Srv A) :
  (n ≤ n')%nat → budget n m → budget n' m.
Proof.
  intros Hn Hm w. destruct (Hm w) as (added & Ht & Hl & Hr).
  exists added. split_and!; [done|lia|done].
Qed.

Lemma budget_still {A} (m : M Srv A) :
  (∀ w, trace (m w).2 = trace w ∧ remote (m w).2 = remote w) → budget 0 m.
Proof.
  intros Hm w. destruct (Hm w) as [Ht Hr]. exists [].
  by rewrite app_nil_r.
Qed.

Lemma budget_ret {A} (a : A) : budget 0 (ret (Srv := Srv) a).
Proof. by apply budget_still. Qed.

Lemma budget_raise {A} e : budget 0 (raise (Srv := Srv) (A := A) e).
Proof. by apply budget_still. Qed.

Lemma budget_sys_exit {A} c : budget 0 (sys_exit (Srv := Srv) (A := A) c).
Proof. by apply budget_still. Qed.

Lemma budget_set_handles f : budget 0 (set_handles (Srv := Srv) f).
Proof. by apply budget_still. Qed.

Lemma budget_new_transport host port : budget 0 (new_transport host port).
Proof.
  apply budget_still. intros w. unfold new_transport. by destruct (tcp_connect _ _ _).
Qed.

Lemma budget_transport_connect t u p : budget 0 (transport_connect t u p).
Proof.
  apply budget_still. intros w. unfold transport_connect.
  by destruct (ssh_connect _ _ _ _ _).
Qed.

Lemma budget_from_transport t u : budget 0 (from_transport t u).
Proof.
  apply budget_still. intros w. unfold from_transport. by destruct (open_sftp _ _).
Qed.

Lemma budget_emit e : is_mutation e = false → budget 0 (emit (Srv := Srv) e).
Proof.
  intros He w. exists [e]. unfold mutations. cbn. by rewrite He.
Qed.

Lemma budget_input prompt : budget 0 (input (Srv := Srv) prompt).
Proof.
  intros w. exists [EvPrompt prompt]. unfold input. by destruct (stdin w).
Qed.

Lemma budget_reading {A} e (f : Srv → error + A) :
  is_mutation e = false → budget 0 (reading e f).
Proof.
  intros He w. exists [e]. unfold reading, bind, emit, mutations. cbn. rewrite He.
  by destruct (f _).
Qed.

Lemma budget_time_ctime secs : budget 0 (time_ctime secs).
Proof. apply budget_still. intros w. by destruct secs. Qed.

Lemma budget_writing e (f : Srv → option error * Srv) :
  is_mutation e = true → budget 1 (writing e f).
Proof.
  intros He w. exists [e]. unfold writing, bind, emit, mutations. cbn. rewrite He.
  by destruct (f _) as [[?|] ?].
Qed.

Lemma budget_bind {A B} (n1 n2 : nat) (m : M Srv A) (k : A → M Srv B) :
  budget n1 m → (∀ a, budget n2 (k a)) → budget (n1 + n2) (bind m k).
Proof.
  intros Hm Hk w. unfold bind.
  destruct (Hm w) as (a1 & Ht1 & Hl1 & Hr1).
  destruct (m w) as [[a|e|c] w1]; cbn [fst snd] in *.
  2,3: exists a1; split_and!; [done|lia|done].
  destruct (Hk a w1) as (a2 & Ht2 & Hl2 & Hr2).
  exists (a1 ++ a2). rewrite mutations_app, length_app. split_and!.
  - by rewrite Ht2, Ht1, app_assoc.
  - lia.
  - intros [H1 H2]%app_eq_nil. by rewrite Hr2, Hr1.
Qed.

Lemma budget_try_except {A} (n1 n2 : nat) (m : M Srv A) classes handler :
  budget n1 m → (∀ e, budget n2 (handler e)) →
  budget (n1 + n2) (try_except m classes handler).
Proof.
  intros Hm Hh w. unfold try_except.
  destruct (Hm w) as (a1 & Ht1 & Hl1 & Hr1).
  destruct (m w) as [[a|e|c] w1]; cbn [fst snd] in *.
  1,3: exists a1; split_and!; [done|lia|done].
  destruct (classes e); [|exists a1; split_and!; [done|lia|done]].
  destruct (Hh e w1) as (a2 & Ht2 & Hl2 & Hr2).
  exists (a1 ++ a2). rewrite mutations_app, length_app. split_and!.
  - by rewrite Ht2, Ht1, app_assoc.
  - lia.
  - intros [H1 H2]%app_eq_nil. by rewrite Hr2, Hr1.
Qed.

Lemma budget_try_finally {A} (n1 n2 : nat) (m : M Srv A) fin :
  budget n1 m → budget n2 fin → budget (n1 + n2) (try_finally m fin).
Proof.
  intros Hm Hf w. unfold try_finally.
  destruct (Hm w) as (a1 & Ht1 & Hl1 & Hr1).
  destruct (m w) as [o w1]; cbn [fst snd] in *.
  destruct (Hf w1) as (a2 & Ht2 & Hl2 & Hr2).
  exists (a1 ++ a2). rewrite mutations_app, length_app.
  destruct (fin w1) as [[[]|e|c] w2]; cbn [fst snd] in *.
  all: split_and!;
    [by rewrite Ht2, Ht1, app_assoc|lia
    |intros [H1 H2]%app_eq_nil; by rewrite Hr2, Hr1].
Qed.

Lemma budget_for_each {A} (l : list A) (body : A → M Srv unit) :
  (∀ a, budget 0 (body a)) → budget 0 (for_each l body).
Proof.
  intros Hb. induction l as [|x l IH]; cbn; [apply budget_ret|].
  apply (budget_bind 0 0); [done|]. by intros.
Qed.

End Budget.

(** Goals [budget 0 _]: nothing in the computation changes the store. *)
Ltac quiet_step :=
  cbv beta zeta;
  lazymatch goal with
  | |- forall _, _ => intro
  | |- budget 0 (bind _ _) => apply (budget_bind 0 0)
  | |- budget 0 (try_except _ _ _) => apply (budget_try_except 0 0)
  | |- budget 0 (try_finally _ _) => apply (budget_try_finally 0 0)
  | |- budget 0 (for_each _ _) => apply budget_for_each
  | |- budget 0 (ret _) => apply budget_ret
  | |- budget 0 (raise _) => apply budget_raise
  | |- budget 0 (sys_exit _) => apply budget_sys_exit
  | |- budget 0 (emit _) => apply budget_emit; reflexivity
  | |- budget 0 (input _) => apply budget_input
  | |- budget 0 (set_handles _) => apply budget_set_handles
  | |- budget 0 (new_transport _ _) => apply budget_new_transport
  | |- budget 0 (transport_connect _ _ _) => apply budget_transport_connect
  | |- budget 0 (from_transport _ _) => apply budget_from_transport
  | |- budget 0 (reading _ _) => apply budget_reading; reflexivity
  | |- budget 0 (time_ctime _) => apply budget_time_ctime
  | |- budget 0 (match ?x with _ => _ end) => destruct x
  end.

Ltac quiet := repeat quiet_step.

(** Goals [budget 1 _]: the one change is on one side of each composition. *)
Ltac single :=
  cbv beta zeta;
  lazymatch goal with
  | |- forall _, _ => intro; single
  | |- budget 1 (writing _ _) => apply budget_writing; reflexivity
  | |- budget 1 (bind _ _) =>
      first [ apply (budget_bind 0 1); [solve [quiet]|single]
            | apply (budget_bind 1 0); [single|solve [quiet]] ]
  | |- budget 1 (try_except _ _ _) =>
      first [ apply (budget_try_except 1 0); [single|solve [quiet]]
            | apply (budget_try_except 0 1); [solve [quiet]|single] ]
  | |- budget 1 (try_finally _ _) =>
      apply (budget_try_finally 1 0); [single|solve [quiet]]
  | |- budget 1 (match ?x with _ => _ end) => destruct x; single
  | |- budget 1 _ => apply (budget_mono 0 1); [lia|solve [quiet]]
  end.

Section BudgetProgram.
Context {Srv : Type} `{!Platform Srv}.

Lemma budget_ask prompt : @budget Srv _ 0 (ask prompt).
Proof. unfold ask, log. quiet. Qed.

Lemma budget_sftp_connection {A} n host port u p (body : SFTPClient → M Srv A) :
  (∀ c, budget n (body c)) → budget n (sftp_connection host port u p body).
Proof.
  intros Hb. unfold sftp_connection, sftp_close, transport_close.
  apply (budget_bind 0 n); [quiet|]. intros t.
  apply (budget_bind 0 n); [quiet|]. intros _.
  apply (budget_bind 0 n); [quiet|]. intros c.
  replace n with (n + 0)%nat by lia.
  apply budget_try_finally; [apply Hb|quiet].
Qed.

Lemma budget_view_loop c rs names out : @budget Srv _ 0 (view_loop c rs names out).
Proof.
  revert out. induction names as [|n names IH]; intros out; cbn [view_loop]; [quiet|].
  unfold sftp_stat. quiet. apply IH.
Qed.

Lemma budget_view_contents rd h port u p : @budget Srv _ 0 (view_contents rd h port u p).
Proof.
  unfold view_contents. apply budget_sftp_connection.
  unfold view_body, sftp_listdir. quiet. apply budget_view_loop.
Qed.

Lemma budget_walk depth c path prefix : @budget Srv _ 0 (_walk depth c path prefix).
Proof.
  revert path prefix. induction depth as [|d IH]; intros path prefix; cbn [_walk];
    [quiet|].
  unfold sftp_listdir, walk_entry, sftp_stat, print. quiet. apply IH.
Qed.

Lemma budget_stfp_formatter h port u p rd : @budget Srv _ 0 (stfp_formatter h port u p rd).
Proof.
  unfold stfp_formatter. apply budget_sftp_connection.
  unfold formatter_body, sftp_close, print. quiet. apply budget_walk.
Qed.

Lemma budget_view mode rd h port u p : @budget Srv _ 0 (view mode rd h port u p).
Proof.
  unfold view, log, output_csv, print_listing, print, log. quiet;
    first [ apply budget_view_contents | apply budget_stfp_formatter
          | apply budget_ask ].
Qed.

Lemma budget_upload_file lp rd h port u p : @budget Srv _ 1 (upload_file lp rd h port u p).
Proof.
  unfold upload_file, log.
  apply (budget_bind 0 1); [quiet|]. intros _. cbv zeta.
  apply (budget_try_except 1 0); [|quiet].
  apply budget_sftp_connection. intros c.
  unfold upload_body, sftp_put, log. single.
Qed.

Lemma budget_create_dir rd h port u p : @budget Srv _ 1 (create_dir rd h port u p).
Proof.
  unfold create_dir. cbv zeta. apply budget_sftp_connection. intros c.
  unfold create_dir_body, sftp_mkdir, sftp_close, print. single.
Qed.

Lemma budget_delete rd h port u p dt : @budget Srv _ 1 (delete rd h port u p dt).
Proof.
  unfold delete. cbv zeta. apply budget_sftp_connection. intros c.
  unfold delete_body, sftp_stat, sftp_remove, sftp_rmdir, log.
  apply (budget_try_except 1 0); [|quiet].
  destruct (bool_decide _); [|destruct (bool_decide _)]; single.
Qed.

End BudgetProgram.

Section CommandsAndStore.
Context {Srv : Type} `{!Platform Srv}.

Lemma budget_command choice h port u p : @budget Srv _ 1 (command choice h port u p).
Proof.
  unfold command, log.
  repeat match goal with |- budget 1 (if ?b then _ else _) => destruct b end.
  - apply (budget_bind 0 1); [apply budget_ask|]. intros s.
    apply (budget_bind 0 1); [apply budget_ask|]. intros d. cbv zeta.
    apply (budget_try_except 1 0); [apply budget_upload_file|quiet].
  - apply (budget_bind 0 1); [apply budget_ask|]. intros d. cbv zeta.
    apply (budget_try_except 1 0); [apply budget_create_dir|quiet].
  - apply (budget_bind 0 1); [quiet|]. intros t.
    apply (budget_bind 0 1); [apply budget_ask|]. intros d. cbv zeta.
    apply (budget_try_except 1 0); [apply budget_delete|quiet].
  - apply (budget_mono 0 1); [lia|].
    apply (budget_bind 0 0); [apply budget_ask|]. intros d.
    apply (budget_bind 0 0); [apply budget_ask|]. intros m. apply budget_view.
  - apply (budget_mono 0 1); [lia|]. quiet.
Qed.

(** X2.  One pass through the loop of [main] (the command prompt, the
    command, the restart questions) sends at most one request that changes
    the remote store ([put], [mkdir], [remove] or [rmdir]), whatever is typed
    and however the server answers; when it sends none, the store is left as
    it was. *)
Theorem iteration_changes_store_at_most_once (w : World Srv) h port u p :
  ∃ added,
    trace (iteration h port u p w).2 = trace w ++ added ∧
    (length (mutations added) ≤ 1)%nat ∧
    (mutations added = [] → remote (iteration h port u p w).2 = remote w).
Proof.
  assert (Hb : budget 1 (iteration h port u p)).
  { unfold iteration.
    apply (budget_bind 0 1); [apply budget_ask|]. intros c. cbv zeta.
    apply (budget_bind 1 0); [apply budget_command|]. intros _.
    unfold restart_logic, log. quiet; apply budget_ask. }
  apply Hb.
Qed.

(** X3.  The [view] command, in each of its modes and also for an unknown
    mode, never sends a request that changes the remote store and leaves the
    store as it was, however it ends. *)
Theorem view_is_read_only (w : World Srv) view_mode remote_dir h port u p :
  ∃ added,
    trace (view view_mode remote_dir h port u p w).2 = trace w ++ added ∧
    mutations added = [] ∧
    remote (view view_mode remote_dir h port u p w).2 = remote w.
Proof.
  destruct (budget_view view_mode remote_dir h port u p w) as (added & Ht & Hl & Hr).
  assert (Hm : mutations added = []) by (destruct (mutations added); [done|cbn in Hl; lia]).
  exists added. split_and!; [done|done|by apply Hr].
Qed.

End CommandsAndStore.

(** ** More on the prompts *)

Section MorePrompts.
Context {Srv : Type} `{!Platform Srv}.

(** X4.  At a prompt read with [ask], a line that is [exit] once surrounding
    white space is stripped and letters are lowered ends the process at once
    with status 0: the prompt is shown, [Goodbye!] is logged, the line is
    consumed, and nothing else happens. *)
Theorem ask_honours_exit (prompt line : string) (rest : list string) (w : World Srv) :
  stdin w = line :: rest →
  Str.lower (Str.strip line) = "exit" →
  ask prompt w =
    (SysExit 0, MkWorld rest (remote w)
                  (trace w ++ [EvPrompt prompt; EvLog INFO "Goodbye!" []])
                  (handles w) (next_id w) (clock w)) ∧
  exit_status (ask prompt w).1 = 0%Z.
Proof.
  intros Hi He. rewrite (ask_exit prompt line rest w Hi He). by split.
Qed.

(** X5.  An answer that [ask] returns is the typed line without surrounding
    white space, is never the exit token in any letter case, and stripping
    it again changes nothing; exactly one line was read and only the prompt
    was written. *)
Theorem ask_returns_clean_answer (prompt : string) (w w' : World Srv) (a : string) :
  ask prompt w = (Ok a, w') →
  Str.strip a = a ∧
  bool_decide (Str.lower a = "exit") = false ∧
  ∃ line, stdin w = line :: stdin w' ∧ a = Str.strip line ∧
          trace w' = trace w ++ [EvPrompt prompt] ∧ remote w' = remote w ∧
          handles w' = handles w.
Proof.
  unfold ask, bind, input, log, emit, sys_exit, ret.
  destruct (stdin w) as [|l ls] eqn:Hi; cbn; [done|].
  destruct (bool_decide (Str.lower (Str.strip l) = "exit")) eqn:He; cbn; [done|].
  intros [= <- <-]. split_and!; [apply strip_idemp|done|].
  by exists l.
Qed.

(** X6.  The command line is read without regard to letter case and
    surrounding white space: two lines with the same stripped, lower-cased
    text make the loop body do exactly the same. *)
Theorem command_line_is_normalised h port u p (w : World Srv) l l' rest :
  Str.lower (Str.strip l) = Str.lower (Str.strip l') →
  iteration h port u p (with_stdin w (l :: rest)) =
  iteration h port u p (with_stdin w (l' :: rest)).
Proof.
  intros Heq. unfold iteration. unfold bind at 1 3.
  destruct (decide (Str.lower (Str.strip l) = "exit")) as [He|He].
  - rewrite (ask_exit _ l rest) by done.
    by rewrite (ask_exit _ l' rest) by (by rewrite <- ?Heq).
  - rewrite (ask_answer _ l rest) by done.
    rewrite (ask_answer _ l' rest) by (by rewrite <- ?Heq).
    by rewrite !strip_idemp, Heq.
Qed.

(** X7.  A command that is none of [upload], [folder], [delete], [view] (and
    not [exit]) is fatal: the loop body logs one error record that carries
    the command and calls [sys.exit(1)]; nothing is sent to the server and
    no further line is read. *)
Theorem unknown_command_is_fatal h port u p (w : World Srv) line rest :
  stdin w = line :: rest →
  let choice := Str.lower (Str.strip line) in
  choice ≠ "exit" →
  choice ≠ "upload" → choice ≠ "folder" → choice ≠ "delete" → choice ≠ "view" →
  iteration h port u p w =
    (SysExit 1,
     MkWorld rest (remote w)
       (trace w ++
          [EvPrompt choice_prompt;
           EvLog ERROR
             "Invalid choice {choice!r}; please enter 'upload', 'delete', 'folder' or 'view'."
             [choice]])
       (handles w) (next_id w) (clock w)).
Proof. intros. by apply iteration_invalid_choice. Qed.

(** X8.  After the command [view] and a remote directory, a view mode that
    is none of [list], [tree], [csv] (and not [exit]) is fatal in the same
    way: one error record, [sys.exit(1)], and no session is opened. *)
Theorem unknown_view_mode_is_fatal h port u p (w : World Srv) l1 l2 l3 rest :
  stdin w = l1 :: l2 :: l3 :: rest →
  Str.lower (Str.strip l1) = "view" →
  Str.lower (Str.strip l2) ≠ "exit" →
  let view_mode := Str.lower (Str.strip l3) in
  view_mode ≠ "exit" → view_mode ≠ "list" → view_mode ≠ "tree" → view_mode ≠ "csv" →
  iteration h port u p w =
    (SysExit 1,
     MkWorld rest (remote w)
       (trace w ++
          [EvPrompt choice_prompt; EvPrompt "Remote directory to list: ";
           EvPrompt view_prompt;
           EvLog ERROR "Invalid view mode—please enter 'list', 'tree', or 'csv'." []])
       (handles w) (next_id w) (clock w)).
Proof.
  intros Hi Hv He2 view_mode He3 H1 H2 H3.
  by apply (iteration_invalid_view_mode h port u p w l1 l2 l3 rest).
Qed.

(** X9.  When standard input is exhausted at the first prompt of the loop
    body or of [main], [input] raises [EOFError]; nothing catches it, so the
    process ends with an uncaught exception (status 1) and no error record
    is logged. *)
Theorem end_of_input_is_uncaught h port u p (w : World Srv) :
  stdin w = [] →
  iteration h port u p w =
    (Raise EOFError,
     MkWorld [] (remote w) (trace w ++ [EvPrompt choice_prompt]) (handles w) (next_id w) (clock w)) ∧
  main w =
    (Raise EOFError,
     MkWorld [] (remote w) (trace w ++ [EvPrint banner; EvPrompt "Host: "])
       (handles w) (next_id w) (clock w)) ∧
  exit_status (main w).1 = 1%Z.
Proof.
  intros Hi.
  assert (Hm : main w =
    (Raise EOFError,
     MkWorld [] (remote w) (trace w ++ [EvPrint banner; EvPrompt "Host: "])
       (handles w) (next_id w) (clock w))).
  { unfold main. unfold bind at 1. unfold print, emit. cbn [fst snd].
    unfold bind at 1. rewrite ask_eof by done. cbn. by rewrite <- app_assoc. }
  split_and!; [|done|by rewrite Hm].
  unfold iteration. unfold bind at 1. by rewrite ask_eof.
Qed.

End MorePrompts.

(** ** More on the operations *)

Section MoreOperations.
Context {Srv : Type} `{!Platform Srv}.

(** X10.  [upload_file] checks the local path before anything else: when the
    resolved path does not exist or is not a regular file it logs one error
    record and raises [FileNotFoundError]; no transport is opened and no
    request is sent, the world is otherwise untouched. *)
Theorem upload_file_rejects_bad_local_path
    (w : World Srv) local_path remote_dir hostname port username password :
  let lp := posix_path (expanduser_resolve local_path) in
  path_exists lp && path_is_file lp = false →
  upload_file local_path remote_dir hostname port username password w =
    (Raise (FileNotFoundError (as_posix lp +:+ " not found or not a file")),
     MkWorld (stdin w) (remote w)
       (trace w ++
          [EvLog ERROR "File path is not valid or isn’t a file: {local_path}"
             [as_posix lp]])
       (handles w) (next_id w) (clock w)).
Proof.
  intros lp Hbad. unfold upload_file. fold lp.
  assert (Hc : negb (path_exists lp) || negb (path_is_file lp) = true).
  { by destruct (path_exists lp), (path_is_file lp). }
  by rewrite Hc.
Qed.

Lemma delete_run (w : World Srv) remote_dir hostname port username password dt :
  connects w hostname port username password →
  let r := delete remote_dir hostname port username password dt w in
  let b := delete_body (yielded w hostname port username) (as_posix remote_dir) dt
             (entered w) in
  r.1 = b.1 ∧ trace r.2 = trace b.2 ∧ remote r.2 = remote b.2 ∧ stdin r.2 = stdin b.2.
Proof.
  intros Hc r b. subst r b. unfold delete. rewrite sftp_connection_yields by done.
  apply try_finally_close.
Qed.

(** X11.  [delete] with the deletion type ["folder"] makes no check of its
    own: once the session is established its only request is [rmdir] for the
    path, with no [stat] before it, and it ends as that request does,
    logging success, or the error when it is one of paramiko's. *)
Theorem delete_folder_sends_rmdir_unchecked
    (w : World Srv) remote_dir hostname port username password :
  connects w hostname port username password →
  let remote_str := as_posix remote_dir in
  let removal := srv_rmdir (remote w) (MkLogin hostname port username) remote_str in
  let r := delete remote_dir hostname port username password "folder" w in
  r.1 = match removal.1 with None => Ok tt | Some e => Raise e end ∧
  remote r.2 = removal.2 ∧
  trace r.2 = trace w ++ [EvRmdir remote_str] ++
    match removal.1 with
    | None => [EvLog INFO "Folder '{remote_str}' deleted successfully." [remote_str]]
    | Some e => if is_SSHException e
                then [EvLog ERROR "sFTP error: {e}" [str_error e]] else []
    end.
Proof.
  intros Hc remote_str removal r.
  destruct (delete_run w remote_dir hostname port username password "folder" Hc)
    as (Ho & Ht & Hr & _).
  subst r. rewrite Ho, Ht, Hr. clear Ho Ht Hr.
  unfold delete_body.
  rewrite (bool_decide_eq_false_2 ("folder" = "file")) by done.
  rewrite (bool_decide_eq_true_2 ("folder" = "folder")) by done.
  unfold try_except, bind, sftp_rmdir, writing, bind, log, emit, raise. cbn.
  change (login (yielded w hostname port username)) with (MkLogin hostname port username).
  fold remote_str. fold removal.
  destruct removal as [[e|] s']; cbn.
  - destruct (is_SSHException e); cbn; by rewrite <- ?app_assoc.
  - by rewrite <- !app_assoc.
Qed.

(** X12.  In [delete] with the deletion type ["file"], a [stat] that fails
    with an exception that is not an [IOError] is not taken for a missing
    file: the exception itself leaves [delete], after an [sFTP error] record
    when it is one of paramiko's; [remove] is not sent and the remote store
    is unchanged. *)
Theorem delete_file_stat_error_is_passed_on
    (w : World Srv) remote_dir hostname port username password e :
  connects w hostname port username password →
  let remote_str := as_posix remote_dir in
  srv_stat (remote w) (MkLogin hostname port username) remote_str = inl e →
  is_IOError e = false →
  let r := delete remote_dir hostname port username password "file" w in
  r.1 = Raise e ∧
  remote r.2 = remote w ∧
  trace r.2 = trace w ++ [EvStat remote_str] ++
    if is_SSHException e then [EvLog ERROR "sFTP error: {e}" [str_error e]] else [].
Proof.
  intros Hc remote_str Hs He r.
  destruct (delete_run w remote_dir hostname port username password "file" Hc)
    as (Ho & Ht & Hr & _).
  subst r. rewrite Ho, Ht, Hr. clear Ho Ht Hr.
  unfold delete_body. rewrite !(bool_decide_eq_true_2 ("file" = "file")) by done.
  unfold try_except, bind, sftp_stat, reading, bind, log, emit, raise. cbn.
  change (login (yielded w hostname port username)) with (MkLogin hostname port username).
  fold remote_str. rewrite Hs, He. cbn.
  destruct (is_SSHException e); cbn; by rewrite <- ?app_assoc.
Qed.

(** X13.  Once [sftp_connection] has yielded its client, the channel and the
    transport it opened are closed when the scope is left, whatever the body
    of the [with] statement is and however it ends (normally, by an
    exception or by [sys.exit]); run in a world whose handles are all older,
    with a body that opens and closes nothing, the scope leaves exactly the
    handles it found. *)
Theorem session_is_released_after_yield {A} (body : SFTPClient → M Srv A)
    (w : World Srv) host port username password :
  connects w host port username password →
  let r := sftp_connection host port username password body w in
  (HTransport (next_id w) ∉ handles (r.2)) ∧
  (HChannel (S (next_id w)) (next_id w) ∉ handles (r.2)) ∧
  (fresh w →
   handles (body (yielded w host port username) (entered w)).2 = handles (entered w) →
   handles (r.2) = handles w).
Proof.
  intros Hc r.
  destruct (sftp_connection_releases_after_yield body w host port username password Hc)
    as [Ht Hch].
  split_and!; [done|done|].
  intros Hf Hb. by apply sftp_connection_restores_handles.
Qed.

(** X14.  [create_dir] swallows only what [mkdir] raises.  When the host
    cannot be reached the exception of [pm.Transport] leaves [create_dir],
    no [mkdir] is sent, and the [folder] command of the shell turns it into
    one [Folder creation failed] record and [sys.exit(1)]. *)
Theorem folder_command_connection_failure_is_fatal
    (w : World Srv) h port u p line rest e :
  stdin w = line :: rest →
  Str.lower (Str.strip line) ≠ "exit" →
  tcp_connect (remote w) h port = Some e →
  (create_dir (posix_path (Str.strip line)) h port u p w).1 = Raise e ∧
  command "folder" h port u p w =
    (SysExit 1,
     MkWorld rest (remote w)
       (trace w ++ [EvPrompt "New remote directory: ";
                    EvLog ERROR "Folder creation failed: {e}" [str_error e]])
       (handles w) (next_id w) (clock w)).
Proof.
  intros Hi He Htcp. split.
  - unfold create_dir, sftp_connection, bind, new_transport. by rewrite Htcp.
  - unfold command.
    rewrite !bool_decide_eq_false_2 by done. rewrite bool_decide_eq_true_2 by done.
    unfold bind at 1. rewrite (ask_answer _ line rest) by done.
    rewrite strip_idemp.
    unfold try_except, create_dir, sftp_connection, bind, new_transport.
    cbn [remote fst snd]. rewrite Htcp. cbn. by rewrite <- app_assoc.
Qed.

Lemma filter_idemp {X} (f : X → bool) (l : list X) :
  List.filter f (List.filter f l) = List.filter f l.
Proof.
  induction l as [|x l IH]; [done|]. cbn.
  destruct (f x) eqn:Hx; [|done]. cbn. by rewrite Hx, IH.
Qed.

(** X15.  When [mkdir] succeeds, [create_dir] prints the success line and
    returns; it closes the client itself before the scope closes it again,
    and that second [close] does no harm: in a world whose handles are all
    older, the handles after [create_dir] are those before it. *)
Theorem create_dir_success
    (w : World Srv) remote_dir hostname port username password s' :
  connects w hostname port username password →
  fresh w →
  let remote_str := as_posix remote_dir in
  srv_mkdir (remote w) (MkLogin hostname port username) remote_str = (None, s') →
  let r := create_dir remote_dir hostname port username password w in
  r.1 = Ok tt ∧
  remote r.2 = s' ∧
  trace r.2 = trace w ++
    [EvMkdir remote_str;
     EvPrint ("Folder '" +:+ remote_str +:+ "' created successfully on " +:+ hostname)] ∧
  handles r.2 = handles w.
Proof.
  intros Hc Hf remote_str Hm r. subst r. unfold create_dir.
  rewrite sftp_connection_yields by done. fold remote_str.
  unfold try_finally, create_dir_body, try_except, bind, sftp_mkdir, writing, bind,
    print, emit, sftp_close, transport_close, set_handles.
  cbn [fst snd remote trace handles stdin next_id entered yielded c_id c_transport t_id].
  change (login _) with (MkLogin hostname port username).
  fold remote_str. rewrite Hm.
  cbn [fst snd remote trace handles stdin next_id].
  split_and!; [done|done|by rewrite <- app_assoc|].
  rewrite filter_idemp.
  change (HChannel (S (next_id w)) (next_id w) :: HTransport (next_id w) :: handles w)
    with ([HChannel (S (next_id w)) (next_id w); HTransport (next_id w)] ++ handles w).
  rewrite (close_restores w _ Hf). cbn.
  rewrite bool_decide_eq_true_2 by done.
  rewrite bool_decide_eq_false_2 by done. cbn.
  by rewrite bool_decide_eq_true_2.
Qed.

End MoreOperations.

(** ** More on the listing and the tree *)

Section MoreListing.
Context {Srv : Type} `{!Platform Srv}.

Lemma view_loop_world (c : SFTPClient) rs names out (w : World Srv) attrs_of :
  (∀ n, n ∈ names → srv_stat (remote w) (login c) (rs +:+ "/" +:+ n) = inr (attrs_of n)) →
  let r := view_loop c rs names out w in
  r.1 = Ok (out ++ stamped (clock w)
                     (List.map (λ n, (n, st_mtime (attrs_of n))) names)) ∧
  stdin r.2 = stdin w ∧
  remote r.2 = remote w ∧
  trace r.2 = trace w ++ List.map (λ n, EvStat (rs +:+ "/" +:+ n)) names.
Proof.
  revert out w. induction names as [|n names IH]; intros out w Hs.
  { cbn. by rewrite !app_nil_r. }
  cbn [view_loop]. unfold bind at 1. unfold sftp_stat, reading, bind, emit.
  cbn [remote fst snd].
  rewrite Hs by apply list_elem_of_here.
  cbn [List.map stamped].
  destruct (st_mtime (attrs_of n)) as [t|]; cbn [time_ctime].
  all: unfold bind, time_time, ret; cbn [fst snd].
  all: match goal with
       | |- context [view_loop _ _ _ ?o ?v] =>
           destruct (IH o v) as (Ho & Hi & Hr & Ht);
             [intros n' Hn'; apply Hs; by apply list_elem_of_further|]
       end.
  all: rewrite Ho, Hi, Hr, Ht; cbn; by rewrite <- !app_assoc.
Qed.

Lemma view_contents_run
    (w : World Srv) remote_dir hostname port username password names attrs_of :
  connects w hostname port username password →
  let who := MkLogin hostname port username in
  let remote_str := as_posix remote_dir in
  srv_listdir (remote w) who remote_str = inr names →
  (∀ n, n ∈ names →
     srv_stat (remote w) who (remote_str +:+ "/" +:+ n) = inr (attrs_of n)) →
  let r := view_contents remote_dir hostname port username password w in
  r.1 = Ok (stamped (clock w)
              (List.map (λ n, (n, st_mtime (attrs_of n))) (sorted names))) ∧
  stdin r.2 = stdin w ∧
  remote r.2 = remote w ∧
  trace r.2 = trace w ++
    EvListdir remote_str
    :: List.map (λ n, EvStat (remote_str +:+ "/" +:+ n)) (sorted names).
Proof.
  intros Hc who remote_str Hl Hs r. subst r. unfold view_contents. fold remote_str.
  rewrite sftp_connection_yields by done.
  pose proof (try_finally_close
    (view_body (yielded w hostname port username) remote_str)
    (yielded w hostname port username) (entered w)) as (Ho & Ht & Hr & Hi).
  rewrite Ho, Ht, Hr, Hi. clear Ho Ht Hr Hi.
  unfold view_body. unfold bind. unfold sftp_listdir, reading, bind, emit.
  cbn [remote fst snd entered].
  change (login (yielded w hostname port username)) with who. rewrite Hl.
  match goal with
  | |- context [view_loop ?c ?rs ?l ?o ?v] =>
      destruct (view_loop_world c rs l o v attrs_of) as (Ho & Hi & Hr & Ht)
  end.
  { intros n Hn. cbn [remote]. apply Hs.
    by rewrite <- (merge_sort_Permutation String.le names). }
  rewrite Ho, Hi, Hr, Ht. cbn. by rewrite <- app_assoc.
Qed.

(** X16.  The flat listing costs one [listdir] and then one [stat] per name,
    sent in ascending order of the names, each for the directory's string, a
    slash and the name (so two slashes in a row for the root directory); it
    reads no input and leaves the remote store alone. *)
Theorem view_contents_requests
    (w : World Srv) remote_dir hostname port username password names attrs_of :
  connects w hostname port username password →
  let who := MkLogin hostname port username in
  let remote_str := as_posix remote_dir in
  srv_listdir (remote w) who remote_str = inr names →
  (∀ n, n ∈ names →
     srv_stat (remote w) who (remote_str +:+ "/" +:+ n) = inr (attrs_of n)) →
  let r := view_contents remote_dir hostname port username password w in
  trace r.2 = trace w ++
    EvListdir remote_str
    :: List.map (λ n, EvStat (remote_str +:+ "/" +:+ n)) (sorted names) ∧
  length (stats (trace r.2)) = (length (stats (trace w)) + length names)%nat ∧
  stdin r.2 = stdin w ∧
  remote r.2 = remote w.
Proof.
  intros Hc who remote_str Hl Hs r.
  destruct (view_contents_run w remote_dir hostname port username password names attrs_of
              Hc Hl Hs) as (_ & Hi & Hr & Ht).
  fold r in Hi, Hr, Ht. split_and!; [done| |done|done].
  rewrite Ht, stats_app, length_app. f_equal. cbn.
  assert (Hst : ∀ l : list string,
            stats (List.map (λ n, EvStat (remote_str +:+ "/" +:+ n)) l) =
            List.map (λ n, remote_str +:+ "/" +:+ n) l).
  { induction l as [|x l IH]; [done|]. cbn. by rewrite <- IH. }
  rewrite Hst, length_map. unfold sorted.
  by rewrite (merge_sort_Permutation String.le names).
Qed.

Lemma view_loop_fails (c : SFTPClient) rs names out (w : World Srv) n e :
  n ∈ names →
  srv_stat (remote w) (login c) (rs +:+ "/" +:+ n) = inl e →
  ∃ e', (view_loop c rs names out w).1 = Raise e'.
Proof.
  intros Hn Hs. revert out w Hs.
  induction names as [|x names IH]; intros out w Hs; [by apply elem_of_nil in Hn|].
  cbn [view_loop]. unfold bind, sftp_stat, reading, bind, emit. cbn [remote fst snd].
  destruct (srv_stat (remote w) (login c) (rs +:+ "/" +:+ x)) as [ex|a] eqn:Hx;
    [by exists ex|].
  apply elem_of_cons in Hn as [->|Hn]; [congruence|].
  destruct (st_mtime a); cbn; by apply IH.
Qed.

(** X17.  The flat listing is all or nothing: when [stat] fails for any one
    of the listed names, [view_contents] raises and returns no partial list,
    and the [list] view of the shell ends the process with status 1. *)
Theorem view_contents_fails_as_a_whole
    (w : World Srv) remote_dir hostname port username password names n e :
  connects w hostname port username password →
  let who := MkLogin hostname port username in
  let remote_str := as_posix remote_dir in
  srv_listdir (remote w) who remote_str = inr names →
  n ∈ names →
  srv_stat (remote w) who (remote_str +:+ "/" +:+ n) = inl e →
  (∃ e', (view_contents remote_dir hostname port username password w).1 = Raise e') ∧
  (view "list" remote_dir hostname port username password w).1 = SysExit 1.
Proof.
  intros Hc who remote_str Hl Hn Hs.
  assert (Hv : ∃ e', (view_contents remote_dir hostname port username password w).1
                     = Raise e').
  { unfold view_contents. fold remote_str. rewrite sftp_connection_yields by done.
    pose proof (try_finally_close
      (view_body (yielded w hostname port username) remote_str)
      (yielded w hostname port username) (entered w)) as (Ho & _).
    rewrite Ho. unfold view_body. unfold bind. unfold sftp_listdir, reading, bind, emit.
    cbn [remote fst snd entered].
    change (login (yielded w hostname port username)) with who. rewrite Hl.
    apply (view_loop_fails _ _ _ _ _ n e); [|done].
    unfold sorted. by rewrite (merge_sort_Permutation String.le names). }
  split; [done|]. destruct Hv as [e' Hv].
  unfold view. rewrite bool_decide_eq_true_2 by done.
  unfold try_except, bind.
  destruct (view_contents _ _ _ _ _ w) as [o w1]. cbn in Hv. by subst o.
Qed.

End MoreListing.

Section Layout.
Context {Srv : Type} `{!Platform Srv}.

Lemma len_app (a b : string) : Str.len (a +:+ b) = (Str.len a + Str.len b)%nat.
Proof.
  induction a as [|c a IH]; [done|].
  change (String c a +:+ b) with (String c (a +:+ b)). cbn [Str.len]. cbv zeta.
  destruct (_ && _); lia.
Qed.

Lemma len_spaces (n : nat) : Str.len (Str.spaces n) = n.
Proof. induction n as [|n IH]; [done|]. cbn. by rewrite IH. Qed.

Lemma len_ljust (n : nat) (s : string) :
  Str.len (Str.ljust n s) = Nat.max n (Str.len s).
Proof. unfold Str.ljust. rewrite len_app, len_spaces. lia. Qed.

Lemma len_dashes (n : nat) : Str.len (Str.dashes n) = n.
Proof.
  unfold Str.dashes.
  induction n as [|n IH]; [done|]. cbn [replicate String.concat].
  destruct (replicate n "-") as [|x l] eqn:Hr.
  - by destruct n.
  - rewrite !len_app. cbn in *. by rewrite IH.
Qed.

Lemma len_File : Str.len "File" = 4%nat.
Proof. by vm_compute. Qed.

Lemma len_Last_Modified : Str.len "   Last Modified" = 16%nat.
Proof. by vm_compute. Qed.

Lemma foldr_max_elem (l : list nat) :
  l ≠ [] → foldr Nat.max 0%nat l ∈ l.
Proof.
  induction l as [|x l IH]; [done|]. intros _. cbn [foldr].
  destruct l as [|y l].
  - cbn. rewrite Nat.max_0_r. apply list_elem_of_here.
  - destruct (Nat.max_spec x (foldr Nat.max 0%nat (y :: l))) as [[_ ->]|[_ ->]].
    + apply list_elem_of_further. by apply IH.
    + apply list_elem_of_here.
Qed.

Lemma foldr_max_bound (l : list nat) (x : nat) :
  x ∈ l → (x ≤ foldr Nat.max 0 l)%nat.
Proof.
  induction l as [|y l IH]; [by intros ?%elem_of_nil|].
  intros [->|Hx]%elem_of_cons; cbn; [lia|]. specialize (IH Hx). lia.
Qed.

Lemma print_each_row (rows : list string) (w : World Srv) :
  for_each rows print w =
    (Ok tt, MkWorld (stdin w) (remote w) (trace w ++ List.map EvPrint rows)
              (handles w) (next_id w) (clock w)).
Proof.
  revert w. induction rows as [|x rows IH]; intros w.
  { cbn. rewrite app_nil_r. by destruct w. }
  cbn [for_each]. unfold bind, print at 1, emit. rewrite IH. cbn.
  by rewrite <- app_assoc.
Qed.

Lemma for_each_map {X Y} (f : X → Y) (l : list X) (body : Y → M Srv unit) :
  for_each l (λ x, body (f x)) = for_each (List.map f l) body.
Proof. induction l as [|x l IH]; [done|]. cbn. by rewrite IH. Qed.

Lemma prints_of_prints (rows : list string) : prints (List.map EvPrint rows) = rows.
Proof. induction rows as [|x rows IH]; [done|]. cbn. by rewrite <- IH at 2. Qed.

(** X18.  The table of the [list] view is a header, a rule and one row per
    entry, in the order of the entries.  The name column has one width for
    all of them, counted in characters: the greatest of 4 (the length of
    [File]) and the lengths of the names.  Every name is printed whole and
    padded with spaces to that width, so every date starts in the same
    column, three spaces after the name column; the rule is [width + 16]
    dashes, as many as the header has characters. *)
Theorem print_listing_layout (files : list (string * string)) (w : World Srv) :
  let r := print_listing files w in
  ∃ width,
    r.1 = Ok tt ∧
    prints (trace r.2) = prints (trace w) ++
      (Str.ljust width "File" +:+ "   Last Modified")
      :: Str.dashes (width + 16)
      :: List.map (λ f, Str.ljust width f.1 +:+ "   " +:+ f.2) files ∧
    (4 ≤ width)%nat ∧
    (width = 4%nat ∨ ∃ f, f ∈ files ∧ Str.len f.1 = width) ∧
    Forall (λ f, (Str.len f.1 ≤ width)%nat ∧
                 Str.ljust width f.1 = f.1 +:+ Str.spaces (width - Str.len f.1) ∧
                 Str.len (Str.ljust width f.1) = width) files ∧
    Str.ljust width "File" = "File" +:+ Str.spaces (width - 4) ∧
    Str.len (Str.ljust width "File" +:+ "   Last Modified") = (width + 16)%nat ∧
    Str.len (Str.dashes (width + 16)) = (width + 16)%nat.
Proof.
  intros r.
  set (width := foldr Nat.max 0%nat
                  (List.map (λ f : string * string, Str.len f.1)
                     (files ++ [("File", "")]))).
  set (header := Str.ljust width "File" +:+ "   Last Modified").
  set (rows := List.map (λ f : string * string, Str.ljust width f.1 +:+ "   " +:+ f.2)
                 files).
  assert (H4 : (4 ≤ width)%nat).
  { apply (foldr_max_bound _ 4%nat). rewrite List.map_app. cbn.
    apply elem_of_app. right. apply list_elem_of_here. }
  assert (Hh : Str.len header = (width + 16)%nat).
  { subst header. rewrite len_app, len_ljust, len_File, len_Last_Modified. lia. }
  assert (Hrun : r = (Ok tt, MkWorld (stdin w) (remote w)
                               (trace w ++ EvPrint header
                                  :: EvPrint (Str.dashes (width + 16))
                                  :: List.map EvPrint rows)
                               (handles w) (next_id w) (clock w))).
  { subst r. unfold print_listing. fold width. fold header. rewrite Hh.
    rewrite (for_each_map (λ f, Str.ljust width f.1 +:+ "   " +:+ f.2) files print).
    fold rows. unfold bind. unfold print at 1, emit at 1. cbv beta iota.
    unfold print at 1, emit at 1. cbv beta iota.
    rewrite print_each_row. cbn [fst snd trace stdin remote handles next_id].
    by rewrite <- !app_assoc. }
  assert (Hw : ∀ f, f ∈ files → (Str.len f.1 ≤ width)%nat).
  { intros f Hf. apply foldr_max_bound. rewrite List.map_app.
    apply elem_of_app. left. apply list_elem_of_In, List.in_map_iff.
    exists f. split; [done|by apply list_elem_of_In]. }
  assert (Hmax : width = 4%nat ∨ ∃ f, f ∈ files ∧ Str.len f.1 = width).
  { assert (Hin : width ∈ List.map (λ f : string * string, Str.len f.1)
                            (files ++ [("File", "")])).
    { apply foldr_max_elem. rewrite List.map_app. by intros [_ ?]%app_eq_nil. }
    rewrite List.map_app in Hin. apply elem_of_app in Hin as [Hin|Hin].
    - right. apply list_elem_of_In, List.in_map_iff in Hin as (f & Hf & Hin).
      exists f. split; [by apply list_elem_of_In|done].
    - left. cbn in Hin. apply elem_of_cons in Hin as [Hin|Hin]; [done|].
      by apply elem_of_nil in Hin. }
  exists width. rewrite Hrun. cbn [fst snd trace].
  split_and!; [done| |done|done| |done| |].
  - rewrite prints_app. cbn. by rewrite prints_of_prints.
  - apply Forall_forall. intros f Hf. specialize (Hw f Hf).
    split_and!; [done|done|]. rewrite len_ljust. lia.
  - exact Hh.
  - apply len_dashes.
Qed.

End Layout.

Section MoreTree.
Context {Srv : Type} `{!Platform Srv}.

(** X19.  An empty remote directory is no error.  The flat listing returns
    the empty list, for which the table is the header [File   Last Modified]
    and a rule of 20 dashes; the tree printer prints the root line alone. *)
Theorem empty_directory
    (w : World Srv) remote_dir hostname port username password :
  connects w hostname port username password →
  (0 < recursion_limit)%nat →
  let who := MkLogin hostname port username in
  srv_listdir (remote w) who (as_posix remote_dir) = inr [] →
  srv_listdir (remote w) who (Str.rstrip_slash (as_posix remote_dir)) = inr [] →
  (view_contents remote_dir hostname port username password w).1 = Ok [] ∧
  prints (trace (print_listing [] w).2) =
    prints (trace w) ++ ["File   Last Modified"; "--------------------"] ∧
  (stfp_formatter hostname port username password remote_dir w).1 = Ok tt ∧
  prints (trace (stfp_formatter hostname port username password remote_dir w).2) =
    prints (trace w) ++ [Str.rstrip_slash (as_posix remote_dir) +:+ "/"].
Proof.
  intros Hc Hlim who Hl Hl'.
  destruct (view_contents_run w remote_dir hostname port username password []
              (λ _, Attrs 0 None) Hc Hl) as (Ho & _).
  { by intros n Hn%elem_of_nil. }
  assert (Hsnap : snapshot recursion_limit (remote w) who
                    (Str.rstrip_slash (as_posix remote_dir)) = Some []).
  { destruct recursion_limit; [lia|]. cbn [snapshot]. by rewrite Hl'. }
  destruct (stfp_formatter_draws w hostname port username password remote_dir []
              Hc Hsnap) as (Hr & _ & Hp).
  split_and!; [exact Ho| |exact Hr|exact Hp].
  unfold print_listing, bind, print, emit. cbn. rewrite !prints_app. cbn.
  by rewrite <- !app_assoc.
Qed.

Lemma walk_starts_with_listdir depth (c : SFTPClient) path prefix (w : World Srv) :
  ∃ later, trace (_walk (S depth) c path prefix w).2 = trace w ++ EvListdir path :: later.
Proof.
  cbn [_walk]. unfold bind at 1. unfold sftp_listdir, reading.
  unfold bind at 1. unfold emit at 1. cbv beta iota. cbn [remote].
  destruct (srv_listdir _ _ _) as [err|names]; [by exists []|].
  set (w1 := MkWorld _ _ _ _ _ _).
  assert (Hst : steady (for_each (enumerate (sorted names))
                  (λ ie, walk_entry (_walk depth c) c path prefix
                           (length (sorted names)) ie.1 ie.2))).
  { apply steady_for_each. intros ie.
    unfold walk_entry, sftp_stat, print. steady. apply steady_walk. }
  destruct (Hst w1) as [[added Ha] _]. exists added.
  rewrite Ha. subst w1. cbn [trace]. by rewrite <- app_assoc.
Qed.

Lemma trace_try_finally_close {A} (m : M Srv A) (c : SFTPClient) (w : World Srv) :
  trace (try_finally m (sftp_close c) w).2 = trace (m w).2.
Proof.
  unfold try_finally, sftp_close, set_handles. by destruct (m w) as [o w'].
Qed.

(** X20.  For the root directory the tree printer strips the only slash of
    the path: it prints the root line ["/"] and then lists the empty path
    [""], not ["/"]; what that empty path means is left to the server. *)
Theorem tree_of_root_lists_empty_path
    (w : World Srv) remote_dir hostname port username password :
  connects w hostname port username password →
  (0 < recursion_limit)%nat →
  parts remote_dir = [] →
  root remote_dir = "/" ∨ root remote_dir = "//" →
  ∃ later,
    trace (stfp_formatter hostname port username password remote_dir w).2 =
      trace w ++ [EvPrint "/"; EvListdir ""] ++ later.
Proof.
  intros Hc Hlim Hp Hroot. unfold stfp_formatter.
  assert (Hr : Str.rstrip_slash (as_posix remote_dir) = "").
  { unfold as_posix. rewrite Hp. by destruct Hroot as [-> | ->]. }
  rewrite Hr. rewrite sftp_connection_yields by done.
  pose proof (try_finally_close
    (formatter_body (yielded w hostname port username) "")
    (yielded w hostname port username) (entered w)) as (_ & Ht & _).
  rewrite Ht. clear Ht.
  destruct recursion_limit as [|limit] eqn:Hlimit; [lia|].
  unfold formatter_body. rewrite Hlimit.
  rewrite trace_try_finally_close.
  unfold bind. unfold print at 1, emit at 1. cbv beta iota.
  set (w1 := MkWorld _ _ _ _ _ _).
  destruct (walk_starts_with_listdir limit (yielded w hostname port username) "" "" w1)
    as [later Hl].
  exists later. rewrite Hl. subst w1. cbn [trace entered]. by rewrite <- app_assoc.
Qed.

End MoreTree.

(** ** The restart questions *)

Section Restart.
Context {Srv : Type} `{!Platform Srv}.

(** X21.  Of the answers to [Continue?] that are not [exit], only [no] (in
    any letter case, white space aside) ends the loop, with [Goodbye!].
    Any other continues: the shell then asks about the credentials, and
    every answer to that question other than [no] and [exit] keeps them,
    [yes] silently and anything else after an error record, without asking
    again. *)
Theorem restart_logic_continues_unless_no h u p (w : World Srv) l1 rest :
  stdin w = l1 :: rest →
  Str.lower (Str.strip l1) ≠ "exit" →
  (Str.lower (Str.strip l1) = "no" →
     restart_logic h u p w =
       (Ok Break,
        MkWorld rest (remote w)
          (trace w ++ [EvPrompt "Continue? (yes/no): "; EvLog INFO "Goodbye!" []])
          (handles w) (next_id w) (clock w))) ∧
  (∀ l2 rest',
     Str.lower (Str.strip l1) ≠ "no" →
     rest = l2 :: rest' →
     Str.lower (Str.strip l2) ≠ "exit" →
     Str.lower (Str.strip l2) ≠ "no" →
     restart_logic h u p w =
       (Ok (Continue h u p),
        MkWorld rest' (remote w)
          (trace w ++
             [EvPrompt "Continue? (yes/no): ";
              EvPrompt "Proceed with the same sFTP credentials? (yes/no): "] ++
             if Str.lower (Str.strip l2) == "yes" then []
             else [EvLog ERROR "Invalid answer-please enter 'yes', or 'no'." []])
          (handles w) (next_id w) (clock w))).
Proof.
  intros Hi He. split.
  - intros Hno. unfold restart_logic. unfold bind at 1.
    rewrite (ask_answer _ l1 rest) by done. rewrite strip_idemp, Hno.
    rewrite bool_decide_eq_true_2 by done.
    unfold bind, log, emit, ret. cbn. by rewrite <- app_assoc.
  - intros l2 rest' Hno -> He2 Hno2. unfold restart_logic. unfold bind at 1.
    rewrite (ask_answer _ l1 (l2 :: rest')) by done. rewrite strip_idemp.
    rewrite (bool_decide_eq_false_2 (Str.lower (Str.strip l1) = "no")) by done.
    unfold bind at 1. rewrite (ask_answer _ l2 rest') by done. rewrite strip_idemp.
    rewrite (bool_decide_eq_false_2 (Str.lower (Str.strip l2) = "no")) by done.
    destruct (bool_decide (Str.lower (Str.strip l2) = "yes")).
    + unfold ret. cbn. by rewrite <- app_assoc.
    + unfold bind, log, emit, ret. cbn. by rewrite <- !app_assoc.
Qed.

(** X22.  After [no] to the question about the credentials the shell reads
    host, user name and password anew (none of them answered with [exit]),
    and the next iteration runs with these three, each without surrounding
    white space. *)
Theorem restart_logic_reads_new_credentials
    h u p (w : World Srv) l1 l2 h' u' p' rest :
  stdin w = l1 :: l2 :: h' :: u' :: p' :: rest →
  Str.lower (Str.strip l1) ≠ "exit" → Str.lower (Str.strip l1) ≠ "no" →
  Str.lower (Str.strip l2) = "no" →
  Str.lower (Str.strip h') ≠ "exit" →
  Str.lower (Str.strip u') ≠ "exit" →
  Str.lower (Str.strip p') ≠ "exit" →
  restart_logic h u p w =
    (Ok (Continue (Str.strip h') (Str.strip u') (Str.strip p')),
     MkWorld rest (remote w)
       (trace w ++
          [EvPrompt "Continue? (yes/no): ";
           EvPrompt "Proceed with the same sFTP credentials? (yes/no): ";
           EvLog INFO "Please reenter sFTP credentials:" [];
           EvPrompt "Host: "; EvPrompt "Username: "; EvPrompt "Password: "])
       (handles w) (next_id w) (clock w)).
Proof.
  intros Hi He1 Hno1 Hno2 Heh Heu Hep. unfold restart_logic. unfold bind at 1.
  rewrite (ask_answer _ l1 (l2 :: h' :: u' :: p' :: rest)) by done.
  rewrite strip_idemp.
  rewrite (bool_decide_eq_false_2 (Str.lower (Str.strip l1) = "no")) by done.
  unfold bind at 1.
  rewrite (ask_answer _ l2 (h' :: u' :: p' :: rest)) by (by rewrite ?Hno2).
  rewrite strip_idemp, Hno2.
  rewrite bool_decide_eq_false_2 by done. rewrite bool_decide_eq_true_2 by done.
  unfold bind at 1. unfold log at 1, emit at 1. cbv beta iota.
  unfold bind at 1. rewrite (ask_answer _ h' (u' :: p' :: rest)) by done.
  unfold bind at 1. rewrite (ask_answer _ u' (p' :: rest)) by done.
  unfold bind at 1. rewrite (ask_answer _ p' rest) by done.
  rewrite (strip_idemp h'), (strip_idemp p'). unfold ret. cbn.
  by rewrite <- !app_assoc.
Qed.

End Restart.

(** ** The CSV export *)

Section Csv.
Context {Srv : Type} `{!Platform Srv}.

(** X23.  In the [csv] view the listing is taken outside any [try]: when
    [view_contents] raises, the exception leaves the shell uncaught and no
    error record is written, whereas the [list] view logs a
    [Failed to list directory] record and calls [sys.exit(1)]. *)
Theorem csv_view_does_not_catch_listing_failure
    (w : World Srv) remote_dir h port u p e :
  (view_contents remote_dir h port u p w).1 = Raise e →
  let w1 := (view_contents remote_dir h port u p w).2 in
  view "csv" remote_dir h port u p w = (Raise e, w1) ∧
  view "list" remote_dir h port u p w =
    (SysExit 1,
     MkWorld (stdin w1) (remote w1)
       (trace w1 ++ [EvLog ERROR "Failed to list directory: {e}" [str_error e]])
       (handles w1) (next_id w1) (clock w1)).
Proof.
  intros Hv w1. subst w1. unfold view.
  rewrite (bool_decide_eq_false_2 ("csv" = "list")) by done.
  rewrite (bool_decide_eq_false_2 ("csv" = "tree")) by done.
  rewrite !bool_decide_eq_true_2 by done.
  unfold try_except, bind, log, emit, sys_exit.
  destruct (view_contents remote_dir h port u p w) as [o w1]. cbn in *. by subst o.
Qed.

(** X24.  The [csv] view writes what the flat listing returned: the header
    row [File], [Last Modified] and then one row per name, in ascending
    order of the names, with the time the listing gives for it, to the path
    the operator typed; it then logs the number of entries and returns.
    When writing fails nothing is recorded as written: one
    [Failed to write csv] record, then [sys.exit(1)]. *)
Theorem csv_view_writes_the_listing
    (w : World Srv) remote_dir hostname port username password names attrs_of line rest :
  connects w hostname port username password →
  let who := MkLogin hostname port username in
  let remote_str := as_posix remote_dir in
  srv_listdir (remote w) who remote_str = inr names →
  (∀ n, n ∈ names →
     srv_stat (remote w) who (remote_str +:+ "/" +:+ n) = inr (attrs_of n)) →
  stdin w = line :: rest →
  Str.lower (Str.strip line) ≠ "exit" →
  let out_file := posix_path (Str.strip line) in
  let content :=
    ["File"; "Last Modified"]
    :: List.map (λ r, [r.1; r.2])
         (stamped (clock w)
            (List.map (λ n, (n, st_mtime (attrs_of n))) (sorted names))) in
  let requests :=
    EvListdir remote_str
    :: List.map (λ n, EvStat (remote_str +:+ "/" +:+ n)) (sorted names) in
  let r := view "csv" remote_dir hostname port username password w in
  match write_csv out_file content with
  | None =>
      r.1 = Ok tt ∧
      trace r.2 = trace w ++ requests ++
        [EvPrompt "Output csv file path: ";
         EvCsv (as_posix out_file) content;
         EvLog INFO "Wrote {len(rows)} entries to {output_path}"
           [pretty (length names); as_posix out_file]]
  | Some e =>
      r.1 = SysExit 1 ∧
      trace r.2 = trace w ++ requests ++
        [EvPrompt "Output csv file path: ";
         EvLog ERROR "Failed to write csv: {e}" [str_error e]]
  end.
Proof.
  intros Hc who remote_str Hl Hs Hi He out_file content requests r.
  destruct (view_contents_run w remote_dir hostname port username password names attrs_of
              Hc Hl Hs) as (Ho & Hin & Hr & Ht).
  fold remote_str requests in Ht.
  set (rows := stamped (clock w)
                 (List.map (λ n, (n, st_mtime (attrs_of n))) (sorted names))) in *.
  set (w1 := (view_contents remote_dir hostname port username password w).2) in *.
  assert (Hrun : view "csv" remote_dir hostname port username password w =
            try_except (output_csv rows out_file) is_Exception
              (λ e, log ERROR "Failed to write csv: {e}" [str_error e] ;; sys_exit 1)
              (MkWorld rest (remote w1) (trace w1 ++ [EvPrompt "Output csv file path: "])
                 (handles w1) (next_id w1) (clock w1))).
  { unfold view.
    rewrite (bool_decide_eq_false_2 ("csv" = "list")) by done.
    rewrite (bool_decide_eq_false_2 ("csv" = "tree")) by done.
    rewrite bool_decide_eq_true_2 by done.
    unfold bind at 1. subst w1.
    destruct (view_contents remote_dir hostname port username password w) as [o w1].
    cbn [fst snd] in *. subst o.
    unfold bind at 1. by rewrite (ask_answer _ line rest) by (by rewrite ?Hin). }
  subst r. rewrite Hrun. clear Hrun.
  unfold try_except, output_csv.
  fold content.
  assert (Hlen : length rows = length names).
  { subst rows. rewrite <- (length_map fst), stamped_names, !length_map. unfold sorted.
    by rewrite (merge_sort_Permutation String.le names). }
  rewrite Hlen.
  destruct (write_csv out_file content) as [e|].
  - unfold raise, bind, log, emit, sys_exit. cbn. rewrite Ht.
    by rewrite <- !app_assoc.
  - unfold bind, log, emit. cbn. rewrite Ht. by rewrite <- !app_assoc.
Qed.

End Csv.

(** ** More on uploads *)

Section MoreUpload.
Context {Srv : Type} `{!Platform Srv}.

Lemma sftp_connection_refused {A} (body : SFTPClient → M Srv A)
    (w : World Srv) host port username password e :
  tcp_connect (remote w) host port = None →
  ssh_connect (remote w) host port username password = Some e →
  sftp_connection host port username password body w =
    (Raise e,
     MkWorld (stdin w) (remote w) (trace w)
       (HTransport (next_id w) :: handles w) (S (next_id w)) (clock w)).
Proof.
  intros Htcp Hssh.
  unfold sftp_connection, bind, new_transport, transport_connect.
  rewrite Htcp. cbn. by rewrite Hssh.
Qed.

(** X25.  [upload_file] reports success exactly when [put] succeeded: for a
    valid local file and an established session it returns normally, and
    logs [Upload completed successfully.], if and only if the server
    accepted the [put]; otherwise the exception of [put] leaves
    [upload_file] and that record is not written. *)
Theorem upload_reports_success_only_when_put_succeeds
    (w : World Srv) local_path remote_dir hostname port username password :
  let lp := posix_path (expanduser_resolve local_path) in
  path_exists lp = true →
  path_is_file lp = true →
  connects w hostname port username password →
  let transfer :=
    srv_put (remote w) (MkLogin hostname port username) (as_posix lp)
      (as_posix (truediv remote_dir (name lp))) true in
  let r := upload_file local_path remote_dir hostname port username password w in
  let logged := drop (length (trace w)) (trace r.2) in
  (r.1 = Ok tt ↔ transfer.1 = None) ∧
  (EvLog INFO "Upload completed successfully." [] ∈ logged ↔ transfer.1 = None) ∧
  (∀ e, transfer.1 = Some e → r.1 = Raise e).
Proof.
  intros lp He Hf Hc transfer r logged.
  destruct (upload_file_run w local_path remote_dir hostname port username password
              He Hf Hc) as (Ho & _ & Ht).
  fold lp in Ho, Ht. fold transfer in Ho, Ht. fold r in Ho, Ht.
  subst logged. rewrite Ht, drop_app_length. rewrite Ho.
  destruct (transfer.1) as [e|].
  - split_and!.
    + by split.
    + split; [|done]. intros Hin.
      repeat (apply elem_of_cons in Hin as [Hin|Hin]; [discriminate Hin|]).
      destruct (upload_caught e).
      * apply elem_of_cons in Hin as [Hin|Hin]; [discriminate Hin|].
        by apply elem_of_nil in Hin.
      * by apply elem_of_nil in Hin.
    + by intros e' [= ->].
  - split_and!.
    + by split.
    + split; [done|]. intros _. do 3 apply list_elem_of_further. by constructor.
    + by intros e' [=].
Qed.

(** X26.  When the server rejects the sign-in during the [upload] command,
    nothing is sent: [upload_file] logs [An exception has occured!] itself if
    the exception is one of the four it names
    ([PasswordRequiredException], [AuthenticationException],
    [BadHostKeyException], [ChannelException]) and raises it again; the
    shell adds [Upload failed] and calls [sys.exit(1)].  The record
    [Uploading ...] is never written, as it is logged inside the session. *)
Theorem upload_command_sign_in_failure
    (w : World Srv) h port u p l1 l2 rest e :
  stdin w = l1 :: l2 :: rest →
  Str.lower (Str.strip l1) ≠ "exit" →
  Str.lower (Str.strip l2) ≠ "exit" →
  let lp := posix_path (expanduser_resolve (posix_path (Str.strip l1))) in
  path_exists lp = true →
  path_is_file lp = true →
  tcp_connect (remote w) h port = None →
  ssh_connect (remote w) h port u p = Some e →
  let r := command "upload" h port u p w in
  r.1 = SysExit 1 ∧
  stdin r.2 = rest ∧
  remote r.2 = remote w ∧
  trace r.2 = trace w ++
    [EvPrompt "Local file to upload: "; EvPrompt "Remote directory: ";
     EvLog INFO "Paths found and valid, starting upload." []] ++
    (if upload_caught e
     then [EvLog ERROR "An exception has occured! Error {e}" [str_error e]] else []) ++
    [EvLog ERROR "Upload failed: {e}" [str_error e]].
Proof.
  intros Hi He1 He2 lp Hx Hf Htcp Hssh r.
  assert (Hrun : r =
    try_except
      (upload_file (posix_path (Str.strip l1)) (posix_path (Str.strip (Str.strip l2)))
         h port u p)
      is_Exception
      (λ e, log ERROR "Upload failed: {e}" [str_error e] ;; sys_exit 1)
      (MkWorld rest (remote w)
         ((trace w ++ [EvPrompt "Local file to upload: "]) ++ [EvPrompt "Remote directory: "])
         (handles w) (next_id w) (clock w))).
  { subst r. unfold command. rewrite bool_decide_eq_true_2 by done.
    unfold bind at 1. rewrite (ask_answer _ l1 (l2 :: rest)) by done.
    unfold bind at 1. by rewrite (ask_answer _ l2 rest) by done. }
  clearbody r.
  set (w1 := MkWorld _ _ _ _ _ _) in Hrun.
  assert (Hup : upload_file (posix_path (Str.strip l1))
                  (posix_path (Str.strip (Str.strip l2))) h port u p w1 =
    try_except
      (sftp_connection h port u p (λ sftp,
         upload_body sftp lp (posix_path (Str.strip (Str.strip l2)))
           (as_posix (truediv (posix_path (Str.strip (Str.strip l2))) (name lp)))))
      upload_caught
      (λ e, log ERROR "An exception has occured! Error {e}" [str_error e] ;; raise e)
      (MkWorld (stdin w1) (remote w1)
         (trace w1 ++ [EvLog INFO "Paths found and valid, starting upload." []])
         (handles w1) (next_id w1) (clock w1))).
  { unfold upload_file. fold lp. by rewrite Hx, Hf. }
  unfold try_except at 1 in Hrun. rewrite Hup in Hrun. clear Hup.
  unfold try_except in Hrun.
  rewrite sftp_connection_refused with (e := e) in Hrun by done.
  subst w1 r. unfold bind, log, emit, raise, sys_exit.
  destruct (upload_caught e); cbn; split_and!; try done;
    by rewrite <- !app_assoc.
Qed.

End MoreUpload.

(** ** The further properties on the in-memory server *)

Ltac evaluated := vm_compute; first [reflexivity | discriminate | done].

Section FurtherRuns.
#[local] Existing Instance Mem.here.

(** [ExIt] between blanks at the prompt for the host. *)
Lemma ask_honours_exit_witness :
  ask "Host: " (Mem.world ["  ExIt "; "never read"]) =
    (SysExit 0,
     MkWorld ["never read"] Mem.bucket [EvPrompt "Host: "; EvLog INFO "Goodbye!" []] [] 0 Mem.wall_clock) ∧
  exit_status (ask "Host: " (Mem.world ["  ExIt "; "never read"])).1 = 0%Z.
Proof.
  refine (ask_honours_exit "Host: " "  ExIt " ["never read"]
            (Mem.world ["  ExIt "; "never read"]) _ _); evaluated.
Defined.

(** White space beyond ASCII is stripped like a blank. *)
Lemma strip_beyond_ascii :
  Str.lower (Str.strip (Mem.nbsp +:+ "View " +:+ Mem.em_space)) = "view" ∧
  Str.lower (Str.strip (" " +:+ Mem.em_space +:+ "EXIT" +:+ Mem.nbsp)) = "exit" ∧
  Str.len (Mem.nbsp +:+ "a" +:+ Mem.em_space) = 3%nat.
Proof. by vm_compute. Qed.

(** A remote directory typed after a no-break space and before an em space
    and a blank. *)
Lemma ask_returns_clean_answer_witness :
  let line := Mem.nbsp +:+ "/home/reports" +:+ Mem.em_space +:+ " " in
  let w := Mem.world [line; "list"] in
  let w' := MkWorld ["list"] Mem.bucket [EvPrompt "Remote directory: "] [] 0 Mem.wall_clock in
  Str.strip "/home/reports" = "/home/reports" ∧
  bool_decide (Str.lower "/home/reports" = "exit") = false ∧
  ∃ line, stdin w = line :: stdin w' ∧ "/home/reports" = Str.strip line ∧
          trace w' = trace w ++ [EvPrompt "Remote directory: "] ∧ remote w' = remote w ∧
          handles w' = handles w.
Proof.
  intros line w w'.
  refine (ask_returns_clean_answer "Remote directory: " w w' "/home/reports" _).
  evaluated.
Defined.

(** [VIEW] between blanks is the command [view]. *)
Lemma command_line_is_normalised_witness :
  iteration "sftp.example.org" 22 "district" "secret"
    (with_stdin (Mem.world []) ["  VIEW "; "/home"; "list"; "no"]) =
  iteration "sftp.example.org" 22 "district" "secret"
    (with_stdin (Mem.world []) ["view"; "/home"; "list"; "no"]).
Proof.
  refine (command_line_is_normalised "sftp.example.org" 22 "district" "secret"
            (Mem.world []) "  VIEW " "view" ["/home"; "list"; "no"] _).
  evaluated.
Defined.

(** There is no command [download]. *)
Lemma unknown_command_is_fatal_witness :
  iteration "sftp.example.org" 22 "district" "secret" (Mem.world ["Download"; "no"]) =
    (SysExit 1,
     MkWorld ["no"] Mem.bucket
       [EvPrompt choice_prompt;
        EvLog ERROR
          "Invalid choice {choice!r}; please enter 'upload', 'delete', 'folder' or 'view'."
          ["download"]] [] 0 Mem.wall_clock).
Proof.
  refine (unknown_command_is_fatal "sftp.example.org" 22 "district" "secret"
            (Mem.world ["Download"; "no"]) "Download" ["no"] _ _ _ _ _ _); evaluated.
Defined.

(** There is no view mode [table]. *)
Lemma unknown_view_mode_is_fatal_witness :
  iteration "sftp.example.org" 22 "district" "secret"
    (Mem.world ["view"; "/home"; "table"; "no"]) =
    (SysExit 1,
     MkWorld ["no"] Mem.bucket
       [EvPrompt choice_prompt; EvPrompt "Remote directory to list: ";
        EvPrompt view_prompt;
        EvLog ERROR "Invalid view mode—please enter 'list', 'tree', or 'csv'." []] [] 0 Mem.wall_clock).
Proof.
  refine (unknown_view_mode_is_fatal "sftp.example.org" 22 "district" "secret"
            (Mem.world ["view"; "/home"; "table"; "no"]) "view" "/home" "table" ["no"]
            _ _ _ _ _ _ _); evaluated.
Defined.

(** Nothing is typed at all. *)
Lemma end_of_input_is_uncaught_witness :
  iteration "sftp.example.org" 22 "district" "secret" (Mem.world []) =
    (Raise EOFError, MkWorld [] Mem.bucket [EvPrompt choice_prompt] [] 0 Mem.wall_clock) ∧
  main (Mem.world []) =
    (Raise EOFError, MkWorld [] Mem.bucket [EvPrint banner; EvPrompt "Host: "] [] 0 Mem.wall_clock) ∧
  exit_status (main (Mem.world [])).1 = 1%Z.
Proof.
  refine (end_of_input_is_uncaught "sftp.example.org" 22 "district" "secret"
            (Mem.world []) _).
  reflexivity.
Defined.

Lemma missing_is_no_file :
  path_exists (posix_path (expanduser_resolve (posix_path "/tmp/missing.csv"))) &&
  path_is_file (posix_path (expanduser_resolve (posix_path "/tmp/missing.csv"))) = false.
Proof. by vm_compute. Qed.

(** The local file [/tmp/missing.csv] does not exist. *)
Lemma upload_file_rejects_bad_local_path_witness :
  upload_file (posix_path "/tmp/missing.csv") (posix_path "/home")
    "sftp.example.org" 22 "district" "secret" (Mem.world []) =
    (Raise (FileNotFoundError "/tmp/missing.csv not found or not a file"),
     MkWorld [] Mem.bucket
       [EvLog ERROR "File path is not valid or isn’t a file: {local_path}"
          ["/tmp/missing.csv"]] [] 0 Mem.wall_clock).
Proof.
  exact (upload_file_rejects_bad_local_path (Mem.world []) (posix_path "/tmp/missing.csv")
           (posix_path "/home") "sftp.example.org" 22 "district" "secret"
           missing_is_no_file).
Defined.

Lemma b_txt_rmdir_fails :
  srv_rmdir (remote (Mem.world [])) district (as_posix (posix_path "/home/b.txt")) =
    (Some Mem.failure, Mem.bucket).
Proof. by vm_compute. Qed.

(** The deletion type ["folder"] for the file [/home/b.txt]: the request
    goes out and the server refuses it. *)
Lemma delete_folder_sends_rmdir_unchecked_witness :
  let r := delete (posix_path "/home/b.txt") "sftp.example.org" 22 "district" "secret"
             "folder" (Mem.world []) in
  r.1 = Raise Mem.failure ∧
  remote r.2 = Mem.bucket ∧
  trace r.2 = [EvRmdir "/home/b.txt"].
Proof.
  intros r.
  pose proof (delete_folder_sends_rmdir_unchecked (Mem.world [])
                (posix_path "/home/b.txt") "sftp.example.org" 22 "district" "secret"
                (bucket_connects [])) as H.
  cbv zeta in H. change (MkLogin "sftp.example.org" 22 "district") with district in H.
  rewrite b_txt_rmdir_fails in H. exact H.
Defined.

(** A body that asks for the attributes of [/home]. *)
Lemma session_is_released_after_yield_witness :
  let r := sftp_connection "sftp.example.org" 22 "district" "secret"
             (λ sftp, sftp_stat sftp "/home") (Mem.world []) in
  (HTransport 0 ∉ handles r.2) ∧
  (HChannel 1 0 ∉ handles r.2) ∧
  handles r.2 = [].
Proof.
  intros r.
  destruct (session_is_released_after_yield (λ sftp, sftp_stat sftp "/home")
              (Mem.world []) "sftp.example.org" 22 "district" "secret"
              (bucket_connects [])) as (Ht & Hc & Hh).
  split; [exact Ht|split; [exact Hc|]].
  apply Hh; [by constructor|reflexivity].
Defined.

(** The host [nowhere.example.org] cannot be reached. *)
Lemma folder_command_connection_failure_is_fatal_witness :
  let e := IOError "[Errno -2] Name or service not known" in
  let w := Mem.world [" /home/new "; "no"] in
  (create_dir (posix_path "/home/new") "nowhere.example.org" 22 "district" "secret" w).1 =
    Raise e ∧
  command "folder" "nowhere.example.org" 22 "district" "secret" w =
    (SysExit 1,
     MkWorld ["no"] Mem.bucket
       [EvPrompt "New remote directory: ";
        EvLog ERROR "Folder creation failed: {e}" ["[Errno -2] Name or service not known"]]
       [] 0 Mem.wall_clock).
Proof.
  intros e w.
  refine (folder_command_connection_failure_is_fatal w "nowhere.example.org" 22
            "district" "secret" " /home/new " ["no"] e _ _ _); evaluated.
Defined.

Lemma home_new_mkdir :
  srv_mkdir (remote (Mem.world [])) district (as_posix (posix_path "/home/new")) =
    (None, Mem.with_nodes Mem.bucket
             (<["/home/new" := Attrs Mem.dir_mode (Some 0%Z)]> (Mem.nodes Mem.bucket))).
Proof. by vm_compute. Qed.

(** The folder [/home/new] does not exist yet. *)
Lemma create_dir_success_witness :
  let r := create_dir (posix_path "/home/new") "sftp.example.org" 22 "district" "secret"
             (Mem.world []) in
  r.1 = Ok tt ∧
  remote r.2 =
    Mem.with_nodes Mem.bucket
      (<["/home/new" := Attrs Mem.dir_mode (Some 0%Z)]> (Mem.nodes Mem.bucket)) ∧
  trace r.2 =
    [EvMkdir "/home/new";
     EvPrint "Folder '/home/new' created successfully on sftp.example.org"] ∧
  handles r.2 = [].
Proof.
  intros r.
  refine (create_dir_success (Mem.world []) (posix_path "/home/new")
            "sftp.example.org" 22 "district" "secret" _
            (bucket_connects []) _ home_new_mkdir).
  by constructor.
Defined.

(** The flat listing of [/home]: one [listdir], three [stat]. *)
Lemma view_contents_requests_witness :
  let r := view_contents (posix_path "/home") "sftp.example.org" 22 "district" "secret"
             (Mem.world ["next"]) in
  trace r.2 =
    [EvListdir "/home"; EvStat "/home/a.csv"; EvStat "/home/b.txt"; EvStat "/home/reports"] ∧
  length (stats (trace r.2)) = 3%nat ∧
  stdin r.2 = ["next"] ∧
  remote r.2 = Mem.bucket.
Proof.
  intros r.
  exact (view_contents_requests (Mem.world ["next"]) (posix_path "/home")
           "sftp.example.org" 22 "district" "secret" _ _
           (bucket_connects ["next"]) home_listdir home_stat).
Defined.

Lemma root_listdir : srv_listdir Mem.bucket district "/" = inr ["home"].
Proof. by vm_compute. Qed.

Lemma root_stat_fails :
  srv_stat Mem.bucket district ("/" +:+ "/" +:+ "home") = inl Mem.no_such_file.
Proof. by vm_compute. Qed.

(** The flat listing of [/] asks for the attributes of [//home], a name
    that the in-memory server does not resolve. *)
Lemma view_contents_fails_as_a_whole_witness :
  (∃ e', (view_contents (posix_path "/") "sftp.example.org" 22 "district" "secret"
            (Mem.world [])).1 = Raise e') ∧
  (view "list" (posix_path "/") "sftp.example.org" 22 "district" "secret"
     (Mem.world [])).1 = SysExit 1.
Proof.
  refine (view_contents_fails_as_a_whole (Mem.world []) (posix_path "/")
            "sftp.example.org" 22 "district" "secret" ["home"] "home" Mem.no_such_file
            (bucket_connects []) root_listdir _ root_stat_fails).
  by constructor.
Defined.

Lemma fresh_bucket_connects :
  connects (MkWorld [] Mem.fresh_bucket [] [] 0 Mem.wall_clock) "sftp.example.org" 22 "district" "secret".
Proof. by repeat split. Qed.

Lemma new_listdir :
  srv_listdir Mem.fresh_bucket district (as_posix (posix_path "/new/")) = inr [].
Proof. by vm_compute. Qed.

Lemma new_listdir_stripped :
  srv_listdir Mem.fresh_bucket district (Str.rstrip_slash (as_posix (posix_path "/new/")))
    = inr [].
Proof. by vm_compute. Qed.

Lemma limit_positive : (0 < recursion_limit)%nat.
Proof. cbn. lia. Qed.

(** The empty folder [/new]. *)
Lemma empty_directory_witness :
  let w := MkWorld [] Mem.fresh_bucket [] [] 0 Mem.wall_clock in
  (view_contents (posix_path "/new/") "sftp.example.org" 22 "district" "secret" w).1 =
    Ok [] ∧
  prints (trace (print_listing [] w).2) =
    ["File   Last Modified"; "--------------------"] ∧
  (stfp_formatter "sftp.example.org" 22 "district" "secret" (posix_path "/new/") w).1 =
    Ok tt ∧
  prints (trace (stfp_formatter "sftp.example.org" 22 "district" "secret"
                   (posix_path "/new/") w).2) = ["/new/"].
Proof.
  intros w.
  exact (empty_directory w (posix_path "/new/") "sftp.example.org" 22 "district" "secret"
           fresh_bucket_connects limit_positive new_listdir new_listdir_stripped).
Defined.

(** The tree of [/]. *)
Lemma tree_of_root_lists_empty_path_witness :
  ∃ later,
    trace (stfp_formatter "sftp.example.org" 22 "district" "secret" (posix_path "/")
             (Mem.world [])).2 = [EvPrint "/"; EvListdir ""] ++ later.
Proof.
  refine (tree_of_root_lists_empty_path (Mem.world []) (posix_path "/")
            "sftp.example.org" 22 "district" "secret"
            (bucket_connects []) limit_positive _ _).
  - reflexivity.
  - left. reflexivity.
Defined.

(** [No] after a no-break space ends the loop; [maybe] is not [no], and
    [sure] is neither [yes] nor [no]. *)
Lemma restart_logic_continues_unless_no_witness :
  restart_logic "sftp.example.org" "district" "secret"
    (Mem.world [Mem.nbsp +:+ "No"; "view"]) =
    (Ok Break,
     MkWorld ["view"] Mem.bucket
       [EvPrompt "Continue? (yes/no): "; EvLog INFO "Goodbye!" []] [] 0 Mem.wall_clock) ∧
  restart_logic "sftp.example.org" "district" "secret" (Mem.world ["maybe"; "sure"; "view"]) =
    (Ok (Continue "sftp.example.org" "district" "secret"),
     MkWorld ["view"] Mem.bucket
       [EvPrompt "Continue? (yes/no): ";
        EvPrompt "Proceed with the same sFTP credentials? (yes/no): ";
        EvLog ERROR "Invalid answer-please enter 'yes', or 'no'." []] [] 0 Mem.wall_clock).
Proof.
  split.
  - destruct (restart_logic_continues_unless_no "sftp.example.org" "district" "secret"
                (Mem.world [Mem.nbsp +:+ "No"; "view"]) (Mem.nbsp +:+ "No") ["view"])
      as [Hno _]; [evaluated..|].
    apply Hno. evaluated.
  - destruct (restart_logic_continues_unless_no "sftp.example.org" "district" "secret"
                (Mem.world ["maybe"; "sure"; "view"]) "maybe" ["sure"; "view"])
      as [_ Hgo]; [evaluated..|].
    refine (Hgo "sure" ["view"] _ _ _ _); evaluated.
Defined.

(** The operator moves to another host, typed between white space beyond
    ASCII. *)
Lemma restart_logic_reads_new_credentials_witness :
  let host := Mem.em_space +:+ "other.example.org" +:+ Mem.nbsp in
  restart_logic "sftp.example.org" "district" "secret"
    (Mem.world ["yes"; "No"; host; "clerk"; " pw "; "view"]) =
    (Ok (Continue "other.example.org" "clerk" "pw"),
     MkWorld ["view"] Mem.bucket
       [EvPrompt "Continue? (yes/no): ";
        EvPrompt "Proceed with the same sFTP credentials? (yes/no): ";
        EvLog INFO "Please reenter sFTP credentials:" [];
        EvPrompt "Host: "; EvPrompt "Username: "; EvPrompt "Password: "] [] 0 Mem.wall_clock).
Proof.
  intros host.
  refine (restart_logic_reads_new_credentials "sftp.example.org" "district" "secret"
            (Mem.world ["yes"; "No"; host; "clerk"; " pw "; "view"])
            "yes" "No" host "clerk" " pw " ["view"] _ _ _ _ _ _ _);
    evaluated.
Defined.

Lemma missing_listing_fails :
  (view_contents (posix_path "/missing") "sftp.example.org" 22 "district" "secret"
     (Mem.world [])).1 = Raise Mem.no_such_file.
Proof. by vm_compute. Qed.

Lemma missing_listing_trace :
  trace (view_contents (posix_path "/missing") "sftp.example.org" 22 "district" "secret"
           (Mem.world [])).2 = [EvListdir "/missing"].
Proof. by vm_compute. Qed.

(** There is no folder [/missing]. *)
Lemma csv_view_does_not_catch_listing_failure_witness :
  let w := Mem.world [] in
  (view "csv" (posix_path "/missing") "sftp.example.org" 22 "district" "secret" w).1 =
    Raise Mem.no_such_file ∧
  trace (view "csv" (posix_path "/missing") "sftp.example.org" 22 "district" "secret" w).2 =
    [EvListdir "/missing"] ∧
  (view "list" (posix_path "/missing") "sftp.example.org" 22 "district" "secret" w).1 =
    SysExit 1 ∧
  trace (view "list" (posix_path "/missing") "sftp.example.org" 22 "district" "secret" w).2 =
    [EvListdir "/missing";
     EvLog ERROR "Failed to list directory: {e}" ["[Errno 2] No such file"]].
Proof.
  intros w. subst w.
  destruct (csv_view_does_not_catch_listing_failure (Mem.world []) (posix_path "/missing")
              "sftp.example.org" 22 "district" "secret" Mem.no_such_file
              missing_listing_fails) as [Hcsv Hlist].
  split; [exact (f_equal fst Hcsv)|].
  split; [exact (eq_trans (f_equal (λ r, trace r.2) Hcsv) missing_listing_trace)|].
  split; [exact (f_equal fst Hlist)|].
  refine (eq_trans (f_equal (λ r, trace r.2) Hlist) _).
  exact (f_equal (λ t, t ++ [EvLog ERROR "Failed to list directory: {e}"
                               ["[Errno 2] No such file"]]) missing_listing_trace).
Defined.

(** The listing of [/home] written to [/tmp/out/home.csv]. *)
Lemma csv_view_writes_the_listing_witness :
  let r := view "csv" (posix_path "/home") "sftp.example.org" 22 "district" "secret"
             (Mem.world [" /tmp/out/home.csv "]) in
  r.1 = Ok tt ∧
  trace r.2 =
    [EvListdir "/home"; EvStat "/home/a.csv"; EvStat "/home/b.txt"; EvStat "/home/reports";
     EvPrompt "Output csv file path: ";
     EvCsv "/tmp/out/home.csv"
       [["File"; "Last Modified"]; ["a.csv"; "mtime 30"]; ["b.txt"; "mtime 20"];
        ["reports"; "mtime 40"]];
     EvLog INFO "Wrote {len(rows)} entries to {output_path}" ["3"; "/tmp/out/home.csv"]].
Proof.
  intros r.
  refine (csv_view_writes_the_listing (Mem.world [" /tmp/out/home.csv "])
            (posix_path "/home") "sftp.example.org" 22 "district" "secret" _ _
            " /tmp/out/home.csv " []
            (bucket_connects _) home_listdir home_stat _ _); evaluated.
Defined.

Lemma reports_put :
  (srv_put (remote (Mem.world [])) district "/tmp/roster.csv"
     (as_posix (truediv (posix_path "/home/reports") "roster.csv")) true).1 = None.
Proof. by vm_compute. Qed.

(** The upload of [/tmp/roster.csv] to [/home/reports] is accepted. *)
Lemma upload_reports_success_only_when_put_succeeds_witness :
  let r := upload_file (posix_path "/tmp/roster.csv") (posix_path "/home/reports")
             "sftp.example.org" 22 "district" "secret" (Mem.world []) in
  r.1 = Ok tt ∧
  EvLog INFO "Upload completed successfully." [] ∈ trace r.2.
Proof.
  intros r.
  destruct (upload_reports_success_only_when_put_succeeds (Mem.world [])
              (posix_path "/tmp/roster.csv") (posix_path "/home/reports")
              "sftp.example.org" 22 "district" "secret"
              roster_exists roster_is_a_file (bucket_connects []))
    as (Hok & Hlog & _).
  split; [exact (proj2 Hok reports_put)|exact (proj2 Hlog reports_put)].
Defined.

(** The upload of [/tmp/roster.csv] with a wrong password. *)
Lemma upload_command_sign_in_failure_witness :
  let r := command "upload" "sftp.example.org" 22 "district" "guess"
             (Mem.world ["/tmp/roster.csv"; "/home/reports"; "no"]) in
  r.1 = SysExit 1 ∧
  stdin r.2 = ["no"] ∧
  remote r.2 = Mem.bucket ∧
  trace r.2 =
    [EvPrompt "Local file to upload: "; EvPrompt "Remote directory: ";
     EvLog INFO "Paths found and valid, starting upload." [];
     EvLog ERROR "An exception has occured! Error {e}" ["Authentication failed."];
     EvLog ERROR "Upload failed: {e}" ["Authentication failed."]].
Proof.
  intros r.
  refine (upload_command_sign_in_failure
            (Mem.world ["/tmp/roster.csv"; "/home/reports"; "no"])
            "sftp.example.org" 22 "district" "guess"
            "/tmp/roster.csv" "/home/reports" ["no"]
            (AuthenticationException "Authentication failed.")
            _ _ _ roster_exists roster_is_a_file _ _); evaluated.
Defined.

End FurtherRuns.

Section DroppedRuns.
#[local] Existing Instance Mem.dropped.

Lemma dropped_connects :
  connects (Mem.world []) "sftp.example.org" 22 "district" "secret".
Proof. by repeat split. Qed.

(** The connection is lost before [stat] is answered: [delete] records an
    [sFTP error] and raises the [SSHException] of the client. *)
Lemma delete_file_stat_error_is_passed_on_witness :
  let r := delete (posix_path "/home/b.txt") "sftp.example.org" 22 "district" "secret"
             "file" (Mem.world []) in
  r.1 = Raise Mem.connection_dropped ∧
  remote r.2 = Mem.bucket ∧
  trace r.2 =
    [EvStat "/home/b.txt"; EvLog ERROR "sFTP error: {e}" ["Server connection dropped: "]].
Proof.
  intros r.
  refine (delete_file_stat_error_is_passed_on (Mem.world []) (posix_path "/home/b.txt")
            "sftp.example.org" 22 "district" "secret" Mem.connection_dropped
            dropped_connects _ _); reflexivity.
Defined.

End DroppedRuns.
